(** * dfencoder AutoEncoder: a shallow embedding of
      [morpheus/models/dfencoder/autoencoder.py]

    The development follows the Python class [AutoEncoder]: the feature
    registry ([_init_cats], [_init_numeric], [_init_binary],
    [_init_features], [prepare_df]), the decoding adapter
    ([_decode_outputs_to_df]), the loss composition
    ([_compute_loss_from_targets], [_do_backward]), the training
    orchestrator ([fit], [_build_model], [_fit_data]) and the anomaly scorer
    ([_get_anomaly_score_losses]).

    Conventions.  Python exceptions are values of [pyexc]; a call that may
    raise returns a [result].  Python [int]s are [Z] ([//] is [Z.div] and [%]
    is [Z.modulo], both floor based like Python's).  A float is idealised as
    an exact rational; [None : option Qc] stands for NaN where the code can
    produce one (the mean of an empty tensor).  A [dict] literal with
    hashable keys is a [gmap]; an [OrderedDict] keyed by column name is an
    association list in insertion order. *)

From Stdlib Require Import ZArith QArith Qcanon Qround List Bool Lia Lqa.
From stdpp Require Import gmap strings sorting.
Import ListNotations.

#[local] Open Scope Z_scope.
#[local] Open Scope string_scope.
#[local] Open Scope list_scope.

(** ** Python exceptions and results *)

Module Py.

(** The exception classes the code raises, together with the two names that
    only the written taxonomy uses ([ConfigurationError], [NotFittedError]). *)
Inductive pyexc : Set :=
| TypeError | ValueError | KeyError | IndexError | ZeroDivisionError
| RuntimeError | AttributeError | UnboundLocalError
| ConfigurationError | NotFittedError.

Inductive result (A : Type) : Type :=
| Ok (a : A)
| Raise (e : pyexc).
Arguments Ok {A} a.
Arguments Raise {A} e.

Definition bind {A B} (r : result A) (k : A -> result B) : result B :=
  match r with
  | Ok a => k a
  | Raise e => Raise e
  end.

End Py.
Export Py.

Notation "'try!' x ':=' r 'in' k" := (bind r (fun x => k))
  (at level 10, x name, r at level 100, k at level 200).

(** ** Scaler lookup ([_get_scaler]) *)

Module Scalers.

(** The four scaler classes imported from [.scalers]. *)
Inductive scaler_class : Set :=
| StandardScaler | GaussRankScaler | ModifiedScaler | NullScaler.

(** The dict literal of [_get_scaler]; the key [None] is Python's [None]. *)
Definition scalers : gmap (option string) scaler_class :=
  <[Some "none" := NullScaler]>
  (<[None := NullScaler]>
  (<[Some "modified" := ModifiedScaler]>
  (<[Some "gauss_rank" := GaussRankScaler]>
  (<[Some "standard" := StandardScaler]> ∅)))).

(** [scalers[name]]: a missing key raises [KeyError]. *)
Definition _get_scaler (name : option string) : result scaler_class :=
  match scalers !! name with
  | Some c => Ok c
  | None => Raise KeyError
  end.

(** The names the dict knows. *)
Definition known_scaler_names : list (option string) :=
  [Some "standard"; Some "gauss_rank"; Some "modified"; None; Some "none"].

End Scalers.
Export Scalers.

(** ** Floats *)

Module Floats.

(** A float: an exact rational, or NaN ([None]). *)
Definition fl : Type := option Qc.

Definition NaN : fl := None.

(** [a + b]; NaN is absorbing. *)
Definition fadd (a b : fl) : fl :=
  match a, b with
  | Some x, Some y => Some (x + y)%Qc
  | _, _ => None
  end.

(** The sum of a list of floats, with [0.0] for the empty list. *)
Definition fsum (l : list fl) : fl := fold_right fadd (Some 0%Qc) l.

(** [x / n] for a positive count [n]. *)
Definition fdivn (x : fl) (n : nat) : fl :=
  match x with
  | Some q => Some (q / Q2Qc (inject_Z (Z.of_nat n)))%Qc
  | None => None
  end.

(** [.mean()] of a flat sequence: NaN when it is empty. *)
Definition mean1 (l : list fl) : fl :=
  match l with
  | [] => NaN
  | _ => fdivn (fsum l) (length l)
  end.

(** A validation loss: a float, or the [float('inf')] the early-stopping
    loop starts from. *)
Inductive vloss : Type :=
| Loss (x : fl)
| Inf.

(** [a > b] on floats: false as soon as one side is NaN. *)
Definition gt (a b : vloss) : bool :=
  match a, b with
  | Loss (Some x), Loss (Some y) => negb (Qle_bool x y)
  | Inf, Loss (Some _) => true
  | _, _ => false
  end.

End Floats.
Export Floats.

(** ** Dataframes *)

Module Frame.

(** A pandas column with the three dtypes [select_dtypes] tells apart.  A
    missing cell of a numeric or an object column is [None]. *)
Inductive column : Type :=
| NumCol (vals : list fl)
| BoolCol (vals : list bool)
| ObjCol (vals : list (option string)).

Definition DataFrame : Type := list (string * column).

Definition is_num (c : column) : bool :=
  match c with NumCol _ => true | _ => false end.
Definition is_bool (c : column) : bool :=
  match c with BoolCol _ => true | _ => false end.
Definition is_obj (c : column) : bool :=
  match c with ObjCol _ => true | _ => false end.

(** [list(df.select_dtypes(include=...).columns)] *)
Definition select_dtypes (p : column -> bool) (df : DataFrame) : list string :=
  map fst (List.filter (fun kv => p (snd kv)) df).

(** [df[ft]] *)
Fixpoint getitem (df : DataFrame) (ft : string) : result column :=
  match df with
  | [] => Raise KeyError
  | (k, c) :: rest => if String.eqb k ft then Ok c else getitem rest ft
  end.

End Frame.
Export Frame.

(** ** Ordered dictionaries keyed by column name *)

Module OD.

Section Ordered.
Context {V : Type}.

(** [d[k] = v]: an existing key keeps its position. *)
Fixpoint set (d : list (string * V)) (k : string) (v : V) : list (string * V) :=
  match d with
  | [] => [(k, v)]
  | (k', v') :: rest =>
      if String.eqb k' k then (k, v) :: rest else (k', v') :: set rest k v
  end.

Fixpoint get (d : list (string * V)) (k : string) : option V :=
  match d with
  | [] => None
  | (k', v') :: rest => if String.eqb k' k then Some v' else get rest k
  end.

Definition keys (d : list (string * V)) : list string := map fst d.
End Ordered.

End OD.

(** ** Python scalars and plain dicts *)

Module PyVal.

(** The scalars that occur as binary labels and as keys of a feature dict. *)
Inductive pyval : Type :=
| VBool (b : bool)
| VInt (z : Z)
| VStr (s : string).

(** Python's [==] (and hashing) on these scalars: [True == 1], [False == 0]. *)
Definition as_int (v : pyval) : option Z :=
  match v with
  | VBool b => Some (if b then 1 else 0)
  | VInt z => Some z
  | VStr _ => None
  end.

Definition py_eqb (a b : pyval) : bool :=
  match a, b with
  | VStr s, VStr t => String.eqb s t
  | VStr _, _ | _, VStr _ => false
  | _, _ =>
      match as_int a, as_int b with
      | Some x, Some y => Z.eqb x y
      | _, _ => false
      end
  end.

(** A dict value: a scalar or a list of scalars (the ['cats'] entry). *)
Inductive pyobj : Type :=
| OVal (v : pyval)
| OList (l : list pyval).

Definition pydict : Type := list (pyval * pyobj).

(** [d[k] = v] *)
Fixpoint dict_set (d : pydict) (k : pyval) (v : pyobj) : pydict :=
  match d with
  | [] => [(k, v)]
  | (k', v') :: rest =>
      if py_eqb k' k then (k', v) :: rest else (k', v') :: dict_set rest k v
  end.

(** [d.get(k)] *)
Fixpoint dict_get (d : pydict) (k : pyval) : option pyobj :=
  match d with
  | [] => None
  | (k', v') :: rest => if py_eqb k' k then Some v' else dict_get rest k
  end.

(** [d[k]] *)
Definition dict_item (d : pydict) (k : pyval) : result pyobj :=
  match dict_get d k with Some v => Ok v | None => Raise KeyError end.

(** [l[i]] for a non-negative index. *)
Definition list_item {A} (l : list A) (i : nat) : result A :=
  match nth_error l i with Some x => Ok x | None => Raise IndexError end.

(** [enumerate(l)] *)
Definition enumerate {A} (l : list A) : list (nat * A) :=
  combine (seq 0 (length l)) l.

(** [bool(i)] for an index. *)
Definition bool_of_index (i : nat) : bool :=
  match i with O => false | S _ => true end.

End PyVal.
Export PyVal.

(** ** The [AutoEncoder] object *)

Module Model.

(** A scaler object, kept symbolically: its class, the sample it was fitted
    on (if [fit] was called) and the attributes set on it with [setattr].
    The numerics live in [.scalers]. *)
Record ScalerInst : Type := {
  scaler_cls : scaler_class;
  fitted_on : option (list Qc);
  attrs : list (string * fl)
}.

(** [Scaler()] *)
Definition new_scaler (c : scaler_class) : ScalerInst :=
  {| scaler_cls := c; fitted_on := None; attrs := [] |}.

(** [scaler.fit(values)] *)
Definition scaler_fit (s : ScalerInst) (values : list Qc) : ScalerInst :=
  {| scaler_cls := scaler_cls s; fitted_on := Some values; attrs := attrs s |}.

(** [setattr(scaler, k, v)] *)
Definition scaler_setattr (s : ScalerInst) (k : string) (v : fl) : ScalerInst :=
  {| scaler_cls := scaler_cls s; fitted_on := fitted_on s;
     attrs := OD.set (attrs s) k v |}.

(** A standard deviation is kept symbolically (it needs a square root):
    either a given number or the [std()] of a sample. *)
Inductive std_val : Type :=
| StdGiven (x : fl)
| StdOfSample (sample : list fl).

Record numeric_feature : Type := {
  mean : fl;
  std : std_val;
  scaler : ScalerInst
}.

(** A categorical feature dict has the single key ['cats']. *)
Record categorical_feature : Type := { cats : list string }.

(** One entry of [preset_numerical_scaler_params]; [scaler_type] is read with
    [.get(..., "gauss_rank")], so it may be absent. *)
Record scaler_params : Type := {
  scaler_type : option (option string);
  scaler_attr_dict : list (string * fl);
  sp_mean : fl;
  sp_std : fl
}.

(** The [scaler] argument: one name for every column, a dict per column, or
    something that is neither a [str] nor a [dict]. *)
Inductive scaler_cfg : Type :=
| ScalerStr (name : string)
| ScalerDict (d : gmap string (option string))
| ScalerOther.

Inductive Optim : Set := Adam | SGD.

(** [self.lr_decay]: [None], the decay rate given to [__init__], or the
    [ExponentialLR] scheduler [_build_model] replaces the rate with. *)
Inductive lr_decay_t : Type :=
| DecayNone
| DecayRate (gamma : Qc)
| DecayScheduler (gamma : Qc).

Inductive Logger : Type :=
| NoLogger
| LoggerName (name : string)
| BasicLogger (fts : list string)
| IpynbLogger (fts : list string)
| TensorboardXLogger (fts : list string).

Record AutoEncoder : Type := {
  numeric_fts : list (string * numeric_feature);
  binary_fts : list (string * pydict);
  categorical_fts : list (string * categorical_feature);
  distributed_training : bool;
  optimizer : string;
  optim : option Optim;
  lr_decay : lr_decay_t;
  min_cats : Z;
  preset_cats : option (list (string * categorical_feature));
  preset_numerical_scaler_params : option (list (string * scaler_params));
  swap_p : Qc;
  batch_size : Z;
  eval_batch_size : Z;
  num_names : list string;
  bin_names : option (list string);
  logger : Logger;
  scaler_arg : scaler_cfg;
  patience : option Z;
  loss_scaler_str : option string;
  loss_scaler : scaler_class
}.

(** The keyword arguments of [__init__] that the rest of the class reads. *)
Record init_args : Type := {
  a_min_cats : Z;
  a_swap_p : Qc;
  a_batch_size : Z;
  a_eval_batch_size : Z;
  a_optimizer : string;
  a_lr_decay : option Qc;
  a_distributed_training : bool;
  a_logger : option string;
  a_scaler : scaler_cfg;
  a_patience : option Z;
  a_preset_cats : option (list (string * categorical_feature));
  a_preset_numerical_scaler_params : option (list (string * scaler_params));
  a_binary_feature_list : option (list string);
  a_loss_scaler : option string
}.

(** The defaults of the signature of [__init__]. *)
Definition default_args : init_args := {|
  a_min_cats := 10;
  a_swap_p := Q2Qc (15 # 100);
  a_batch_size := 256;
  a_eval_batch_size := 1024;
  a_optimizer := "adam";
  a_lr_decay := None;
  a_distributed_training := false;
  a_logger := Some "basic";
  a_scaler := ScalerStr "standard";
  a_patience := Some 5;
  a_preset_cats := None;
  a_preset_numerical_scaler_params := None;
  a_binary_feature_list := None;
  a_loss_scaler := Some "standard"
|}.

(** [AutoEncoder.__init__]: every attribute is assigned, and the last
    statement looks the loss scaler up.  The construction of the [AEModule]
    collaborator is left out. *)
Definition __init__ (a : init_args) : result AutoEncoder :=
  try! cls := _get_scaler (a_loss_scaler a) in
  Ok {|
    numeric_fts := [];
    binary_fts := [];
    categorical_fts := [];
    distributed_training := a_distributed_training a;
    optimizer := a_optimizer a;
    optim := None;
    lr_decay := match a_lr_decay a with Some g => DecayRate g | None => DecayNone end;
    min_cats := a_min_cats a;
    preset_cats := a_preset_cats a;
    preset_numerical_scaler_params := a_preset_numerical_scaler_params a;
    swap_p := a_swap_p a;
    batch_size := a_batch_size a;
    eval_batch_size := a_eval_batch_size a;
    num_names := [];
    bin_names := a_binary_feature_list a;
    logger := match a_logger a with Some name => LoggerName name | None => NoLogger end;
    scaler_arg := a_scaler a;
    patience := a_patience a;
    loss_scaler_str := a_loss_scaler a;
    loss_scaler := cls
  |}.

(** The object [AutoEncoder()] constructs. *)
Definition default_autoencoder : AutoEncoder := {|
  numeric_fts := [];
  binary_fts := [];
  categorical_fts := [];
  distributed_training := false;
  optimizer := "adam";
  optim := None;
  lr_decay := DecayNone;
  min_cats := 10;
  preset_cats := None;
  preset_numerical_scaler_params := None;
  swap_p := Q2Qc (15 # 100);
  batch_size := 256;
  eval_batch_size := 1024;
  num_names := [];
  bin_names := None;
  logger := LoggerName "basic";
  scaler_arg := ScalerStr "standard";
  patience := Some 5;
  loss_scaler_str := Some "standard";
  loss_scaler := StandardScaler
|}.

End Model.
Export Model.

(** ** Attribute assignment ([self.x = v]) *)

Module Attr.

Definition set_numeric_fts (v : list (string * numeric_feature)) (self : AutoEncoder) : AutoEncoder :=
  {| numeric_fts := v;
     binary_fts := binary_fts self;
     categorical_fts := categorical_fts self;
     distributed_training := distributed_training self;
     optimizer := optimizer self;
     optim := optim self;
     lr_decay := lr_decay self;
     min_cats := min_cats self;
     preset_cats := preset_cats self;
     preset_numerical_scaler_params := preset_numerical_scaler_params self;
     swap_p := swap_p self;
     batch_size := batch_size self;
     eval_batch_size := eval_batch_size self;
     num_names := num_names self;
     bin_names := bin_names self;
     logger := logger self;
     scaler_arg := scaler_arg self;
     patience := patience self;
     loss_scaler_str := loss_scaler_str self;
     loss_scaler := loss_scaler self |}.

Definition set_binary_fts (v : list (string * pydict)) (self : AutoEncoder) : AutoEncoder :=
  {| numeric_fts := numeric_fts self;
     binary_fts := v;
     categorical_fts := categorical_fts self;
     distributed_training := distributed_training self;
     optimizer := optimizer self;
     optim := optim self;
     lr_decay := lr_decay self;
     min_cats := min_cats self;
     preset_cats := preset_cats self;
     preset_numerical_scaler_params := preset_numerical_scaler_params self;
     swap_p := swap_p self;
     batch_size := batch_size self;
     eval_batch_size := eval_batch_size self;
     num_names := num_names self;
     bin_names := bin_names self;
     logger := logger self;
     scaler_arg := scaler_arg self;
     patience := patience self;
     loss_scaler_str := loss_scaler_str self;
     loss_scaler := loss_scaler self |}.

Definition set_categorical_fts (v : list (string * categorical_feature)) (self : AutoEncoder) : AutoEncoder :=
  {| numeric_fts := numeric_fts self;
     binary_fts := binary_fts self;
     categorical_fts := v;
     distributed_training := distributed_training self;
     optimizer := optimizer self;
     optim := optim self;
     lr_decay := lr_decay self;
     min_cats := min_cats self;
     preset_cats := preset_cats self;
     preset_numerical_scaler_params := preset_numerical_scaler_params self;
     swap_p := swap_p self;
     batch_size := batch_size self;
     eval_batch_size := eval_batch_size self;
     num_names := num_names self;
     bin_names := bin_names self;
     logger := logger self;
     scaler_arg := scaler_arg self;
     patience := patience self;
     loss_scaler_str := loss_scaler_str self;
     loss_scaler := loss_scaler self |}.

Definition set_optim (v : option Optim) (self : AutoEncoder) : AutoEncoder :=
  {| numeric_fts := numeric_fts self;
     binary_fts := binary_fts self;
     categorical_fts := categorical_fts self;
     distributed_training := distributed_training self;
     optimizer := optimizer self;
     optim := v;
     lr_decay := lr_decay self;
     min_cats := min_cats self;
     preset_cats := preset_cats self;
     preset_numerical_scaler_params := preset_numerical_scaler_params self;
     swap_p := swap_p self;
     batch_size := batch_size self;
     eval_batch_size := eval_batch_size self;
     num_names := num_names self;
     bin_names := bin_names self;
     logger := logger self;
     scaler_arg := scaler_arg self;
     patience := patience self;
     loss_scaler_str := loss_scaler_str self;
     loss_scaler := loss_scaler self |}.

Definition set_num_names (v : list string) (self : AutoEncoder) : AutoEncoder :=
  {| numeric_fts := numeric_fts self;
     binary_fts := binary_fts self;
     categorical_fts := categorical_fts self;
     distributed_training := distributed_training self;
     optimizer := optimizer self;
     optim := optim self;
     lr_decay := lr_decay self;
     min_cats := min_cats self;
     preset_cats := preset_cats self;
     preset_numerical_scaler_params := preset_numerical_scaler_params self;
     swap_p := swap_p self;
     batch_size := batch_size self;
     eval_batch_size := eval_batch_size self;
     num_names := v;
     bin_names := bin_names self;
     logger := logger self;
     scaler_arg := scaler_arg self;
     patience := patience self;
     loss_scaler_str := loss_scaler_str self;
     loss_scaler := loss_scaler self |}.

Definition set_bin_names (v : option (list string)) (self : AutoEncoder) : AutoEncoder :=
  {| numeric_fts := numeric_fts self;
     binary_fts := binary_fts self;
     categorical_fts := categorical_fts self;
     distributed_training := distributed_training self;
     optimizer := optimizer self;
     optim := optim self;
     lr_decay := lr_decay self;
     min_cats := min_cats self;
     preset_cats := preset_cats self;
     preset_numerical_scaler_params := preset_numerical_scaler_params self;
     swap_p := swap_p self;
     batch_size := batch_size self;
     eval_batch_size := eval_batch_size self;
     num_names := num_names self;
     bin_names := v;
     logger := logger self;
     scaler_arg := scaler_arg self;
     patience := patience self;
     loss_scaler_str := loss_scaler_str self;
     loss_scaler := loss_scaler self |}.

Definition set_logger (v : Logger) (self : AutoEncoder) : AutoEncoder :=
  {| numeric_fts := numeric_fts self;
     binary_fts := binary_fts self;
     categorical_fts := categorical_fts self;
     distributed_training := distributed_training self;
     optimizer := optimizer self;
     optim := optim self;
     lr_decay := lr_decay self;
     min_cats := min_cats self;
     preset_cats := preset_cats self;
     preset_numerical_scaler_params := preset_numerical_scaler_params self;
     swap_p := swap_p self;
     batch_size := batch_size self;
     eval_batch_size := eval_batch_size self;
     num_names := num_names self;
     bin_names := bin_names self;
     logger := v;
     scaler_arg := scaler_arg self;
     patience := patience self;
     loss_scaler_str := loss_scaler_str self;
     loss_scaler := loss_scaler self |}.

Definition set_lr_decay (v : lr_decay_t) (self : AutoEncoder) : AutoEncoder :=
  {| numeric_fts := numeric_fts self;
     binary_fts := binary_fts self;
     categorical_fts := categorical_fts self;
     distributed_training := distributed_training self;
     optimizer := optimizer self;
     optim := optim self;
     lr_decay := v;
     min_cats := min_cats self;
     preset_cats := preset_cats self;
     preset_numerical_scaler_params := preset_numerical_scaler_params self;
     swap_p := swap_p self;
     batch_size := batch_size self;
     eval_batch_size := eval_batch_size self;
     num_names := num_names self;
     bin_names := bin_names self;
     logger := logger self;
     scaler_arg := scaler_arg self;
     patience := patience self;
     loss_scaler_str := loss_scaler_str self;
     loss_scaler := loss_scaler self |}.

End Attr.
Export Attr.

(** ** Methods run in a state-and-exception monad

    A method reads and assigns attributes of [self] and may raise; what it
    assigned before raising stays assigned.  The trace records the calls to
    the collaborators and the stages of a run, in order. *)

Module Run.

Inductive event : Type :=
| EvWarning                   (* [LOG.warning] of [_fit_data] *)
| EvModelBuild                (* [self.model.build(...)] *)
| EvBaseline                  (* [_compute_baseline_performance_from_dataset] *)
| EvTrainEpoch (epoch : nat)  (* the batch loop of one epoch *)
| EvLrDecayStep (epoch : nat) (* [self.lr_decay.step()] *)
| EvValidate (epoch : nat)    (* [_validate_dataset] *)
| EvEndEpoch (epoch : nat)    (* [self.logger.end_epoch()] *)
| EvPopulateLossStats.        (* [_populate_loss_stats_from_dataset] *)

Record world : Type := { obj : AutoEncoder; trace : list event }.

(** A fresh object and an empty trace. *)
Definition fresh (self : AutoEncoder) : world := {| obj := self; trace := [] |}.

Definition M (A : Type) : Type := world -> result A * world.

Definition ret {A} (a : A) : M A := fun w => (Ok a, w).
Definition raise {A} (e : pyexc) : M A := fun w => (Raise e, w).
Definition bindM {A B} (m : M A) (k : A -> M B) : M B :=
  fun w =>
    match m w with
    | (Ok a, w') => k a w'
    | (Raise e, w') => (Raise e, w')
    end.
Definition get_self : M AutoEncoder := fun w => (Ok (obj w), w).
Definition modify (f : AutoEncoder -> AutoEncoder) : M unit :=
  fun w => (Ok tt, {| obj := f (obj w); trace := trace w |}).
Definition emit (ev : event) : M unit :=
  fun w => (Ok tt, {| obj := obj w; trace := trace w ++ [ev] |}).
Definition lift {A} (r : result A) : M A :=
  match r with Ok a => ret a | Raise e => raise e end.

(** [for x in l: body(x)] *)
Fixpoint for_each {A} (l : list A) (body : A -> M unit) : M unit :=
  match l with
  | [] => ret tt
  | x :: rest => bindM (body x) (fun _ => for_each rest body)
  end.

End Run.
Export Run.

Notation "'run!' x ':=' m 'in' k" := (bindM m (fun x => k))
  (at level 10, x name, m at level 100, k at level 200).

(** ** The pandas operations the registry relies on *)

Module Pandas.

(** Distinct values in order of first appearance. *)
Fixpoint unique (l : list string) : list string :=
  match l with
  | [] => []
  | x :: rest => x :: List.filter (fun y => negb (String.eqb x y)) (unique rest)
  end.

(** The non-missing cells of an object column. *)
Definition dropna {A} (col : list (option A)) : list A := omap id col.

(** How often [v] occurs in a column. *)
Definition count_of (v : string) (col : list (option string)) : Z :=
  Z.of_nat (length (List.filter (String.eqb v) (dropna col))).

(** Order of [value_counts]: larger counts first. *)
Definition count_ge (a b : string * Z) : Prop := (snd b <= snd a)%Z.

#[global] Instance count_ge_dec (a b : string * Z) : Decision (count_ge a b) :=
  Z_le_dec (snd b) (snd a).

(** [col.value_counts()]: missing cells are dropped, each distinct value gets
    its count, and the result is sorted by decreasing count (stable for
    ties). *)
Definition value_counts (col : list (option string)) : list (string * Z) :=
  merge_sort count_ge
    (map (fun v => (v, count_of v col)) (unique (dropna col))).

(** [list(vl[vl >= k].index)] *)
Definition index_where_ge (vl : list (string * Z)) (k : Z) : list string :=
  map fst (List.filter (fun vc => Z.leb k (snd vc)) vl).

(** Position of the first occurrence of [v]. *)
Fixpoint index_of (v : string) (l : list string) : option nat :=
  match l with
  | [] => None
  | x :: rest =>
      if String.eqb x v then Some O
      else match index_of v rest with Some i => Some (S i) | None => None end
  end.

(** A [pd.Categorical]: its categories and one integer code per cell, [-1]
    for a missing cell. *)
Record Categorical : Type := {
  categories : list string;
  codes : list Z
}.

Definition code_of (categories : list string) (cell : option string) : Z :=
  match cell with
  | Some v =>
      match index_of v categories with
      | Some i => Z.of_nat i
      | None => -1
      end
  | None => -1
  end.

(** [pd.Categorical(values, categories=categories)]: the categories must be
    unique ([ValueError] otherwise); a value outside them becomes missing. *)
Definition pd_Categorical (values : list (option string)) (categories : list string)
  : result Categorical :=
  if decide (NoDup categories) then
    Ok {| categories := categories; codes := map (code_of categories) values |}
  else Raise ValueError.

(** [col.fillna(value)]: the fill value must be one of the categories. *)
Definition fillna (c : Categorical) (value : string) : result Categorical :=
  match index_of value (categories c) with
  | Some i =>
      Ok {| categories := categories c;
            codes := map (fun k => if Z.eqb k (-1) then Z.of_nat i else k) (codes c) |}
  | None => Raise TypeError
  end.

(** The label of the cell at position [i] of a categorical column. *)
Definition label_at (c : Categorical) (i : nat) : option string :=
  match nth_error (codes c) i with
  | Some k => if Z.ltb k 0 then None else nth_error (categories c) (Z.to_nat k)
  | None => None
  end.

(** [col.mean()]: missing cells are skipped. *)
Definition pd_mean (col : list fl) : fl := mean1 (map Some (dropna col)).

End Pandas.
Export Pandas.

(** ** Feature registry *)

Module Registry.

(** The reserved category. *)
Definition other : string := "_other".

(** Lines 284-285 of [_init_cats] for one column: the categories seen at
    least [min_cats] times. *)
Definition cats_of_column (min_cats : Z) (col : list (option string)) : list string :=
  index_where_ge (value_counts col) min_cats.

(** [df[ft]] for a column [select_dtypes(include=object)] returned. *)
Definition object_column (df : DataFrame) (ft : string) : result (list (option string)) :=
  try! c := getitem df ft in
  match c with
  | ObjCol vals => Ok vals
  | _ => Raise TypeError
  end.

(** [_init_cats] *)
Definition _init_cats (df : option DataFrame) : M unit :=
  match df with
  | None => raise AttributeError
  | Some df =>
      let objects := select_dtypes is_obj df in
      for_each objects (fun ft =>
        run! self := get_self in
        run! col := lift (object_column df ft) in
        let feature := {| cats := cats_of_column (min_cats self) col |} in
        modify (fun self => set_categorical_fts (OD.set (categorical_fts self) ft feature) self))
  end.

(** [scaler_params.get("scaler_type", "gauss_rank")] *)
Definition scaler_type_or_default (t : option (option string)) : option string :=
  match t with
  | Some name => name
  | None => Some "gauss_rank"
  end.

(** The comprehension or the dict bound to the local [scalers]. *)
Definition local_scalers (cfg : scaler_cfg) (numeric : list string)
  : option (string -> option string) :=
  match cfg with
  | ScalerStr name => Some (fun _ => Some name)
  | ScalerDict d => Some (fun ft => scaler_type_or_default (d !! ft))
  | ScalerOther => None
  end.

Definition numeric_column (df : DataFrame) (ft : string) : result (list fl) :=
  try! c := getitem df ft in
  match c with
  | NumCol vals => Ok vals
  | _ => Raise TypeError
  end.

(** [_init_numeric] *)
Definition _init_numeric (df : option DataFrame) : M unit :=
  run! self := get_self in
  match df, preset_numerical_scaler_params self with
  | None, None => raise ValueError
  | _, _ =>
      run! _ :=
        match preset_numerical_scaler_params self with
        | Some ((_ :: _) as presets) =>
            for_each presets (fun item =>
              let ft := fst item in
              let scaler_params := snd item in
              run! cls := lift (_get_scaler (scaler_type_or_default (scaler_type scaler_params))) in
              let scaler :=
                fold_left (fun s kv => scaler_setattr s (fst kv) (snd kv))
                          (scaler_attr_dict scaler_params) (new_scaler cls) in
              let feature := {| mean := sp_mean scaler_params;
                                std := StdGiven (sp_std scaler_params);
                                scaler := scaler |} in
              modify (fun self => set_numeric_fts (OD.set (numeric_fts self) ft feature) self))
        | _ =>
            match df with
            | None => raise AttributeError
            | Some df =>
                let numeric := select_dtypes is_num df in
                for_each numeric (fun ft =>
                  run! self := get_self in
                  match local_scalers (scaler_arg self) numeric with
                  | None => raise UnboundLocalError
                  | Some scalers =>
                      run! cls := lift (_get_scaler (scalers ft)) in
                      run! col := lift (numeric_column df ft) in
                      let feature := {| mean := pd_mean col;
                                        std := StdOfSample col;
                                        scaler := scaler_fit (new_scaler cls) (dropna col) |} in
                      modify (fun self => set_numeric_fts (OD.set (numeric_fts self) ft feature) self)
                  end)
            end
        end in
      modify (fun self => set_num_names (OD.keys (numeric_fts self)) self)
  end.

(** The first loop of [_init_binary], on one feature already in the
    registry: [feature[cat] = bool(i)] for every [i, cat] of its ['cats']. *)
Definition relabel (feature : pydict) : result pydict :=
  try! cs := dict_item feature (VStr "cats") in
  match cs with
  | OList cs =>
      Ok (fold_left (fun f ic => dict_set f (snd ic) (OVal (VBool (bool_of_index (fst ic)))))
                    (enumerate cs) feature)
  | OVal _ => Raise TypeError
  end.

(** The feature dict the second loop of [_init_binary] builds. *)
Definition new_binary_feature : pydict :=
  dict_set (dict_set (dict_set [] (VStr "cats") (OList [VBool true; VBool false]))
                     (VBool true) (OVal (VBool true)))
           (VBool false) (OVal (VBool false)).

(** [_init_binary] *)
Definition _init_binary (df : option DataFrame) : M unit :=
  run! self := get_self in
  match df, bin_names self with
  | None, None => raise ValueError
  | _, _ =>
      run! binaries :=
        match bin_names self, df with
        | Some names, _ => ret names
        | None, Some df =>
            let binaries := select_dtypes is_bool df in
            run! _ := modify (set_bin_names (Some binaries)) in
            ret binaries
        | None, None => raise ValueError
        end in
      run! _ := for_each (OD.keys (binary_fts self)) (fun ft =>
        run! self := get_self in
        match OD.get (binary_fts self) ft with
        | None => raise KeyError
        | Some feature =>
            run! feature' := lift (relabel feature) in
            modify (fun self => set_binary_fts (OD.set (binary_fts self) ft feature') self)
        end) in
      for_each binaries (fun ft =>
        modify (fun self => set_binary_fts (OD.set (binary_fts self) ft new_binary_feature) self))
  end.

(** [_init_features] *)
Definition _init_features (df : option DataFrame) : M unit :=
  run! self := get_self in
  run! _ :=
    match df with
    | None =>
        match preset_cats self, bin_names self, preset_numerical_scaler_params self with
        | Some _, Some _, Some _ => ret tt
        | _, _, _ => raise ValueError
        end
    | Some _ => ret tt
    end in
  run! _ :=
    match preset_cats self with
    | Some presets => modify (set_categorical_fts presets)
    | None => _init_cats df
    end in
  run! _ := _init_numeric df in
  _init_binary df.

(** The cells of a column as Python scalars; a missing cell or a float that
    is not a whole number matches no key ([None]). *)
Definition cell_keys (c : column) : list (option pyval) :=
  match c with
  | BoolCol vals => map (fun b => Some (VBool b)) vals
  | ObjCol vals => map (fun v => match v with Some s => Some (VStr s) | None => None end) vals
  | NumCol vals =>
      map (fun v => match v with
                    | Some q => if Z.eqb (Zpos (Qden (this q))) 1 then Some (VInt (Qnum (this q))) else None
                    | None => None
                    end) vals
  end.

(** [prepare_df], binary columns: [df[ft].apply(lambda x: feature.get(x, False))]. *)
Definition prepare_binary_column (feature : pydict) (c : column) : list pyobj :=
  map (fun x =>
         match x with
         | Some k => match dict_get feature k with Some v => v | None => OVal (VBool false) end
         | None => OVal (VBool false)
         end) (cell_keys c).

(** [prepare_df], categorical columns:
    [pd.Categorical(df[ft], categories=feature['cats'] + ['_other']).fillna('_other')]. *)
Definition prepare_categorical_column (feature : categorical_feature)
  (values : list (option string)) : result Categorical :=
  try! col := pd_Categorical values (cats feature ++ [other]) in
  fillna col other.

(** [compute_targets], one cell of a binary column: [.astype(int)] then
    [.float()]. *)
Definition binary_target (o : pyobj) : result Qc :=
  match o with
  | OVal v =>
      match as_int v with
      | Some z => Ok (Q2Qc (inject_Z z))
      | None => Raise ValueError
      end
  | OList _ => Raise TypeError
  end.

End Registry.
Export Registry.

(** ** Decoding adapter ([_decode_outputs_to_df]) *)

Module Decode.

(** [round(x)] on a float column: to the nearest integer, halves to even. *)
Definition round_half_even (x : Qc) : Z :=
  let f := Qfloor x in
  match Qcompare (x - inject_Z f) (1 # 2) with
  | Lt => f
  | Gt => f + 1
  | Eq => if Z.even f then f else f + 1
  end.

(** [.astype(bool)] *)
Definition astype_bool (z : Z) : bool := negb (Z.eqb z 0).

(** Lines 1180-1184, one binary column: round, cast to bool, then look the
    label up in [{False: feature['cats'][0], True: feature['cats'][1]}]. *)
Definition decode_binary_column (feature : pydict) (outs : list Qc)
  : result (list pyval) :=
  try! cs := dict_item feature (VStr "cats") in
  match cs with
  | OList cs =>
      try! c0 := list_item cs 0 in
      try! c1 := list_item cs 1 in
      Ok (map (fun x => if astype_bool (round_half_even x) then c1 else c0) outs)
  | OVal _ => Raise TypeError
  end.

(** [torch.argmax] of one row: the index of the first largest entry. *)
Fixpoint argmax_from (best_i : nat) (best : Qc) (i : nat) (l : list Qc) : nat :=
  match l with
  | [] => best_i
  | x :: rest =>
      if Qle_bool x best then argmax_from best_i best (S i) rest
      else argmax_from i x (S i) rest
  end.

Definition argmax (row : list Qc) : result nat :=
  match row with
  | [] => Raise IndexError
  | x :: rest => Ok (argmax_from 0 x 1 rest)
  end.

(** Lines 1188-1199, one row of one categorical column: the arg-max leaves
    the last logit out when the feature has a category, and the code is
    looked up in [feature['cats'] + ["_other"]]. *)
Definition decode_categorical_code (feature : categorical_feature) (row : list Qc)
  : result nat :=
  if Nat.ltb 0 (length (cats feature)) then argmax (removelast row)
  else argmax row.

Definition decode_categorical_row (feature : categorical_feature) (row : list Qc)
  : result string :=
  try! code := decode_categorical_code feature row in
  list_item (cats feature ++ [other]) code.

(** The whole column: one label per row. *)
Fixpoint decode_categorical_column (feature : categorical_feature)
  (logits : list (list Qc)) : result (list string) :=
  match logits with
  | [] => Ok []
  | row :: rest =>
      try! label := decode_categorical_row feature row in
      try! labels := decode_categorical_column feature rest in
      Ok (label :: labels)
  end.

End Decode.
Export Decode.

(** ** Loss composition *)

Module LossComposition.

(** A two-dimensional tensor of per-cell losses of shape
    [(length rows, ncols)]. *)
Record tensor2 : Type := {
  ncols : nat;
  rows : list (list fl)
}.

(** Every row has [ncols] entries. *)
Definition well_shaped (t : tensor2) : Prop :=
  Forall (fun r => length r = ncols t) (rows t).

(** Column [j] of a tensor. *)
Definition column_of (t : tensor2) (j : nat) : list fl :=
  map (fun r => nth j r NaN) (rows t).

(** [t.mean(dim=0)]: one mean per column. *)
Definition mean_dim0 (t : tensor2) : list fl :=
  map (fun j => mean1 (column_of t j)) (seq 0 (ncols t)).

(** [t.mean()]: the mean of all cells. *)
Definition mean_all (t : tensor2) : fl := mean1 (concat (rows t)).

(** What the logger is handed at a step. *)
Inductive log_step : Type :=
| TrainingStep (losses : list fl)
| IdValStep (losses : list fl)
| ValStep (losses : list fl).

Section Heads.
(** The model's categorical outputs and targets, and the three torch loss
    modules built with [reduction='none']. *)
Context {CatOut CatTarget : Type}.
Variable mse bce : tensor2 -> tensor2 -> tensor2.
Variable cce : CatOut -> CatTarget -> list fl.

(** The loop over [enumerate(self.categorical_fts)]: appends each column's
    mean cross-entropy to [cce_loss] and to [net_loss]. *)
Fixpoint cce_loop (idx : list nat) (cat : list CatOut) (cat_target : list CatTarget)
  (cce_loss net_loss : list fl) : result (list fl * list fl) :=
  match idx with
  | [] => Ok (cce_loss, net_loss)
  | i :: rest =>
      try! out := list_item cat i in
      try! tgt := list_item cat_target i in
      let loss := mean1 (cce out tgt) in
      cce_loop rest cat cat_target (cce_loss ++ [loss]) (net_loss ++ [loss])
  end.

(** [self.logger.training_step(net_loss)] and its two siblings: the step the
    logger is handed.  A logger that is still the name given to [__init__]
    (a [str]) or [None] has no such method. *)
Definition logger_step (l : Logger) (step : log_step) : result (option log_step) :=
  match l with
  | NoLogger | LoggerName _ => Raise AttributeError
  | BasicLogger _ | IpynbLogger _ | TensorboardXLogger _ => Ok (Some step)
  end.

(** [_compute_loss_from_targets]; [training] is [self.training].  Returns
    [(mse_loss, bce_loss, cce_loss, net_loss)] and what was logged. *)
Definition _compute_loss_from_targets (self : AutoEncoder) (training : bool)
  (num bin : tensor2) (cat : list CatOut)
  (num_target bin_target : tensor2) (cat_target : list CatTarget)
  (should_log _id : bool)
  : result (fl * fl * list fl * fl * option log_step) :=
  let should_log :=
    if should_log then
      match logger self with NoLogger => false | _ => true end
    else should_log in
  let net_loss := [] in
  let mse_loss := mse num num_target in
  let net_loss := net_loss ++ mean_dim0 mse_loss in
  let mse_loss := mean_all mse_loss in
  let bce_loss := bce bin bin_target in
  let net_loss := net_loss ++ mean_dim0 bce_loss in
  let bce_loss := mean_all bce_loss in
  try! r := cce_loop (seq 0 (length (categorical_fts self))) cat cat_target [] net_loss in
  let cce_loss := fst r in
  let net_loss := snd r in
  try! logged :=
    if should_log then
      if training then logger_step (logger self) (TrainingStep net_loss)
      else if _id then logger_step (logger self) (IdValStep net_loss)
      else logger_step (logger self) (ValStep net_loss)
    else Ok None in
  let net_loss := mean1 net_loss in
  Ok (mse_loss, bce_loss, cce_loss, net_loss, logged).
End Heads.

(** [_do_backward]: the scalar [loss_fn] on which [backward()] is called. *)
Definition _do_backward (mse bce : fl) (cce : list fl) : fl :=
  let loss_fn := fadd mse bce in
  fold_left (fun loss_fn ls => fadd loss_fn ls) cce loss_fn.

End LossComposition.
Export LossComposition.

(** ** Training orchestrator *)

Module Trainer.

(** [_build_optimizer] *)
Definition _build_optimizer : M unit :=
  run! self := get_self in
  if String.eqb (optimizer self) "adam" then modify (set_optim (Some Adam))
  else if String.eqb (optimizer self) "sgd" then modify (set_optim (Some SGD))
  else raise ValueError.

(** [_build_logger] *)
Definition _build_logger : M unit :=
  run! self := get_self in
  let cat_names := OD.keys (categorical_fts self) in
  match bin_names self with
  | None => raise TypeError
  | Some bin_names =>
      let fts := num_names self ++ bin_names ++ cat_names in
      match logger self with
      | LoggerName "basic" => modify (set_logger (BasicLogger fts))
      | LoggerName "ipynb" => modify (set_logger (IpynbLogger fts))
      | LoggerName "tensorboard" => modify (set_logger (TensorboardXLogger fts))
      | _ => ret tt
      end
  end.

(** [_build_model] *)
Definition _build_model (df : option DataFrame) (rank : option Z) : M unit :=
  run! _ := _init_features df in
  run! _ := emit EvModelBuild in
  run! self := get_self in
  run! _ :=
    if distributed_training self then
      match rank with
      | None => raise ValueError
      | Some _ => ret tt
      end
    else ret tt in
  run! _ := _build_optimizer in
  run! self := get_self in
  run! _ :=
    match lr_decay self with
    | DecayNone => ret tt
    | DecayRate gamma | DecayScheduler gamma =>
        modify (set_lr_decay (DecayScheduler gamma))
    end in
  _build_logger.

(** The locals of the early-stopping part of [_fit_data]. *)
Record es_state : Type := {
  count_es : Z;
  last_val_loss : vloss;
  should_early_stop : bool
}.

Definition es_init : es_state :=
  {| count_es := 0; last_val_loss := Inf; should_early_stop := false |}.

(** Python truth value of [self.patience] ([None] or an [int]). *)
Definition truthy (patience : option Z) : bool :=
  match patience with
  | Some p => negb (Z.eqb p 0)
  | None => false
  end.

(** Lines 804-816: the update after [curr_val_loss] was measured. *)
Definition early_stopping_update (patience : option Z) (curr_val_loss : vloss)
  (st : es_state) : es_state :=
  match patience with
  | Some p =>
      if Z.eqb p 0 then st
      else
        let st :=
          if gt curr_val_loss (last_val_loss st) then
            let count := count_es st + 1 in
            {| count_es := count;
               last_val_loss := last_val_loss st;
               should_early_stop :=
                 if Z.leb p count then true else should_early_stop st |}
          else
            {| count_es := 0;
               last_val_loss := last_val_loss st;
               should_early_stop := should_early_stop st |} in
        {| count_es := count_es st;
           last_val_loss := curr_val_loss;
           should_early_stop := should_early_stop st |}
  | None => st
  end.

Inductive train_data_t : Type :=
| TrainDataFrame (df : DataFrame)
| TrainDataLoader
| TrainDataset
| TrainOther.

Inductive val_data_t : Type :=
| ValDataFrame (df : DataFrame)
| ValDataset.

Section Collaborators.
(** [validate epoch] is what [_validate_dataset] returns after the batches
    of [epoch] were trained on; [all_gather0 epoch flag] is entry 0 of the
    list [all_gather_object] fills when this process contributes [flag]. *)
Variable validate : nat -> vloss.
Variable all_gather0 : nat -> bool -> bool.

(** The [for epoch in range(epochs)] loop, with [todo] epochs left.  It
    returns the locals at loop exit and how many epochs were run.
    [self.logger.end_epoch()] is not guarded: a logger that [_build_logger]
    did not replace (the name of an unknown logger, or [None]) has no such
    method. *)
Fixpoint epoch_loop (todo : nat) (epoch : nat) (is_main_process : bool)
  (should_run_validation : bool) (st : es_state) : M (es_state * nat) :=
  match todo with
  | O => ret (st, epoch)
  | S todo' =>
      run! _ := emit (EvTrainEpoch epoch) in
      run! self := get_self in
      run! _ :=
        match lr_decay self with
        | DecayNone => ret tt
        | _ => emit (EvLrDecayStep epoch)
        end in
      run! st :=
        if is_main_process && should_run_validation then
          run! _ := emit (EvValidate epoch) in
          ret (early_stopping_update (patience self) (validate epoch) st)
        else ret st in
      run! _ :=
        match logger self with
        | NoLogger | LoggerName _ => raise AttributeError
        | BasicLogger _ | IpynbLogger _ | TensorboardXLogger _ =>
            emit (EvEndEpoch epoch)
        end in
      let should_early_stop_synced :=
        if distributed_training self
        then all_gather0 epoch (should_early_stop st)
        else should_early_stop st in
      if should_early_stop_synced then ret (st, S epoch)
      else epoch_loop todo' (S epoch) is_main_process should_run_validation st
  end.

(** [_fit_data] *)
Definition _fit_data (train_data : train_data_t) (rank : Z) (world_size : Z)
  (epochs : Z) (val_data : option val_data_t)
  (run_validation use_val_for_loss_stats : bool) : M (es_state * nat) :=
  run! self := get_self in
  let is_main_process := Z.eqb rank 0 in
  let should_run_validation :=
    run_validation && match val_data with Some _ => true | None => false end in
  run! _ :=
    if truthy (patience self) && negb should_run_validation
    then emit EvWarning else ret tt in
  run! _ :=
    if is_main_process && should_run_validation
    then emit EvBaseline else ret tt in
  run! r := epoch_loop (Z.to_nat epochs) 0 is_main_process should_run_validation es_init in
  run! _ := if is_main_process then emit EvPopulateLossStats else ret tt in
  ret r.

(** The arguments of [fit]. *)
Record fit_args : Type := {
  train_data : train_data_t;
  epochs : Z;
  val_data : option val_data_t;
  run_validation : bool;
  use_val_for_loss_stats : bool;
  rank : option Z;
  world_size : option Z
}.

Definition is_none {A} (o : option A) : bool :=
  match o with None => true | Some _ => false end.

(** [fit] *)
Definition fit (a : fit_args) : M (es_state * nat) :=
  run! _ :=
    match train_data a with
    | TrainOther => raise TypeError
    | _ => ret tt
    end in
  run! self := get_self in
  run! _ :=
    if distributed_training self && (is_none (rank a) || is_none (world_size a))
    then raise ValueError else ret tt in
  run! _ :=
    if negb (distributed_training self)
       && (negb (is_none (rank a)) || negb (is_none (world_size a)))
    then raise ValueError else ret tt in
  run! _ :=
    if run_validation a && is_none (val_data a)
    then raise ValueError else ret tt in
  run! _ :=
    if use_val_for_loss_stats a && is_none (val_data a)
    then raise ValueError else ret tt in
  let train_df :=
    match train_data a with
    | TrainDataFrame df => Some df
    | _ => None
    end in
  let train_data' :=
    match train_data a with
    | TrainDataFrame _ => TrainDataset
    | d => d
    end in
  let val_data' :=
    match val_data a with
    | Some (ValDataFrame _) => Some ValDataset
    | d => d
    end in
  let rank' := if distributed_training self then rank a else Some 0 in
  let world_size' := if distributed_training self then world_size a else Some 1 in
  run! _ :=
    match optim self with
    | None => _build_model train_df rank'
    | Some _ => ret tt
    end in
  match rank', world_size' with
  | Some r, Some ws =>
      _fit_data train_data' r ws (epochs a) val_data'
                (run_validation a) (use_val_for_loss_stats a)
  | _, _ => raise TypeError
  end.
End Collaborators.

End Trainer.
Export Trainer.

(** ** Anomaly scorer ([_get_anomaly_score_losses]) *)

Module Scorer.

(** [l[start:stop]] for non-negative bounds, as [df.iloc[start:stop]] on the
    row axis. *)
Definition iloc {A} (l : list A) (start stop : Z) : list A :=
  firstn (Z.to_nat (stop - start)) (skipn (Z.to_nat start) l).

(** [torch.cat(tensors, dim=0)]: an empty list of tensors is refused. *)
Definition torch_cat0 {A} (slices : list (list A)) : result (list A) :=
  match slices with
  | [] => Raise RuntimeError
  | _ => Ok (concat slices)
  end.

(** [n_batches] of lines 1213-1215. *)
Definition n_batches (len batch_size : Z) : Z :=
  let n := len / batch_size in
  if Z.ltb 0 (len mod batch_size) then n + 1 else n.

Section Pipeline.
(** The row type of the input frame, and the stages a slice goes through:
    [prepare_df], [compute_targets], [build_input_tensor], the model, and
    the three per-cell losses.  A loss tensor is a list of rows. *)
Context {Row Prepared Targets Input Output : Type}.
Variable prepare_df : AutoEncoder -> list Row -> Prepared.
Variable compute_targets : AutoEncoder -> Prepared -> Targets.
Variable build_input_tensor : AutoEncoder -> Prepared -> Input.
Variable model : Input -> Output.
Variable mse_rows bce_rows : Output -> Targets -> list (list fl).
(** [cce_column i out targets]: the per-row cross-entropy of categorical
    feature [i], a vector with one entry per row. *)
Variable cce_column : nat -> Output -> Targets -> list fl.

(** The slices [df.iloc[start:stop]] of the batch loop. *)
Definition score_slices (self : AutoEncoder) (df : list Row) : list (list Row) :=
  let len := Z.of_nat (length df) in
  map (fun i =>
         let start := Z.of_nat i * batch_size self in
         let stop := (Z.of_nat i + 1) * batch_size self in
         iloc df start stop)
      (seq 0 (Z.to_nat (n_batches len (batch_size self)))).

(** [torch.cat(columns, dim=1)] of column vectors reshaped to [(-1, 1)]. *)
Fixpoint cat_columns (columns : list (list fl)) : list (list fl) :=
  match columns with
  | [] => []
  | [c] => map (fun x => [x]) c
  | c :: rest => map (fun p => fst p :: snd p) (combine c (cat_columns rest))
  end.

(** What the model returns for a slice and the targets it is compared with:
    the slice goes through [prepare_df] and [build_input_tensor] as it is. *)
Definition slice_output (self : AutoEncoder) (df_slice : list Row) : Output :=
  model (build_input_tensor self (prepare_df self df_slice)).
Definition slice_targets (self : AutoEncoder) (df_slice : list Row) : Targets :=
  compute_targets self (prepare_df self df_slice).

(** The body of the batch loop for one slice. *)
Definition score_slice (self : AutoEncoder) (df_slice : list Row)
  : result (list (list fl) * list (list fl) * list (list fl)) :=
  let data_slice := prepare_df self df_slice in
  let targets := compute_targets self data_slice in
  let input_slice := build_input_tensor self data_slice in
  let out := model input_slice in
  let mse_loss_slice := mse_rows out targets in
  let bce_loss_slice := bce_rows out targets in
  let cce_loss_slice_of_each_feat :=
    map (fun i => cce_column i out targets)
        (seq 0 (length (categorical_fts self))) in
  match cce_loss_slice_of_each_feat with
  | [] => Raise RuntimeError
  | _ => Ok (mse_loss_slice, bce_loss_slice, cat_columns cce_loss_slice_of_each_feat)
  end.

Fixpoint score_all (self : AutoEncoder) (slices : list (list Row))
  : result (list (list (list fl)) * list (list (list fl)) * list (list (list fl))) :=
  match slices with
  | [] => Ok ([], [], [])
  | s :: rest =>
      try! r := score_slice self s in
      try! rs := score_all self rest in
      Ok (fst (fst r) :: fst (fst rs), snd (fst r) :: snd (fst rs), snd r :: snd rs)
  end.

(** [_get_anomaly_score_losses] *)
Definition _get_anomaly_score_losses (self : AutoEncoder) (df : list Row)
  : result (list (list fl) * list (list fl) * list (list fl)) :=
  if Z.eqb (batch_size self) 0 then Raise ZeroDivisionError
  else
    try! r := score_all self (score_slices self df) in
    try! mse_loss := torch_cat0 (fst (fst r)) in
    try! bce_loss := torch_cat0 (snd (fst r)) in
    try! cce_loss := torch_cat0 (snd r) in
    Ok (mse_loss, bce_loss, cce_loss).
End Pipeline.

(** [ceil(len / size)] for a positive [size]. *)
Definition ceil_div (len size : Z) : Z := (len + size - 1) / size.

End Scorer.
Export Scorer.

(** ** Vocabulary of the statements *)

Module Spec.

(** [steps P w w']: going from [w] to [w'] left the object alone and only
    appended events satisfying [P]. *)
Definition steps (P : event -> Prop) (w w' : world) : Prop :=
  obj w' = obj w /\ exists evs, trace w' = trace w ++ evs /\ Forall P evs.

(** The logger is one of the objects [_build_logger] constructs, not the name
    or the [None] given to [__init__]. *)
Definition logger_built (self : AutoEncoder) : Prop :=
  match logger self with
  | BasicLogger _ | IpynbLogger _ | TensorboardXLogger _ => True
  | NoLogger | LoggerName _ => False
  end.

(** An event other than the call to [self.model.build]. *)
Definition not_build (ev : event) : Prop := ev <> EvModelBuild.


(** *** The loss aggregation scenario

    Synthetic per-cell losses of one row: [0.1] and [0.3] for two numeric
    columns, [0.2] for one binary column, [0.4] for one categorical column. *)
Definition scenario_mse (_ _ : tensor2) : tensor2 :=
  {| ncols := 2; rows := [[Some (Q2Qc (1 # 10)); Some (Q2Qc (3 # 10))]] |}.
Definition scenario_bce (_ _ : tensor2) : tensor2 :=
  {| ncols := 1; rows := [[Some (Q2Qc (2 # 10))]] |}.
Definition scenario_cce (_ _ : unit) : list fl := [Some (Q2Qc (4 # 10))].
Definition empty_tensor : tensor2 := {| ncols := 0; rows := [] |}.

(** *** Early stopping, in the words of its description

    [validate k] is the validation loss measured after epoch [k] (epochs are
    counted from 0). *)

(** The loss an epoch's validation loss is compared with: the previous
    epoch's, or [inf] for the first epoch. *)
Definition previous_loss (validate : nat -> vloss) (epoch : nat) : vloss :=
  match epoch with
  | O => Inf
  | S k => validate k
  end.

(** The validation loss of [epoch] is strictly greater than the previous
    one. *)
Definition rose (validate : nat -> vloss) (epoch : nat) : bool :=
  gt (validate epoch) (previous_loss validate epoch).

(** The early-stop counter after [epoch]: one more than after the previous
    epoch when the loss rose, zero otherwise. *)
Fixpoint counter_after (validate : nat -> vloss) (epoch : nat) : Z :=
  match epoch with
  | O => if rose validate 0 then 1 else 0
  | S k => if rose validate (S k) then counter_after validate k + 1 else 0
  end.

(** The counter before [epoch] starts. *)
Definition counter_before (validate : nat -> vloss) (epoch : nat) : Z :=
  match epoch with
  | O => 0
  | S k => counter_after validate k
  end.



(** A strictly increasing sequence of validation losses: [1, 2, 3, ...]. *)
Definition rising_losses (epoch : nat) : vloss :=
  Loss (Some (Q2Qc (inject_Z (Z.of_nat (S epoch))))).

(** Entry [j] of a row of logits. *)
Definition qnth (row : list Qc) (j : nat) : Qc := nth j row (Q2Qc 0).

(** The float [1.0] or [0.0] a binary target holds. *)
Definition float_of_bool (b : bool) : Qc := Q2Qc (inject_Z (if b then 1 else 0)).

(** A three-column frame and two [fit] calls used to exercise the
    statements. *)
Definition sample_df : DataFrame :=
  [("x", NumCol [Some (Q2Qc 1); Some (Q2Qc 3)]);
   ("flag", BoolCol [true; false]);
   ("kind", ObjCol [Some "a"; Some "a"])].

(** A built object with one categorical feature and small batches. *)
Definition small_batch_autoencoder : AutoEncoder := {|
  numeric_fts := [];
  binary_fts := [];
  categorical_fts := [("kind", {| cats := ["a"] |})];
  distributed_training := false;
  optimizer := "adam";
  optim := Some Adam;
  lr_decay := DecayNone;
  min_cats := 10;
  preset_cats := None;
  preset_numerical_scaler_params := None;
  swap_p := Q2Qc (15 # 100);
  batch_size := 2;
  eval_batch_size := 8;
  num_names := [];
  bin_names := Some [];
  logger := BasicLogger ["kind"];
  scaler_arg := ScalerStr "standard";
  patience := Some 5;
  loss_scaler_str := Some "standard";
  loss_scaler := StandardScaler
|}.

(** An object column with one frequent and one rare value. *)
Definition sample_kinds : list (option string) :=
  repeat (Some "a") 10 ++ [Some "b"; None].

Definition sample_fit (df : DataFrame) : fit_args :=
  {| train_data := TrainDataFrame df; epochs := 2; val_data := None;
     run_validation := false; use_val_for_loss_stats := false;
     rank := None; world_size := None |}.

End Spec.
Export Spec.


(** ** Baseline performance ([_ohe], [_compute_batch_baseline_performance],
       [_compute_baseline_performance_from_dataset], [_validate_dataset]) *)

Module Baseline.

(** [row[y] = 1] as [scatter_] does it: the index must be inside the row. *)
Definition scatter_one (row : list Qc) (y : Z) : result (list Qc) :=
  if Z.leb 0 y && Z.ltb y (Z.of_nat (length row))
  then Ok (<[Z.to_nat y := Q2Qc 1]> row)
  else Raise RuntimeError.

(** [self.scatter_(1, index, 1)] with [index] of shape [(n, 1)]: row [i] of
    [self] gets a 1 at column [index[i]]; the index may not have more rows
    than [self]. *)
Fixpoint scatter_ (self : list (list Qc)) (index : list Z) : result (list (list Qc)) :=
  match index, self with
  | [], _ => Ok self
  | _ :: _, [] => Raise RuntimeError
  | y :: ys, row :: rest =>
      try! row' := scatter_one row y in
      try! rest' := scatter_ rest ys in
      Ok (row' :: rest')
  end.

(** [_ohe]: a zeroed [(len(input_vector), dim)] tensor with a 1 scattered
    into each row. *)
Definition _ohe (input_vector : list Z) (dim : nat) : result (list (list Qc)) :=
  let batch_size := length input_vector in
  let nb_digits := dim in
  let y_onehot := repeat (repeat (Q2Qc 0) nb_digits) batch_size in
  scatter_ y_onehot input_vector.

(** [x == q] on a float cell. *)
Definition cell_is (x : fl) (q : Qc) : bool :=
  match x with
  | Some a => Qeq_bool a q
  | None => false
  end.

(** Lines 909-910 on one cell: [x += (x == 0) * 0.05] and then
    [x -= (x == 1) * 0.05]. *)
Definition smooth_cell (x : fl) : fl :=
  let x := fadd x (Some (if cell_is x (Q2Qc 0) then Q2Qc (5 # 100) else Q2Qc 0)) in
  fadd x (Some (if cell_is x (Q2Qc 1) then (- Q2Qc (5 # 100))%Qc else Q2Qc 0)).

(** The two in-place updates of [bin_swapped]. *)
Definition smooth_binary (bin_swapped : tensor2) : tensor2 :=
  {| ncols := ncols bin_swapped;
     rows := map (map smooth_cell) (rows bin_swapped) |}.

(** The loop over [zip(cat_swapped, self.categorical_fts.values())]: each
    code vector becomes [_ohe(cd, len(cats) + 1) * 5]. *)
Fixpoint baseline_logits (cat_swapped : list (list Z))
  (fts : list (string * categorical_feature)) : result (list (list (list Qc))) :=
  match cat_swapped, fts with
  | cd :: cds, (_, feature) :: fts' =>
      let dim := (length (cats feature) + 1)%nat in
      try! cd_ohe := _ohe cd dim in
      try! rest := baseline_logits cds fts' in
      Ok (map (map (fun x => (x * Q2Qc 5)%Qc)) cd_ohe :: rest)
  | _, _ => Ok []
  end.

(** A batch as [preprocess_validation_data] makes it, without the two input
    tensors. *)
Record val_batch : Type := {
  size : Z;
  num_swapped : tensor2;
  bin_swapped : tensor2;
  cat_swapped : list (list Z);
  num_target : tensor2;
  bin_target : tensor2;
  cat_target : list (list Z)
}.

(** A numpy float with its infinities, as a division by zero yields them. *)
Inductive npfloat : Type :=
| NpFin (x : Qc)
| NpPosInf
| NpNegInf
| NpNaN.

(** [x / n] for a numpy float [x] and a Python [int] [n]: no exception on a
    zero [n]. *)
Definition np_div (x : fl) (n : Z) : npfloat :=
  match x with
  | None => NpNaN
  | Some q =>
      if Z.eqb n 0 then
        match Qcompare q 0 with
        | Eq => NpNaN
        | Gt => NpPosInf
        | Lt => NpNegInf
        end
      else NpFin (q / Q2Qc (inject_Z n))%Qc
  end.

Section Losses.
(** The three torch losses with [reduction='none']; the categorical one
    takes a matrix of logits and a vector of codes. *)
Variable mse bce : tensor2 -> tensor2 -> tensor2.
Variable cce : list (list Qc) -> list Z -> list fl.

(** [_compute_batch_baseline_performance]: the net loss, and [bin_swapped]
    as the in-place updates leave it. *)
Definition _compute_batch_baseline_performance (self : AutoEncoder) (b : val_batch)
  : result (fl * tensor2) :=
  let bin_swapped := smooth_binary (bin_swapped b) in
  try! codes_swapped_ohe := baseline_logits (cat_swapped b) (categorical_fts self) in
  try! r := _compute_loss_from_targets mse bce cce self false
              (num_swapped b) bin_swapped codes_swapped_ohe
              (num_target b) (bin_target b) (cat_target b) false false in
  Ok (snd (fst r), bin_swapped).

(** The loop of [_compute_baseline_performance_from_dataset]. *)
Fixpoint baseline_loop (self : AutoEncoder) (val_dataset : list val_batch)
  (loss_sum : fl) (sample_count : Z) : result (fl * Z) :=
  match val_dataset with
  | [] => Ok (loss_sum, sample_count)
  | data :: rest =>
      let curr_batch_size := size data in
      try! r := _compute_batch_baseline_performance self data in
      baseline_loop self rest (fadd loss_sum (fst r)) (sample_count + curr_batch_size)
  end.

(** [_compute_baseline_performance_from_dataset]: without a batch both
    [loss_sum] and [sample_count] are still the [int] 0 and the division
    raises; after a batch [loss_sum] is a numpy float. *)
Definition _compute_baseline_performance_from_dataset (self : AutoEncoder)
  (val_dataset : list val_batch) : result npfloat :=
  try! r := baseline_loop self val_dataset (Some (Q2Qc 0)) 0 in
  match val_dataset with
  | [] => Raise ZeroDivisionError
  | _ => Ok (np_div (fst r) (snd r))
  end.
End Losses.


End Baseline.

(** ** Scores and per-feature losses ([get_anomaly_score],
       [_get_batch_feature_losses], [_get_feature_losses_from_dataset],
       the scaler tag of [get_results]) *)

Module Results.

(** [str(x)] inside the f-string for a loss scaler name. *)
Definition str_of_name (name : option string) : string :=
  match name with
  | Some s => s
  | None => "None"
  end.

(** The value of the [z_loss_scaler_type] column (lines 1135-1142 and
    1316-1323). *)
Definition output_scaled_loss_str (loss_scaler_str : option string) : string :=
  match loss_scaler_str with
  | Some "standard" => "z"
  | Some "modified" => "modz"
  | _ => str_of_name loss_scaler_str ++ "_scaled"
  end.

(** [torch.cat([a, b], dim=1)] on tensors given as lists of rows: the row
    counts must agree. *)
Fixpoint cat_dim1 (a b : list (list fl)) : result (list (list fl)) :=
  match a, b with
  | [], [] => Ok []
  | r :: a', s :: b' =>
      try! rest := cat_dim1 a' b' in
      Ok ((r ++ s) :: rest)
  | _, _ => Raise RuntimeError
  end.

Section Score.
Context {Row Prepared Targets Input Output : Type}.
Variable prepare_df : AutoEncoder -> list Row -> Prepared.
Variable compute_targets : AutoEncoder -> Prepared -> Targets.
Variable build_input_tensor : AutoEncoder -> Prepared -> Input.
Variable model : Input -> Output.
Variable mse_rows bce_rows : Output -> Targets -> list (list fl).
Variable cce_column : nat -> Output -> Targets -> list fl.

(** [get_anomaly_score]: the mean, per row, of the row's losses of all
    features. *)
Definition get_anomaly_score (self : AutoEncoder) (df : list Row) : result (list fl) :=
  try! r := _get_anomaly_score_losses prepare_df compute_targets build_input_tensor
              model mse_rows bce_rows cce_column self df in
  let mse := fst (fst r) in
  let bce := snd (fst r) in
  let cce := snd r in
  try! mse_bce := cat_dim1 mse bce in
  try! combined_loss := cat_dim1 mse_bce cce in
  Ok (map mean1 combined_loss).
End Score.

(** [t[:, i]] *)
Definition take_column (t : tensor2) (i : nat) : result (list fl) :=
  if Nat.ltb i (ncols t) then Ok (column_of t i) else Raise IndexError.

(** [for i, ft in enumerate(names): d[ft] = t[:, i]], from index [i] on. *)
Fixpoint assign_columns (d : list (string * list fl)) (names : list string)
  (t : tensor2) (i : nat) : result (list (string * list fl)) :=
  match names with
  | [] => Ok d
  | ft :: rest =>
      try! col := take_column t i in
      assign_columns (OD.set d ft col) rest t (S i)
  end.

Section FeatureLosses.
Context {Input CatOut CatTarget : Type}.
Variable model : Input -> tensor2 * tensor2 * list CatOut.
Variable mse bce : tensor2 -> tensor2 -> tensor2.
Variable cce : CatOut -> CatTarget -> list fl.

(** The last loop of [_get_batch_feature_losses], from index [i] on. *)
Fixpoint assign_cce (d : list (string * list fl)) (names : list string)
  (cat : list CatOut) (cat_target : list CatTarget) (i : nat)
  : result (list (string * list fl)) :=
  match names with
  | [] => Ok d
  | ft :: rest =>
      try! out := list_item cat i in
      try! tgt := list_item cat_target i in
      let loss := cce out tgt in
      assign_cce (OD.set d ft loss) rest cat cat_target (S i)
  end.

(** [_get_batch_feature_losses] *)
Definition _get_batch_feature_losses (self : AutoEncoder) (input_original : Input)
  (num_target bin_target : tensor2) (cat_target : list CatTarget)
  : result (list (string * list fl)) :=
  let batch_feature_losses := [] in
  let num := fst (fst (model input_original)) in
  let bin := snd (fst (model input_original)) in
  let cat := snd (model input_original) in
  let mse_loss := mse num num_target in
  try! batch_feature_losses :=
    assign_columns batch_feature_losses (OD.keys (numeric_fts self)) mse_loss 0 in
  let bce_loss := bce bin bin_target in
  try! batch_feature_losses :=
    assign_columns batch_feature_losses (OD.keys (binary_fts self)) bce_loss 0 in
  assign_cce batch_feature_losses (OD.keys (categorical_fts self)) cat cat_target 0.

(** [feature_losses[ft].append(loss_l)] on a [defaultdict(list)]. *)
Definition append_loss (feature_losses : list (string * list (list fl)))
  (item : string * list fl) : list (string * list (list fl)) :=
  match OD.get feature_losses (fst item) with
  | Some tensor_l => OD.set feature_losses (fst item) (tensor_l ++ [snd item])
  | None => OD.set feature_losses (fst item) [snd item]
  end.

(** The loop over the dataset of [_get_feature_losses_from_dataset]; a batch
    is [(input_original, num_target, bin_target, cat_target)]. *)
Fixpoint feature_losses_loop (self : AutoEncoder)
  (dataset : list (Input * tensor2 * tensor2 * list CatTarget))
  (feature_losses : list (string * list (list fl)))
  : result (list (string * list (list fl))) :=
  match dataset with
  | [] => Ok feature_losses
  | data :: rest =>
      try! batch_feature_losses :=
        _get_batch_feature_losses self (fst (fst (fst data))) (snd (fst (fst data)))
                                  (snd (fst data)) (snd data) in
      feature_losses_loop self rest
        (fold_left append_loss batch_feature_losses feature_losses)
  end.

(** The dict comprehension [{ft: torch.cat(tensor_l, dim=0) ...}]. *)
Fixpoint cat_all (feature_losses : list (string * list (list fl)))
  : result (list (string * list fl)) :=
  match feature_losses with
  | [] => Ok []
  | (ft, tensor_l) :: rest =>
      try! t := torch_cat0 tensor_l in
      try! ts := cat_all rest in
      Ok ((ft, t) :: ts)
  end.

(** [_get_feature_losses_from_dataset] *)
Definition _get_feature_losses_from_dataset (self : AutoEncoder)
  (dataset : list (Input * tensor2 * tensor2 * list CatTarget))
  : result (list (string * list fl)) :=
  try! feature_losses := feature_losses_loop self dataset [] in
  cat_all feature_losses.
End FeatureLosses.

End Results.

(** ** More vocabulary *)

Module Spec2.

(** A method leaves an attribute as it found it, whether it returns or
    raises. *)
Definition preserves {A B} (f : AutoEncoder -> B) (m : M A) : Prop :=
  forall w, f (obj (snd (m w))) = f (obj w).

(** A method logs nothing and calls no collaborator, whether it returns or
    raises. *)
Definition silent {A} (m : M A) : Prop :=
  forall w, trace (snd (m w)) = trace w.

(** An object constructed with a complete preset: one categorical feature,
    one numeric feature with a fitted standard scaler, no binary column. *)
Definition preset_params : scaler_params :=
  {| scaler_type := Some (Some "standard");
     scaler_attr_dict := [("mean", Some (Q2Qc 2)); ("std", Some (Q2Qc 1))];
     sp_mean := Some (Q2Qc 2);
     sp_std := Some (Q2Qc 1) |}.

Definition preset_autoencoder : AutoEncoder := {|
  numeric_fts := [];
  binary_fts := [];
  categorical_fts := [];
  distributed_training := false;
  optimizer := "adam";
  optim := None;
  lr_decay := DecayNone;
  min_cats := 10;
  preset_cats := Some [("kind", {| cats := ["a"; "b"] |})];
  preset_numerical_scaler_params := Some [("x", preset_params)];
  swap_p := Q2Qc (15 # 100);
  batch_size := 256;
  eval_batch_size := 1024;
  num_names := [];
  bin_names := Some ["flag"];
  logger := LoggerName "basic";
  scaler_arg := ScalerStr "standard";
  patience := Some 5;
  loss_scaler_str := Some "standard";
  loss_scaler := StandardScaler
|}.

(** The same with an empty numeric preset. *)
Definition empty_numeric_preset_autoencoder : AutoEncoder := {|
  numeric_fts := [];
  binary_fts := [];
  categorical_fts := [];
  distributed_training := false;
  optimizer := "adam";
  optim := None;
  lr_decay := DecayNone;
  min_cats := 10;
  preset_cats := Some [("kind", {| cats := ["a"; "b"] |})];
  preset_numerical_scaler_params := Some [];
  swap_p := Q2Qc (15 # 100);
  batch_size := 256;
  eval_batch_size := 1024;
  num_names := [];
  bin_names := Some [];
  logger := LoggerName "basic";
  scaler_arg := ScalerStr "standard";
  patience := Some 5;
  loss_scaler_str := Some "standard";
  loss_scaler := StandardScaler
|}.

(** The default object but for an unknown [scaler] name or an unsupported
    [optimizer]. *)
Definition odd_autoencoder (scaler_name optimizer_name : string) : AutoEncoder := {|
  numeric_fts := [];
  binary_fts := [];
  categorical_fts := [];
  distributed_training := false;
  optimizer := optimizer_name;
  optim := None;
  lr_decay := DecayNone;
  min_cats := 10;
  preset_cats := None;
  preset_numerical_scaler_params := None;
  swap_p := Q2Qc (15 # 100);
  batch_size := 256;
  eval_batch_size := 1024;
  num_names := [];
  bin_names := None;
  logger := LoggerName "basic";
  scaler_arg := ScalerStr scaler_name;
  patience := Some 5;
  loss_scaler_str := Some "standard";
  loss_scaler := StandardScaler
|}.



(** What an identity-like model returns for a code: the logits
    [_ohe(code) * 5] of the baseline. *)
Definition cold : Qc := (Q2Qc 0 * Q2Qc 5)%Qc.
Definition hot : Qc := (Q2Qc 1 * Q2Qc 5)%Qc.

(** The label a cell comes back as from identity-like logits: itself when it
    is a category, the first category (or [_other] when there is none)
    otherwise. *)
Definition decoded_cell (feature : categorical_feature) (cell : option string) : string :=
  match cell with
  | Some v =>
      match index_of v (cats feature) with
      | Some _ => v
      | None => hd other (cats feature)
      end
  | None => hd other (cats feature)
  end.

(** A validation batch of two rows for the object
    [small_batch_autoencoder], and a synthetic categorical loss. *)
Definition sample_val_batch : Baseline.val_batch :=
  {| Baseline.size := 2;
     Baseline.num_swapped := empty_tensor;
     Baseline.bin_swapped :=
       {| ncols := 1; rows := [[Some (Q2Qc 0)]; [Some (Q2Qc 1)]] |};
     Baseline.cat_swapped := [[0; 1]%Z];
     Baseline.num_target := empty_tensor;
     Baseline.bin_target := {| ncols := 1; rows := [[Some (Q2Qc 0)]; [Some (Q2Qc 1)]] |};
     Baseline.cat_target := [[0; 1]%Z] |}.

Definition scenario_cce_codes (_ : list (list Qc)) (_ : list Z) : list fl :=
  [Some (Q2Qc (4 # 10))].

(** The default object after [_init_features] saw [sample_df]: one numeric,
    one binary and one categorical feature. *)
Definition sample_registry : AutoEncoder :=
  obj (snd (_init_features (Some sample_df) (fresh default_autoencoder))).

End Spec2.
Export Spec2.

(** * Properties *)

(** ** Scaler lookup *)

Lemma get_scaler_unknown (name : option string) :
  ~ In name known_scaler_names -> _get_scaler name = Raise KeyError.
Proof.
  intros Hn. unfold _get_scaler, scalers.
  assert (Hne : forall k, In k known_scaler_names -> k <> name).
  { intros k Hk ->. exact (Hn Hk). }
  rewrite !lookup_insert_ne, lookup_empty; [reflexivity | ..];
    apply Hne; simpl; auto 10.
Qed.

Lemma get_scaler_known (name : option string) :
  In name known_scaler_names -> exists c, _get_scaler name = Ok c.
Proof.
  simpl. intros [<- | [<- | [<- | [<- | [<- | []]]]]];
    eexists; vm_compute; reflexivity.
Qed.

(** C10: a scaler name outside ['standard', 'gauss_rank', 'modified', None,
    'none'] makes [_get_scaler] raise [KeyError], and so does constructing an
    [AutoEncoder] whose [loss_scaler] is such a name, whatever the other
    arguments are; ['robust'] and ['identity'] are two such names. *)
Theorem unknown_scaler_name_raises_KeyError (name : option string) (a : init_args) :
  ~ In name [Some "standard"; Some "gauss_rank"; Some "modified"; None; Some "none"] ->
  _get_scaler name = Raise KeyError /\
  (a_loss_scaler a = name -> __init__ a = Raise KeyError) /\
  ~ In (Some "robust") known_scaler_names /\
  ~ In (Some "identity") known_scaler_names.
Proof.
  intros Hn. pose proof (get_scaler_unknown name Hn) as Hk.
  split; [exact Hk | split].
  - intros Ha. unfold __init__. rewrite Ha, Hk. reflexivity.
  - split; simpl; intuition congruence.
Qed.

Lemma unknown_scaler_name_raises_KeyError_witness :
  _get_scaler (Some "robust") = Raise KeyError /\
  __init__ {| a_min_cats := 10; a_swap_p := Q2Qc (15 # 100); a_batch_size := 256;
              a_eval_batch_size := 1024; a_optimizer := "adam"; a_lr_decay := None;
              a_distributed_training := false; a_logger := Some "basic";
              a_scaler := ScalerStr "standard"; a_patience := Some 5;
              a_preset_cats := None; a_preset_numerical_scaler_params := None;
              a_binary_feature_list := None; a_loss_scaler := Some "robust" |}
  = Raise KeyError.
Proof.
  assert (Hn : ~ In (Some "robust")
                 [Some "standard"; Some "gauss_rank"; Some "modified"; None; Some "none"]).
  { simpl. intuition congruence. }
  split.
  - exact (proj1 (unknown_scaler_name_raises_KeyError (Some "robust") default_args Hn)).
  - apply (proj1 (proj2 (unknown_scaler_name_raises_KeyError (Some "robust") _ Hn))).
    reflexivity.
Defined.

Example init_identity_loss_scaler :
  forall a, a_loss_scaler a = Some "identity" -> __init__ a = Raise KeyError.
Proof.
  intros a Ha. unfold __init__. rewrite Ha.
  rewrite get_scaler_unknown; [reflexivity |]. simpl. intuition congruence.
Qed.

Example init_default_args_ok : exists self, __init__ default_args = Ok self.
Proof. eexists. vm_compute. reflexivity. Qed.

(** ** Reasoning about runs *)

Lemma steps_refl P w : steps P w w.
Proof. split; [reflexivity | exists []; split; [symmetry; apply app_nil_r | constructor]]. Qed.

Lemma steps_trans P w1 w2 w3 : steps P w1 w2 -> steps P w2 w3 -> steps P w1 w3.
Proof.
  intros [Ho1 (e1 & Ht1 & Hf1)] [Ho2 (e2 & Ht2 & Hf2)]. split.
  - congruence.
  - exists (e1 ++ e2). split.
    + rewrite Ht2, Ht1, app_assoc. reflexivity.
    + apply Forall_app; split; assumption.
Qed.

Lemma steps_emit P ev w : P ev -> steps P w (snd (emit ev w)).
Proof.
  intros Hev. split; [reflexivity |]. exists [ev]. split; [reflexivity |].
  constructor; [assumption | constructor].
Qed.

Lemma steps_bind {A B} P (m : M A) (k : A -> M B) w :
  steps P w (snd (m w)) ->
  (forall a w', m w = (Ok a, w') -> steps P w' (snd (k a w'))) ->
  steps P w (snd (bindM m k w)).
Proof.
  intros Hm Hk. unfold bindM. destruct (m w) as [[a | e] w'] eqn:E; simpl in *.
  - eapply steps_trans; [exact Hm | apply Hk; reflexivity].
  - exact Hm.
Qed.

Lemma steps_ret {A} P (a : A) w : steps P w (snd (ret a w)).
Proof. apply steps_refl. Qed.

Lemma steps_raise {A} P e w : steps P w (snd (@raise A e w)).
Proof. apply steps_refl. Qed.

Lemma steps_get_self P w : steps P w (snd (get_self w)).
Proof. apply steps_refl. Qed.

Lemma steps_bind_get_self {B} P (k : AutoEncoder -> M B) w :
  steps P w (snd (k (obj w) w)) -> steps P w (snd (bindM get_self k w)).
Proof. intros H. exact H. Qed.

Ltac steps_tac :=
  repeat first
    [ apply steps_bind_get_self
    | apply steps_bind; [| intros ? ? ?]
    | apply steps_refl
    | apply steps_ret | apply steps_raise | apply steps_get_self
    | apply steps_emit; discriminate
    | match goal with
      | |- steps _ _ (snd ((if ?c then _ else _) _)) => destruct c
      | |- steps _ _ (snd ((match ?c with _ => _ end) _)) => destruct c
      end ].

Lemma epoch_loop_steps validate all_gather0 todo :
  forall epoch is_main srv st w,
    steps not_build w (snd (epoch_loop validate all_gather0 todo epoch is_main srv st w)).
Proof.
  induction todo as [| todo IH]; intros epoch is_main srv st w; cbn [epoch_loop].
  - apply steps_ret.
  - steps_tac. apply IH.
Qed.

Lemma fit_data_steps validate all_gather0 td r ws ep vd rv uv w :
  steps not_build w (snd (_fit_data validate all_gather0 td r ws ep vd rv uv w)).
Proof.
  unfold _fit_data. steps_tac. apply epoch_loop_steps.
Qed.

Example init_default_args : __init__ default_args = Ok default_autoencoder.
Proof. vm_compute. reflexivity. Qed.

(** ** Feature initialisation without a dataframe *)

(** C4 (as the code has it): without a dataframe, [_init_features] raises
    [ValueError] as soon as one of [preset_cats], the binary column list and
    [preset_numerical_scaler_params] is missing, before anything is assigned
    or any collaborator is called. *)
Theorem init_features_without_df_raises_ValueError (w : world) :
  preset_cats (obj w) = None \/
  bin_names (obj w) = None \/
  preset_numerical_scaler_params (obj w) = None ->
  _init_features None w = (Raise ValueError, w).
Proof.
  intros H. unfold _init_features, bindM, get_self.
  destruct (preset_cats (obj w)) as [pc |];
    destruct (bin_names (obj w)) as [bn |];
    destruct (preset_numerical_scaler_params (obj w)) as [pn |];
    try reflexivity.
  destruct H as [H | [H | H]]; discriminate H.
Qed.

Lemma init_features_without_df_raises_ValueError_witness :
  _init_features None (fresh default_autoencoder)
  = (Raise ValueError, fresh default_autoencoder).
Proof.
  apply init_features_without_df_raises_ValueError. left. reflexivity.
Defined.

(** The error is never a [ConfigurationError]: on the freshly constructed
    default object, which has no presets, the exception is a [ValueError]. *)
Lemma init_features_never_ConfigurationError :
  ~ (forall w : world,
        preset_cats (obj w) = None \/
        bin_names (obj w) = None \/
        preset_numerical_scaler_params (obj w) = None ->
        fst (_init_features None w) = Raise ConfigurationError).
Proof.
  intros Hclaim.
  specialize (Hclaim (fresh default_autoencoder) (or_introl eq_refl)).
  cbv in Hclaim. discriminate Hclaim.
Qed.

(** With a complete preset the guard lets the call through. *)
Lemma init_features_guard_passes (w : world) pc bn pn :
  preset_cats (obj w) = Some pc ->
  bin_names (obj w) = Some bn ->
  preset_numerical_scaler_params (obj w) = Some pn ->
  _init_features None w
  = bindM (modify (set_categorical_fts pc))
      (fun _ => bindM (_init_numeric None) (fun _ => _init_binary None)) w.
Proof.
  intros H1 H2 H3. unfold _init_features. unfold bindM at 1. unfold get_self.
  unfold bindM at 1. rewrite H1, H2, H3. reflexivity.
Qed.

(** ** Argument checks of [fit] *)

Section FitChecks.
Variable validate : nat -> vloss.
Variable all_gather0 : nat -> bool -> bool.

(** C8: [fit] raises [TypeError] when [train_data] is not a dataframe, a
    loader or a dataset, and [ValueError] when [rank]/[world_size] do not
    fit the mode or when validation data is asked for but absent.  The
    object and the trace are then exactly as before the call: nothing was
    built and no epoch ran. *)
Theorem fit_raises_at_the_call_boundary (a : fit_args) (w : world) :
  (train_data a = TrainOther ->
     fit validate all_gather0 a w = (Raise TypeError, w)) /\
  (train_data a <> TrainOther ->
     (distributed_training (obj w) = true /\ (rank a = None \/ world_size a = None)) \/
     (distributed_training (obj w) = false /\ (rank a <> None \/ world_size a <> None)) \/
     (run_validation a = true /\ val_data a = None) \/
     (use_val_for_loss_stats a = true /\ val_data a = None) ->
     fit validate all_gather0 a w = (Raise ValueError, w)).
Proof.
  split.
  - intros Ht. unfold fit. unfold bindM at 1. rewrite Ht. reflexivity.
  - intros Ht H. unfold fit.
    unfold bindM at 1.
    destruct (train_data a) eqn:Etd; try congruence; cbn [ret];
      unfold bindM at 1; unfold get_self;
      destruct (distributed_training (obj w)) eqn:Ed;
      destruct (rank a) eqn:Er; destruct (world_size a) eqn:Ew;
      destruct (run_validation a) eqn:Erv; destruct (val_data a) eqn:Ev;
      destruct (use_val_for_loss_stats a) eqn:Eu;
      try reflexivity;
      exfalso; destruct H as [[H1 [H2 | H2]] | [[H1 [H2 | H2]] | [[H1 H2] | [H1 H2]]]];
      congruence.
Qed.
End FitChecks.

Lemma fit_raises_at_the_call_boundary_witness :
  fit (fun _ => Inf) (fun _ b => b)
      {| train_data := TrainOther; epochs := 1; val_data := None;
         run_validation := false; use_val_for_loss_stats := false;
         rank := None; world_size := None |}
      (fresh default_autoencoder)
  = (Raise TypeError, fresh default_autoencoder)
  /\
  fit (fun _ => Inf) (fun _ b => b)
      {| train_data := TrainDataset; epochs := 1; val_data := None;
         run_validation := true; use_val_for_loss_stats := false;
         rank := None; world_size := None |}
      (fresh default_autoencoder)
  = (Raise ValueError, fresh default_autoencoder).
Proof.
  split.
  - apply (proj1 (fit_raises_at_the_call_boundary _ _ _ _)). reflexivity.
  - apply (proj2 (fit_raises_at_the_call_boundary _ _ _ _)).
    + discriminate.
    + right. right. left. split; reflexivity.
Defined.

(** ** The build happens once *)

Lemma bind_ok {A B} (m : M A) (k : A -> M B) w b w' :
  bindM m k w = (Ok b, w') ->
  exists a w1, m w = (Ok a, w1) /\ k a w1 = (Ok b, w').
Proof.
  unfold bindM. destruct (m w) as [[a | e] w1]; [| discriminate].
  intros H. exists a, w1. split; [reflexivity | exact H].
Qed.

Lemma check_ok (c : bool) e w (u : unit) w1 :
  (if c then raise e else ret tt) w = (Ok u, w1) -> w1 = w.
Proof. destruct c; [discriminate |]. intros H. inversion H. reflexivity. Qed.

Lemma build_optimizer_ok w w' :
  _build_optimizer w = (Ok tt, w') ->
  optim (obj w') <> None /\ trace w' = trace w.
Proof.
  unfold _build_optimizer, bindM, get_self, modify, raise.
  destruct (String.eqb (optimizer (obj w)) "adam");
    [| destruct (String.eqb (optimizer (obj w)) "sgd")];
    intros H; inversion H; subst; simpl; split; congruence.
Qed.

Lemma build_logger_ok w w' :
  _build_logger w = (Ok tt, w') ->
  optim (obj w') = optim (obj w) /\ trace w' = trace w.
Proof.
  unfold _build_logger, bindM, get_self, modify, raise, ret.
  destruct (bin_names (obj w)); [| discriminate].
  destruct (logger (obj w)) as [| name | | |];
    try (intros H; inversion H; subst; simpl; split; reflexivity).
  repeat match goal with
         | |- context [match ?x with _ => _ end] => destruct x
         end;
    intros H; inversion H; subst; simpl; split; reflexivity.
Qed.

Lemma build_model_ok df rank w w' :
  _build_model df rank w = (Ok tt, w') ->
  optim (obj w') <> None /\ In EvModelBuild (trace w').
Proof.
  unfold _build_model. intros H.
  apply bind_ok in H as (u0 & w0 & _ & H).
  apply bind_ok in H as (u1 & w1 & E1 & H).
  assert (Hin1 : In EvModelBuild (trace w1)).
  { inversion E1; subst. cbn. apply in_or_app. right. left. reflexivity. }
  clear E1.
  apply bind_ok in H as (self & w2 & E2 & H).
  inversion E2; subst self w2; clear E2.
  apply bind_ok in H as (u3 & w3 & E3 & H).
  assert (w3 = w1).
  { destruct (distributed_training (obj w1)); [destruct rank |];
      inversion E3; reflexivity. }
  subst w3. clear E3.
  apply bind_ok in H as (u4 & w4 & E4 & H). destruct u4.
  apply build_optimizer_ok in E4 as [Ho4 Ht4].
  apply bind_ok in H as (self & w5 & E5 & H).
  inversion E5; subst self w5; clear E5.
  apply bind_ok in H as (u6 & w6 & E6 & H). destruct u0, u1, u3, u6.
  assert (Hw6 : optim (obj w6) = optim (obj w4) /\ trace w6 = trace w4).
  { destruct (lr_decay (obj w4)); inversion E6; subst; split; reflexivity. }
  destruct Hw6 as [Ho6 Ht6].
  apply build_logger_ok in H as [Ho Ht]. split.
  - rewrite Ho, Ho6. exact Ho4.
  - rewrite Ht, Ht6, Ht4. exact Hin1.
Qed.

Section FitTwice.
Variable validate : nat -> vloss.
Variable all_gather0 : nat -> bool -> bool.

End FitTwice.


Lemma fit_first_call validate all_gather0 a w r w' :
  optim (obj w) = None ->
  fit validate all_gather0 a w = (Ok r, w') ->
  optim (obj w') <> None /\ In EvModelBuild (trace w').
Proof.
  intros Ho H. unfold fit in H.
  apply bind_ok in H as (u0 & w0 & E0 & H).
  assert (w0 = w) by (destruct (train_data a); inversion E0; reflexivity).
  subst w0. clear E0.
  apply bind_ok in H as (self & w0 & E0 & H).
  inversion E0; subst self w0; clear E0.
  apply bind_ok in H as (u1 & w1 & E1 & H). apply check_ok in E1. subst w1.
  apply bind_ok in H as (u2 & w2 & E2 & H). apply check_ok in E2. subst w2.
  apply bind_ok in H as (u3 & w3 & E3 & H). apply check_ok in E3. subst w3.
  apply bind_ok in H as (u4 & w4 & E4 & H). apply check_ok in E4. subst w4.
  apply bind_ok in H as (u5 & w5 & E5 & H).
  rewrite Ho in E5. destruct u5. apply build_model_ok in E5 as [Hopt Hin].
  match type of H with
  | (match ?x with _ => _ end) _ = _ => destruct x; [| discriminate]
  end.
  match type of H with
  | (match ?x with _ => _ end) _ = _ => destruct x; [| discriminate]
  end.
  match type of H with
  | ?m w5 = _ =>
      assert (Hs : steps not_build w5 (snd (m w5))) by apply fit_data_steps
  end.
  rewrite H in Hs. cbn [snd] in Hs. destruct Hs as [Hobj (evs & Htr & _)].
  split.
  - rewrite Hobj. exact Hopt.
  - rewrite Htr. apply in_or_app. left. exact Hin.
Qed.

(** ** Binary columns *)

Lemma OD_get_set_same {V} (d : list (string * V)) k v : OD.get (OD.set d k v) k = Some v.
Proof.
  induction d as [| [k' v'] d IH]; simpl.
  - rewrite String.eqb_refl. reflexivity.
  - destruct (String.eqb k' k) eqn:E; simpl.
    + rewrite String.eqb_refl. reflexivity.
    + rewrite E. exact IH.
Qed.

Lemma OD_get_set_other {V} (d : list (string * V)) k k' v :
  k <> k' -> OD.get (OD.set d k v) k' = OD.get d k'.
Proof.
  intros Hne. induction d as [| [k0 v0] d IH]; simpl.
  - destruct (String.eqb_spec k k'); [contradiction | reflexivity].
  - destruct (String.eqb_spec k0 k) as [-> | Hk]; simpl.
    + destruct (String.eqb_spec k k'); [contradiction | reflexivity].
    + destruct (String.eqb k0 k'); [reflexivity | exact IH].
Qed.

Lemma register_binaries_other ft0 (l : list string) :
  forall w1 w',
    ~ In ft0 l ->
    for_each l (fun ft =>
      modify (fun self => set_binary_fts (OD.set (binary_fts self) ft new_binary_feature) self)) w1
    = (Ok tt, w') ->
    OD.get (binary_fts (obj w')) ft0 = OD.get (binary_fts (obj w1)) ft0.
Proof.
  induction l as [| x l IHl]; intros w1 w' Hn; cbn [for_each].
  - intros E. inversion E. reflexivity.
  - unfold bindM at 1. cbn [modify]. intros E.
    rewrite (IHl _ _ (fun H => Hn (or_intror H)) E). simpl.
    apply OD_get_set_other. intros ->. apply Hn. left. reflexivity.
Qed.

Lemma register_binaries (binaries : list string) :
  forall w, exists w',
    for_each binaries (fun ft =>
      modify (fun self => set_binary_fts (OD.set (binary_fts self) ft new_binary_feature) self)) w
    = (Ok tt, w') /\
    trace w' = trace w /\
    bin_names (obj w') = bin_names (obj w) /\
    forall ft, In ft binaries -> OD.get (binary_fts (obj w')) ft = Some new_binary_feature.
Proof.
  induction binaries as [| ft0 rest IH]; intros w; cbn [for_each].
  - exists w. repeat split; try reflexivity. intros ft [].
  - unfold bindM at 1. cbn [modify].
    match goal with
    | |- context [for_each rest ?body ?w1] => destruct (IH w1) as (w' & E & Ht & Hb & Hget)
    end.
    exists w'. rewrite E. repeat split; try assumption.
    intros ft [<- | Hin]; [| apply Hget; exact Hin].
    destruct (in_dec String.string_dec ft0 rest) as [Hin | Hnin]; [apply Hget; exact Hin |].
    rewrite (register_binaries_other ft0 rest _ _ Hnin E). simpl.
    apply OD_get_set_same.
Qed.

Lemma new_binary_feature_round_trip (b : bool) :
  prepare_binary_column new_binary_feature (BoolCol [b]) = [OVal (VBool b)] /\
  binary_target (OVal (VBool b)) = Ok (float_of_bool b) /\
  decode_binary_column new_binary_feature [float_of_bool b] = Ok [VBool (negb b)].
Proof. destruct b; repeat split; vm_compute; reflexivity. Qed.

(** C3 (what the code does): [_init_binary] registers, for every binary
    column, a feature whose encode map sends [True] to [True] and [False] to
    [False] but whose category list is [[True, False]]; decoding looks a
    rounded output [False] up at position 0 and [True] at position 1, so the
    label that comes back from an exact (identity) reconstruction is the
    opposite of the label that went in. *)
Theorem binary_decode_returns_the_opposite_label
  (df : option DataFrame) (w : world) (names : list string) :
  binary_fts (obj w) = [] ->
  bin_names (obj w) = Some names \/
  (bin_names (obj w) = None /\
   exists d, df = Some d /\ names = select_dtypes is_bool d) ->
  exists w',
    _init_binary df w = (Ok tt, w') /\
    forall ft, In ft names ->
      exists feature,
        OD.get (binary_fts (obj w')) ft = Some feature /\
        forall b : bool,
          prepare_binary_column feature (BoolCol [b]) = [OVal (VBool b)] /\
          binary_target (OVal (VBool b)) = Ok (float_of_bool b) /\
          decode_binary_column feature [float_of_bool b] = Ok [VBool (negb b)].
Proof.
  intros Hempty Hnames.
  assert (Hrun : exists w',
             _init_binary df w = (Ok tt, w') /\
             forall ft, In ft names ->
               OD.get (binary_fts (obj w')) ft = Some new_binary_feature).
  { unfold _init_binary. unfold bindM at 1. unfold get_self.
    destruct Hnames as [Hn | (Hn & d & -> & ->)]; rewrite Hn.
    - assert (Hm : forall k : M unit,
                match df, Some names with
                | None, None => raise ValueError
                | _, _ => k
                end = k) by (intros k; destruct df; reflexivity).
      rewrite Hm. unfold bindM at 1. cbn [ret]. rewrite Hempty. cbn [OD.keys map for_each].
      unfold bindM at 1. cbn [ret].
      destruct (register_binaries names w) as (w' & E & _ & _ & Hget).
      exists w'. split; assumption.
    - unfold bindM at 1. unfold bindM at 1. cbn [modify ret].
      rewrite Hempty. cbn [OD.keys map for_each]. unfold bindM at 1. cbn [ret].
      match goal with
      | |- context [for_each _ _ ?w1] =>
          destruct (register_binaries (select_dtypes is_bool d) w1) as (w' & E & _ & _ & Hget)
      end.
      exists w'. split; assumption. }
  destruct Hrun as (w' & E & Hget).
  exists w'. split; [exact E |].
  intros ft Hin. exists new_binary_feature. split; [apply Hget; exact Hin |].
  apply new_binary_feature_round_trip.
Qed.

Lemma binary_decode_returns_the_opposite_label_witness :
  exists w',
    _init_binary (Some sample_df) (fresh default_autoencoder) = (Ok tt, w') /\
    exists feature,
      OD.get (binary_fts (obj w')) "flag" = Some feature /\
      decode_binary_column feature [float_of_bool true] = Ok [VBool false].
Proof.
  destruct (binary_decode_returns_the_opposite_label
              (Some sample_df) (fresh default_autoencoder) ["flag"] eq_refl)
    as (w' & E & H).
  - right. split; [reflexivity |]. exists sample_df. split; reflexivity.
  - exists w'. split; [exact E |].
    destruct (H "flag" (or_introl eq_refl)) as (feature & Hget & Hb).
    exists feature. split; [exact Hget |].
    exact (proj2 (proj2 (Hb true))).
Defined.

(** The convention of the first loop of [_init_binary] ([cats[i]] encodes to
    [bool(i)]) is the one the decoder assumes: relabelled that way, the same
    feature round-trips. *)
Example relabel_agrees_with_decode (b : bool) :
  exists feature,
    relabel new_binary_feature = Ok feature /\
    prepare_binary_column feature (BoolCol [b]) = [OVal (VBool (negb b))] /\
    decode_binary_column feature [float_of_bool (negb b)] = Ok [VBool b].
Proof. destruct b; eexists; repeat split; vm_compute; reflexivity. Qed.

(** ** Categorical decoding *)

Lemma argmax_from_spec (l : list Qc) :
  forall (pre : list Qc) (best_i : nat) (best : Qc),
    (best_i < length pre)%nat ->
    qnth pre best_i = best ->
    (forall j, (j < length pre)%nat -> (qnth pre j <= best)%Qc) ->
    let r := argmax_from best_i best (length pre) l in
    (r < length (pre ++ l))%nat /\
    forall j, (j < length (pre ++ l))%nat -> (qnth (pre ++ l) j <= qnth (pre ++ l) r)%Qc.
Proof.
  induction l as [| x l IH]; intros pre best_i best Hlt Hb Hmax; cbn [argmax_from].
  - cbv zeta. rewrite app_nil_r. split; [exact Hlt |].
    intros j Hj. rewrite Hb. apply Hmax. exact Hj.
  - assert (Hlen : length (pre ++ [x]) = S (length pre)).
    { rewrite length_app. simpl. lia. }
    assert (Hpre : forall j, (j < length pre)%nat -> qnth (pre ++ [x]) j = qnth pre j).
    { intros j Hj. unfold qnth. apply app_nth1. exact Hj. }
    assert (Hx : qnth (pre ++ [x]) (length pre) = x).
    { unfold qnth. rewrite app_nth2 by lia. rewrite Nat.sub_diag. reflexivity. }
    replace (pre ++ x :: l) with ((pre ++ [x]) ++ l) by (rewrite <- app_assoc; reflexivity).
    destruct (Qle_bool x best) eqn:E.
    + cut (let r := argmax_from best_i best (length (pre ++ [x])) l in
           (r < length ((pre ++ [x]) ++ l))%nat /\
           forall j, (j < length ((pre ++ [x]) ++ l))%nat ->
                     (qnth ((pre ++ [x]) ++ l) j <= qnth ((pre ++ [x]) ++ l) r)%Qc).
      { rewrite Hlen. intros H. exact H. }
      apply IH.
      * lia.
      * rewrite Hpre by exact Hlt. exact Hb.
      * intros j Hj. rewrite Hlen in Hj.
        destruct (Nat.eq_dec j (length pre)) as [-> | Hne].
        -- rewrite Hx. apply Qle_bool_iff in E. exact E.
        -- rewrite Hpre by lia. apply Hmax. lia.
    + assert (Hbx : (best <= x)%Qc).
      { unfold Qcle. destruct (Qlt_le_dec best x) as [H | H].
        - apply Qlt_le_weak. exact H.
        - apply Qle_bool_iff in H. congruence. }
      cut (let r := argmax_from (length pre) x (length (pre ++ [x])) l in
           (r < length ((pre ++ [x]) ++ l))%nat /\
           forall j, (j < length ((pre ++ [x]) ++ l))%nat ->
                     (qnth ((pre ++ [x]) ++ l) j <= qnth ((pre ++ [x]) ++ l) r)%Qc).
      { rewrite Hlen. intros H. exact H. }
      apply IH.
      * lia.
      * exact Hx.
      * intros j Hj. rewrite Hlen in Hj.
        destruct (Nat.eq_dec j (length pre)) as [-> | Hne].
        -- rewrite Hx. apply Qcle_refl.
        -- rewrite Hpre by lia. eapply Qcle_trans; [apply Hmax; lia | exact Hbx].
Qed.

Lemma argmax_spec (row : list Qc) :
  row <> [] ->
  exists code,
    argmax row = Ok code /\
    (code < length row)%nat /\
    forall j, (j < length row)%nat -> (qnth row j <= qnth row code)%Qc.
Proof.
  destruct row as [| x rest]; [congruence |]. intros _.
  exists (argmax_from 0 x 1 rest). split; [reflexivity |].
  apply (argmax_from_spec rest [x] 0%nat x).
  - simpl. lia.
  - reflexivity.
  - intros j Hj. simpl in Hj. assert (j = 0%nat) as -> by lia. apply Qcle_refl.
Qed.

Lemma removelast_length {A} (l : list A) : length (removelast l) = (length l - 1)%nat.
Proof.
  induction l as [| x l IH]; [reflexivity |].
  destruct l as [| y l]; [reflexivity |].
  change (removelast (x :: y :: l)) with (x :: removelast (y :: l)).
  cbn [length] in *. rewrite IH. lia.
Qed.

Lemma removelast_nth (l : list Qc) j :
  (j < length l - 1)%nat -> qnth (removelast l) j = qnth l j.
Proof.
  revert j. induction l as [| x l IH]; intros j Hj; [simpl in Hj; lia |].
  destruct l as [| y l]; [simpl in Hj; lia |].
  change (removelast (x :: y :: l)) with (x :: removelast (y :: l)).
  destruct j as [| j]; [reflexivity |].
  unfold qnth in *. cbn [nth]. apply IH. cbn [length] in *. lia.
Qed.

(** C7: for a row of [len(cats) + 1] logits, a feature with at least one
    category is decoded by the arg-max over all logits but the last, so the
    code is never the [_other] slot and the label is one of the categories;
    a feature without categories is decoded by the full arg-max, which is
    the [_other] slot; in both cases the label is the code's entry of
    [cats + ['_other']]. *)
Theorem categorical_decode_leaves_other_out
  (feature : categorical_feature) (row : list Qc) :
  length row = S (length (cats feature)) ->
  exists code label,
    decode_categorical_code feature row = Ok code /\
    decode_categorical_row feature row = Ok label /\
    nth_error (cats feature ++ [other]) code = Some label /\
    (cats feature <> [] ->
       argmax (removelast row) = Ok code /\
       (code < length (cats feature))%nat /\
       nth_error (cats feature) code = Some label /\
       (~ In other (cats feature) -> label <> other) /\
       forall j, (j < length (cats feature))%nat -> (qnth row j <= qnth row code)%Qc) /\
    (cats feature = [] ->
       argmax row = Ok code /\ code = 0%nat /\ label = other).
Proof.
  intros Hlen. unfold decode_categorical_row, decode_categorical_code.
  destruct (cats feature) as [| c cs] eqn:Ec.
  - destruct row as [| x [| y row]]; try discriminate Hlen.
    exists 0%nat, other. cbn. repeat split; try reflexivity; congruence.
  - cbn [length Nat.ltb Nat.leb].
    assert (Hne : removelast row <> []).
    { intros H. apply (f_equal (@length Qc)) in H.
      rewrite removelast_length, Hlen in H. simpl in H. lia. }
    destruct (argmax_spec _ Hne) as (code & Ha & Hlt & Hmax).
    rewrite removelast_length, Hlen in Hlt, Hmax.
    replace (S (length (c :: cs)) - 1)%nat with (length (c :: cs)) in Hlt, Hmax by lia.
    destruct (nth_error (c :: cs) code) as [label |] eqn:En;
      [| apply nth_error_None in En; lia].
    assert (Happ : nth_error ((c :: cs) ++ [other]) code = Some label).
    { rewrite nth_error_app1 by exact Hlt. exact En. }
    exists code, label. rewrite Ha. cbn [bind]. unfold list_item. rewrite Happ.
    repeat split; try reflexivity; try assumption; try congruence.
    + intros Hno ->. apply Hno. eapply nth_error_In. exact En.
    + intros j Hj. specialize (Hmax j Hj).
      rewrite !removelast_nth in Hmax by (rewrite Hlen; cbn [length] in *; lia).
      exact Hmax.
Qed.

Lemma categorical_decode_leaves_other_out_witness :
  exists code label,
    decode_categorical_code {| cats := ["a"; "b"] |} [Q2Qc 1; Q2Qc 2; Q2Qc 5] = Ok code /\
    decode_categorical_row {| cats := ["a"; "b"] |} [Q2Qc 1; Q2Qc 2; Q2Qc 5] = Ok label /\
    (code < 2)%nat.
Proof.
  destruct (categorical_decode_leaves_other_out
              {| cats := ["a"; "b"] |} [Q2Qc 1; Q2Qc 2; Q2Qc 5] eq_refl)
    as (code & label & Hc & Hr & _ & Hsome & _).
  exists code, label. split; [exact Hc | split; [exact Hr |]].
  apply Hsome. discriminate.
Defined.

Example decode_prefers_a_category :
  decode_categorical_row {| cats := ["a"; "b"] |} [Q2Qc 1; Q2Qc 2; Q2Qc 5] = Ok "b" /\
  decode_categorical_row {| cats := [] |} [Q2Qc 5] = Ok "_other".
Proof. split; vm_compute; reflexivity. Qed.

(** ** Categorical columns: cut-off and the reserved category *)

Lemma unique_In (l : list string) v : In v (unique l) <-> In v l.
Proof.
  induction l as [| x l IH]; simpl; [tauto |].
  rewrite filter_In, IH. split.
  - intros [H | [H _]]; auto.
  - intros [H | H]; [left; exact H |].
    destruct (String.eqb_spec x v) as [-> | Hne]; [left; reflexivity |].
    right. split; [exact H |].
    destruct (String.eqb_spec x v); [contradiction | reflexivity].
Qed.

Lemma unique_NoDup (l : list string) : List.NoDup (unique l).
Proof.
  induction l as [| x l IH]; simpl; constructor.
  - rewrite filter_In. intros [_ H]. rewrite String.eqb_refl in H. discriminate.
  - apply List.NoDup_filter. exact IH.
Qed.

Lemma dropna_In {A} (col : list (option A)) v : In v (dropna col) <-> In (Some v) col.
Proof.
  unfold dropna. induction col as [| [x |] col IH]; simpl.
  - tauto.
  - rewrite IH. split; intros [H | H]; auto; left; congruence.
  - rewrite IH. split; [auto | intros [H | H]; [discriminate | exact H]].
Qed.

Lemma value_counts_In (col : list (option string)) v c :
  In (v, c) (value_counts col) <-> In (Some v) col /\ c = count_of v col.
Proof.
  unfold value_counts.
  rewrite <- !list_elem_of_In.
  rewrite (merge_sort_Permutation count_ge _).
  rewrite list_elem_of_In, in_map_iff. split.
  - intros (x & Hx & Hin). inversion Hx; subst.
    apply unique_In, dropna_In in Hin. rewrite list_elem_of_In. split; [exact Hin | reflexivity].
  - intros [Hin ->]. exists v. split; [reflexivity |].
    apply unique_In, dropna_In. apply list_elem_of_In. exact Hin.
Qed.

Lemma value_counts_NoDup (col : list (option string)) :
  List.NoDup (map fst (value_counts col)).
Proof.
  unfold value_counts.
  assert (Hp : Permutation
                 (map fst (merge_sort count_ge
                    (map (fun v => (v, count_of v col)) (unique (dropna col)))))
                 (unique (dropna col))).
  { rewrite (merge_sort_Permutation count_ge _). rewrite map_map. simpl.
    rewrite map_id. reflexivity. }
  apply NoDup_ListNoDup. rewrite Hp. apply NoDup_ListNoDup. apply unique_NoDup.
Qed.

Lemma NoDup_map_fst_filter {A B} (f : A * B -> bool) (l : list (A * B)) :
  List.NoDup (map fst l) -> List.NoDup (map fst (List.filter f l)).
Proof.
  induction l as [| x l IH]; simpl; [constructor |].
  intros H. inversion H as [| ? ? Hn Hd]; subst.
  destruct (f x); simpl; [constructor |]; auto.
  intros Hin. apply Hn. apply in_map_iff in Hin as (y & Hy & Hin).
  apply filter_In in Hin as [Hin _]. apply in_map_iff. exists y. auto.
Qed.

Lemma cats_of_column_In (k : Z) (col : list (option string)) v :
  In v (cats_of_column k col) <-> In (Some v) col /\ (k <= count_of v col)%Z.
Proof.
  unfold cats_of_column, index_where_ge. rewrite in_map_iff. split.
  - intros ([v' c] & Hv & Hin). simpl in Hv. subst v'.
    apply filter_In in Hin as [Hin Hc]. simpl in Hc.
    apply value_counts_In in Hin as [Hin ->].
    split; [exact Hin | apply Z.leb_le; exact Hc].
  - intros [Hin Hc]. exists (v, count_of v col). split; [reflexivity |].
    apply filter_In. split.
    + apply value_counts_In. split; [exact Hin | reflexivity].
    + simpl. apply Z.leb_le. exact Hc.
Qed.

Lemma cats_of_column_NoDup (k : Z) (col : list (option string)) :
  List.NoDup (cats_of_column k col).
Proof. apply NoDup_map_fst_filter, value_counts_NoDup. Qed.

Lemma index_of_Some (l : list string) v i :
  index_of v l = Some i -> nth_error l i = Some v /\ (i < length l)%nat.
Proof.
  revert i. induction l as [| x l IH]; intros i; simpl; [discriminate |].
  destruct (String.eqb_spec x v) as [-> | Hne].
  - intros H. inversion H. simpl. split; [reflexivity | lia].
  - destruct (index_of v l) as [k |]; [| discriminate].
    intros H. inversion H. subst i. destruct (IH k eq_refl) as [Hn Hl].
    simpl. split; [exact Hn | lia].
Qed.

Lemma index_of_None (l : list string) v : index_of v l = None <-> ~ In v l.
Proof.
  induction l as [| x l IH]; simpl; [tauto |].
  destruct (String.eqb_spec x v) as [-> | Hne].
  - split; [discriminate | intros H; exfalso; apply H; left; reflexivity].
  - destruct (index_of v l) as [k |].
    + split; [discriminate |]. intros H. exfalso. apply H. right.
      apply Decidable.not_not; [| intros Hn; apply IH in Hn; discriminate].
      destruct (in_dec String.string_dec v l); [left | right]; assumption.
    + split; [| reflexivity]. intros _ [H | H]; [contradiction |].
      apply (proj1 IH); [reflexivity | exact H].
Qed.

Lemma index_of_app_l (l l' : list string) v i :
  index_of v l = Some i -> index_of v (l ++ l') = Some i.
Proof.
  revert i. induction l as [| x l IH]; intros i; simpl; [discriminate |].
  destruct (String.eqb x v); [auto |].
  destruct (index_of v l) as [k |]; [| discriminate].
  intros H. rewrite (IH k eq_refl). exact H.
Qed.

Lemma index_of_app_r (l : list string) v :
  ~ In v l -> index_of v (l ++ [v]) = Some (length l).
Proof.
  induction l as [| x l IH]; simpl; intros Hn.
  - rewrite String.eqb_refl. reflexivity.
  - destruct (String.eqb_spec x v) as [-> | Hne]; [exfalso; apply Hn; left; reflexivity |].
    rewrite IH; [reflexivity | intros H; apply Hn; right; exact H].
Qed.

Lemma index_of_missing (l : list string) v w :
  ~ In v l -> v <> w -> index_of v (l ++ [w]) = None.
Proof.
  intros Hn Hne. apply index_of_None. intros H. apply in_app_or in H as [H | [H | []]].
  - exact (Hn H).
  - exact (Hne (eq_sym H)).
Qed.

Lemma getitem_In (df : DataFrame) ft c :
  List.NoDup (map fst df) -> In (ft, c) df -> getitem df ft = Ok c.
Proof.
  induction df as [| [k c'] df IH]; simpl; [tauto |].
  intros Hnd [H | H].
  - inversion H; subst. rewrite String.eqb_refl. reflexivity.
  - inversion Hnd as [| ? ? Hn Hd]; subst.
    destruct (String.eqb_spec k ft) as [-> | Hne].
    + exfalso. apply Hn. apply in_map_iff. exists (ft, c). split; [reflexivity | exact H].
    + apply IH; assumption.
Qed.

Lemma select_dtypes_In (p : column -> bool) (df : DataFrame) ft :
  In ft (select_dtypes p df) <-> exists c, In (ft, c) df /\ p c = true.
Proof.
  unfold select_dtypes. rewrite in_map_iff. split.
  - intros ([k c] & Hk & Hin). simpl in Hk. subst k.
    apply filter_In in Hin as [Hin Hp]. exists c. split; assumption.
  - intros (c & Hin & Hp). exists (ft, c). split; [reflexivity |].
    apply filter_In. split; assumption.
Qed.

Lemma init_cats_loop (df : DataFrame) (objs : list string) :
  (forall ft, In ft objs -> exists col, getitem df ft = Ok (ObjCol col)) ->
  forall w, exists w',
    for_each objs (fun ft =>
      run! self := get_self in
      run! col := lift (object_column df ft) in
      let feature := {| cats := cats_of_column (min_cats self) col |} in
      modify (fun self => set_categorical_fts (OD.set (categorical_fts self) ft feature) self)) w
    = (Ok tt, w') /\
    min_cats (obj w') = min_cats (obj w) /\
    (forall ft col, In ft objs -> getitem df ft = Ok (ObjCol col) ->
       OD.get (categorical_fts (obj w')) ft
       = Some {| cats := cats_of_column (min_cats (obj w)) col |}) /\
    (forall ft, ~ In ft objs ->
       OD.get (categorical_fts (obj w')) ft = OD.get (categorical_fts (obj w)) ft).
Proof.
  induction objs as [| ft0 rest IH]; intros Hcols w; cbn [for_each].
  - exists w. repeat split; try reflexivity. intros ft col [].
  - destruct (Hcols ft0 (or_introl eq_refl)) as (col0 & Hg0).
    unfold bindM at 1. unfold bindM at 1. unfold get_self. unfold bindM at 1.
    unfold object_column. rewrite Hg0. cbn [bind lift ret modify].
    match goal with
    | |- context [for_each rest ?body ?w1] =>
        destruct (IH (fun ft H => Hcols ft (or_intror H)) w1)
          as (w' & E & Hmin & Hin & Hout)
    end.
    exists w'. cbn [obj] in Hmin, Hin, Hout.
    split; [exact E |]. split; [exact Hmin |]. split.
    + intros ft col [<- | Hr] Hg.
      * destruct (in_dec String.string_dec ft0 rest) as [Hi | Hni].
        -- apply Hin; assumption.
        -- rewrite (Hout _ Hni). simpl. rewrite OD_get_set_same.
           rewrite Hg0 in Hg. inversion Hg. reflexivity.
      * apply Hin; assumption.
    + intros ft Hn. rewrite Hout by (intros H; apply Hn; right; exact H).
      simpl. apply OD_get_set_other. intros ->. apply Hn. left. reflexivity.
Qed.

Lemma init_cats_registers (df : DataFrame) (w : world) :
  List.NoDup (map fst df) ->
  exists w',
    _init_cats (Some df) w = (Ok tt, w') /\
    forall ft col, In (ft, ObjCol col) df ->
      OD.get (categorical_fts (obj w')) ft
      = Some {| cats := cats_of_column (min_cats (obj w)) col |}.
Proof.
  intros Hnd. unfold _init_cats.
  assert (Hcols : forall ft, In ft (select_dtypes is_obj df) ->
                    exists col, getitem df ft = Ok (ObjCol col)).
  { intros ft Hin. apply select_dtypes_In in Hin as (c & Hin & Hp).
    destruct c; try discriminate Hp. exists vals. apply getitem_In; assumption. }
  destruct (init_cats_loop df _ Hcols w) as (w' & E & _ & Hin & _).
  exists w'. split; [exact E |].
  intros ft col Hc. apply Hin.
  - apply select_dtypes_In. exists (ObjCol col). split; [exact Hc | reflexivity].
  - apply getitem_In; assumption.
Qed.

(** The code [prepare_df] gives a cell: the position of its value among the
    categories, or the last slot. *)
Lemma prepare_categorical_column_codes (feature : categorical_feature)
  (values : list (option string)) :
  List.NoDup (cats feature) ->
  ~ In other (cats feature) ->
  exists c,
    prepare_categorical_column feature values = Ok c /\
    categories c = cats feature ++ [other] /\
    codes c =
      map (fun x =>
             match x with
             | Some v =>
                 match index_of v (cats feature) with
                 | Some i => Z.of_nat i
                 | None => Z.of_nat (length (cats feature))
                 end
             | None => Z.of_nat (length (cats feature))
             end) values.
Proof.
  intros Hnd Hno. unfold prepare_categorical_column, pd_Categorical.
  assert (Hnd' : NoDup (cats feature ++ [other])).
  { apply NoDup_ListNoDup. apply List.NoDup_app.
    repeat split.
    - exact Hnd.
    - constructor; [intros [] | constructor].
    - intros x Hx [<- | []]. exact (Hno Hx). }
  destruct (decide (NoDup (cats feature ++ [other]))) as [_ | Hn]; [| contradiction].
  cbn [bind]. unfold fillna. cbn [categories codes].
  rewrite (index_of_app_r _ _ Hno).
  eexists. split; [reflexivity |]. cbn [categories codes]. split; [reflexivity |].
  rewrite map_map. apply map_ext. intros [v |]; cbn [code_of]; [| reflexivity].
  destruct (index_of v (cats feature)) as [i |] eqn:Ei.
  - rewrite (index_of_app_l _ _ _ _ Ei).
    destruct (Z.eqb_spec (Z.of_nat i) (-1)); [lia | reflexivity].
  - apply index_of_None in Ei.
    destruct (String.eqb_spec v other) as [-> | Hne].
    + rewrite (index_of_app_r _ _ Hno).
      destruct (Z.eqb_spec (Z.of_nat (length (cats feature))) (-1)); [lia | reflexivity].
    + rewrite (index_of_missing _ _ _ Ei Hne). reflexivity.
Qed.

Lemma prepare_with_reserved_category (feature : categorical_feature)
  (values : list (option string)) :
  In other (cats feature) ->
  prepare_categorical_column feature values = Raise ValueError.
Proof.
  intros Hin. unfold prepare_categorical_column, pd_Categorical.
  destruct (decide (NoDup (cats feature ++ [other]))) as [Hnd | _]; [| reflexivity].
  exfalso. apply NoDup_app in Hnd as (_ & Hsep & _).
  apply (Hsep other).
  - apply list_elem_of_In. exact Hin.
  - apply list_elem_of_In. left. reflexivity.
Qed.

(** C6 (as the code has it): after [_init_cats] on a frame, the feature of
    an object column keeps exactly the values that occur in the column at
    least [min_cats] times ([min_cats] is 10 by default).  The label
    [_other] is not set apart when fitting.  When it is not one of the kept
    categories, [prepare_df] never raises on such a column: the categories
    become [cats + ['_other']], so [_other] is the last of [len(cats) + 1]
    classes, a kept value gets its own code and label, and every other cell
    (a value below the cut-off, a value never seen, a missing cell) gets the
    last code and the label [_other].  When [_other] is itself a kept
    category, the list names it twice and [prepare_df] raises [ValueError]
    on every input. *)
Theorem categories_are_cut_off_and_the_rest_is_other
  (df : DataFrame) (w : world) (ft : string) (col : list (option string)) :
  List.NoDup (map fst df) ->
  In (ft, ObjCol col) df ->
  min_cats default_autoencoder = 10 /\
  exists w' feature,
    _init_cats (Some df) w = (Ok tt, w') /\
    OD.get (categorical_fts (obj w')) ft = Some feature /\
    (forall v, In v (cats feature) <->
               In (Some v) col /\ (min_cats (obj w) <= count_of v col)%Z) /\
    (In other (cats feature) ->
     forall values : list (option string),
       prepare_categorical_column feature values = Raise ValueError) /\
    (~ In other (cats feature) ->
    forall values : list (option string),
      exists c,
        prepare_categorical_column feature values = Ok c /\
        categories c = cats feature ++ [other] /\
        length (categories c) = S (length (cats feature)) /\
        nth_error (categories c) (length (cats feature)) = Some other /\
        length (codes c) = length values /\
        forall i x, nth_error values i = Some x ->
          (forall v, x = Some v -> In v (cats feature) ->
             label_at c i = Some v /\
             exists k, nth_error (codes c) i = Some (Z.of_nat k) /\
                       (k < length (cats feature))%nat) /\
          ((forall v, x = Some v -> ~ In v (cats feature)) ->
             nth_error (codes c) i = Some (Z.of_nat (length (cats feature))) /\
             label_at c i = Some other)).
Proof.
  intros Hnd Hin. split; [reflexivity |].
  destruct (init_cats_registers df w Hnd) as (w' & E & Hget).
  exists w', {| cats := cats_of_column (min_cats (obj w)) col |}.
  split; [exact E |]. split; [apply Hget; exact Hin |].
  split; [intros v; apply cats_of_column_In |].
  split; [intros Hres values; apply prepare_with_reserved_category; exact Hres |].
  cbn [cats]. intros Hno values.
  destruct (prepare_categorical_column_codes
              {| cats := cats_of_column (min_cats (obj w)) col |} values
              (cats_of_column_NoDup _ _) Hno) as (c & Hc & Hcat & Hcodes).
  cbn [cats] in Hcat, Hcodes |- *.
  set (cs := cats_of_column (min_cats (obj w)) col) in *.
  assert (Hlast : nth_error (cs ++ [other]) (length cs) = Some other).
  { rewrite nth_error_app2 by lia. rewrite Nat.sub_diag. reflexivity. }
  exists c. split; [exact Hc |]. split; [exact Hcat |].
  split; [rewrite Hcat, length_app; simpl; lia |].
  split; [rewrite Hcat; exact Hlast |].
  split; [rewrite Hcodes; apply length_map |].
  intros i x Hx. unfold label_at. rewrite Hcodes, Hcat.
  rewrite nth_error_map, Hx. cbn [option_map]. split.
  - intros v -> Hv.
    destruct (index_of v cs) as [k |] eqn:Ek;
      [| apply index_of_None in Ek; contradiction].
    apply index_of_Some in Ek as [Hn Hl].
    destruct (Z.ltb_spec (Z.of_nat k) 0); [lia |].
    rewrite Nat2Z.id. split.
    + rewrite nth_error_app1 by exact Hl. exact Hn.
    + exists k. split; [reflexivity | exact Hl].
  - intros Hout.
    assert (Hk : match x with
                 | Some v => match index_of v cs with
                             | Some i0 => Z.of_nat i0
                             | None => Z.of_nat (length cs)
                             end
                 | None => Z.of_nat (length cs)
                 end = Z.of_nat (length cs)).
    { destruct x as [v |]; [| reflexivity].
      destruct (index_of v cs) as [k |] eqn:Ek; [| reflexivity].
      apply index_of_Some in Ek as [Hn _]. apply nth_error_In in Hn.
      exfalso. exact (Hout v eq_refl Hn). }
    rewrite Hk. split; [reflexivity |].
    destruct (Z.ltb_spec (Z.of_nat (length cs)) 0); [lia |].
    rewrite Nat2Z.id. exact Hlast.
Qed.

Lemma categories_are_cut_off_and_the_rest_is_other_witness :
  exists w' feature,
    _init_cats (Some [("kind", ObjCol sample_kinds)]) (fresh default_autoencoder)
    = (Ok tt, w') /\
    OD.get (categorical_fts (obj w')) "kind" = Some feature /\
    In "a" (cats feature) /\ ~ In "b" (cats feature) /\
    exists c, prepare_categorical_column feature [Some "a"; Some "zzz"] = Ok c /\
              label_at c 1 = Some other.
Proof.
  destruct (categories_are_cut_off_and_the_rest_is_other
              [("kind", ObjCol sample_kinds)] (fresh default_autoencoder)
              "kind" sample_kinds)
    as [_ (w' & feature & E & G & Hiff & _ & Hprep)].
  - repeat constructor. intros [].
  - left. reflexivity.
  - exists w', feature. split; [exact E |]. split; [exact G |].
    assert (Hb : ~ In "b" (cats feature)).
    { intros Hb. apply Hiff in Hb as [_ Hb]. vm_compute in Hb. apply Hb. reflexivity. }
    assert (Hres : ~ In other (cats feature)).
    { intros Hr. apply Hiff in Hr as [Hr _]. vm_compute in Hr.
      repeat (destruct Hr as [Hr | Hr]; [discriminate Hr |]). exact Hr. }
    split; [| split; [exact Hb |]].
    + apply Hiff. split; [left; reflexivity | vm_compute; discriminate].
    + destruct (Hprep Hres [Some "a"; Some "zzz"]) as (c & Hc & _ & _ & _ & _ & Hcells).
      exists c. split; [exact Hc |].
      destruct (Hcells 1%nat (Some "zzz") eq_refl) as [_ Hrest].
      apply Hrest. intros v Hv Hin. inversion Hv; subst v.
      apply Hiff in Hin as [Hin _]. vm_compute in Hin.
      repeat (destruct Hin as [Hin | Hin]; [discriminate Hin |]). exact Hin.
Defined.

Example prepare_routes_unknown_values_to_other :
  exists c,
    prepare_categorical_column {| cats := cats_of_column 10 sample_kinds |}
      [Some "a"; Some "b"; Some "zzz"; None] = Ok c /\
    categories c = ["a"; "_other"] /\
    codes c = [0; 1; 1; 1]%Z.
Proof. eexists. split; [vm_compute; reflexivity | split; reflexivity]. Qed.

(** When the reserved label is itself frequent in the fitted column it is
    kept as a category, the category list of [prepare_df] then names it
    twice, and [pd.Categorical] refuses the list. *)
Example reserved_label_as_a_category :
  cats_of_column 10 (repeat (Some "_other") 10) = ["_other"] /\
  prepare_categorical_column {| cats := ["_other"] |} [Some "zzz"] = Raise ValueError.
Proof. split; vm_compute; reflexivity. Qed.

(** Fitted on a column that holds the literal ['_other'] ten times, the
    default object keeps it as a category; transforming a value never seen
    then raises instead of giving the last slot, and so does transforming
    any other input. *)
Lemma a_frequent_other_label_makes_prepare_df_raise :
  exists w' feature,
    _init_cats (Some [("kind", ObjCol (repeat (Some "_other") 10))])
               (fresh default_autoencoder) = (Ok tt, w') /\
    OD.get (categorical_fts (obj w')) "kind" = Some feature /\
    cats feature = ["_other"] /\
    prepare_categorical_column feature [Some "never_seen"] = Raise ValueError /\
    prepare_categorical_column feature [Some "_other"] = Raise ValueError.
Proof.
  eexists. eexists. split; [vm_compute; reflexivity |].
  split; [vm_compute; reflexivity |].
  split; [reflexivity |]. split; vm_compute; reflexivity.
Qed.

(** ** Anomaly scoring: the batch loop *)

Lemma n_batches_ceil (len size : Z) :
  (0 <= len)%Z -> (0 < size)%Z -> n_batches len size = ceil_div len size.
Proof.
  intros Hl Hs. unfold n_batches, ceil_div.
  pose proof (Z.div_mod len size ltac:(lia)) as Hdm.
  pose proof (Z.mod_pos_bound len size Hs) as Hb.
  destruct (Z.ltb_spec 0 (len mod size)).
  - apply (Z.div_unique _ _ _ (len mod size - 1)); lia.
  - apply (Z.div_unique _ _ _ (size - 1)); lia.
Qed.

Lemma iloc_nat {A} (l : list A) (i : nat) (size : Z) :
  (0 < size)%Z ->
  iloc l (Z.of_nat i * size) ((Z.of_nat i + 1) * size)
  = firstn (Z.to_nat size) (skipn (i * Z.to_nat size) l).
Proof.
  intros Hs. unfold iloc. f_equal.
  - f_equal. lia.
  - f_equal. rewrite Z2Nat.inj_mul by lia. rewrite Nat2Z.id. reflexivity.
Qed.

Lemma chunks_concat {A} (size : nat) :
  (0 < size)%nat ->
  forall (n : nat) (l : list A),
    (length l <= n * size)%nat ->
    concat (map (fun i => firstn size (skipn (i * size) l)) (seq 0 n)) = l.
Proof.
  intros Hs. induction n as [| n IH]; intros l Hl.
  - simpl in *. destruct l; [reflexivity | simpl in Hl; lia].
  - cbn [seq map concat]. rewrite <- seq_shift, map_map.
    rewrite (map_ext _ (fun i => firstn size (skipn (i * size) (skipn size l)))).
    + rewrite IH; [apply firstn_skipn |]. rewrite length_skipn. lia.
    + intros i. rewrite skipn_skipn. f_equal. f_equal. lia.
Qed.

Lemma chunk_length {A} (size i : nat) (l : list A) :
  (0 < size)%nat -> (i * size < length l)%nat ->
  (0 < length (firstn size (skipn (i * size) l)) <= size)%nat.
Proof.
  intros Hs Hi. rewrite length_firstn, length_skipn. lia.
Qed.

Lemma cat_columns_length (columns : list (list fl)) (n : nat) :
  columns <> [] ->
  Forall (fun c => length c = n) columns ->
  length (cat_columns columns) = n.
Proof.
  induction columns as [| c rest IH]; [congruence |].
  intros _ Hall. inversion Hall as [| ? ? Hc Hrest]; subst.
  destruct rest as [| c' rest'].
  - cbn [cat_columns]. apply length_map.
  - change (cat_columns (c :: c' :: rest'))
      with (map (fun p : fl * list fl => fst p :: snd p)
                (combine c (cat_columns (c' :: rest')))).
    rewrite length_map, length_combine, IH by (congruence || assumption). lia.
Qed.

Section Scoring.
Context {Row Prepared Targets Input Output : Type}.
Variable prepare_df : AutoEncoder -> list Row -> Prepared.
Variable compute_targets : AutoEncoder -> Prepared -> Targets.
Variable build_input_tensor : AutoEncoder -> Prepared -> Input.
Variable model : Input -> Output.
Variable mse_rows bce_rows : Output -> Targets -> list (list fl).
Variable cce_column : nat -> Output -> Targets -> list fl.

Lemma score_slices_nat (self : AutoEncoder) (df : list Row) :
  (0 < batch_size self)%Z ->
  score_slices self df
  = map (fun i => firstn (Z.to_nat (batch_size self))
                    (skipn (i * Z.to_nat (batch_size self)) df))
        (seq 0 (Z.to_nat (ceil_div (Z.of_nat (length df)) (batch_size self)))).
Proof.
  intros Hs. unfold score_slices.
  rewrite n_batches_ceil by lia.
  apply map_ext. intros i. apply iloc_nat. exact Hs.
Qed.

Lemma ceil_div_covers (len size : Z) :
  (0 <= len)%Z -> (0 < size)%Z ->
  (len <= ceil_div len size * size)%Z /\
  ((ceil_div len size - 1) * size < len)%Z /\
  (0 <= ceil_div len size)%Z.
Proof.
  intros Hl Hs. unfold ceil_div.
  pose proof (Z.div_mod (len + size - 1) size ltac:(lia)) as Hdm.
  pose proof (Z.mod_pos_bound (len + size - 1) size Hs) as Hb.
  assert (0 <= (len + size - 1) / size)%Z by (apply Z.div_pos; lia).
  repeat split; try nia.
Qed.

Lemma score_slices_cover (self : AutoEncoder) (df : list Row) :
  (0 < batch_size self)%Z ->
  Z.of_nat (length (score_slices self df))
    = ceil_div (Z.of_nat (length df)) (batch_size self) /\
  concat (score_slices self df) = df /\
  Forall (fun s => (0 < Z.of_nat (length s) <= batch_size self)%Z)
         (score_slices self df).
Proof.
  intros Hs.
  destruct (ceil_div_covers (Z.of_nat (length df)) (batch_size self)
              ltac:(lia) Hs) as (Hc1 & Hc2 & Hc3).
  rewrite score_slices_nat by exact Hs.
  set (n := ceil_div (Z.of_nat (length df)) (batch_size self)) in *.
  split; [| split].
  - rewrite length_map, length_seq. lia.
  - apply chunks_concat; [lia |]. nia.
  - apply List.Forall_forall. intros s Hin.
    apply in_map_iff in Hin as (i & <- & Hi). apply in_seq in Hi.
    assert (Hz : (Z.of_nat i * batch_size self <= (n - 1) * batch_size self)%Z) by nia.
    assert (Hlt : (i * Z.to_nat (batch_size self) < length df)%nat).
    { apply Nat2Z.inj_lt. rewrite Nat2Z.inj_mul, Z2Nat.id by lia. lia. }
    pose proof (chunk_length (Z.to_nat (batch_size self)) i df ltac:(lia) Hlt).
    lia.
Qed.
#[local] Abbreviation out := (slice_output prepare_df build_input_tensor model).
#[local] Abbreviation tg := (slice_targets prepare_df compute_targets).
#[local] Abbreviation cce_of self s :=
  (cat_columns (map (fun i => cce_column i (out self s) (tg self s))
                    (seq 0 (length (categorical_fts self))))).

Lemma score_slice_ok (self : AutoEncoder) (s : list Row) :
  categorical_fts self <> [] ->
  score_slice prepare_df compute_targets build_input_tensor model
              mse_rows bce_rows cce_column self s
  = Ok (mse_rows (out self s) (tg self s),
        bce_rows (out self s) (tg self s),
        cce_of self s).
Proof.
  intros Hcat. unfold score_slice, slice_output, slice_targets.
  match goal with
  | |- context [match ?cols with [] => _ | _ :: _ => _ end] =>
      destruct cols as [| c cs] eqn:Em
  end.
  - apply (f_equal (@length _)) in Em. rewrite length_map, length_seq in Em.
    destruct (categorical_fts self); [congruence | discriminate Em].
  - reflexivity.
Qed.

Lemma score_all_ok (self : AutoEncoder) (slices : list (list Row)) :
  categorical_fts self <> [] ->
  score_all prepare_df compute_targets build_input_tensor model
            mse_rows bce_rows cce_column self slices
  = Ok (map (fun s => mse_rows (out self s) (tg self s)) slices,
        map (fun s => bce_rows (out self s) (tg self s)) slices,
        map (fun s => cce_of self s) slices).
Proof.
  intros Hcat. induction slices as [| s rest IH]; [reflexivity |].
  cbn [score_all]. rewrite (score_slice_ok self s Hcat), IH. reflexivity.
Qed.

Lemma torch_cat0_ok {B} (l : list (list B)) :
  l <> [] -> torch_cat0 l = Ok (concat l).
Proof. destruct l; [congruence | reflexivity]. Qed.

Lemma concat_map_length {B} (f : list Row -> list B) (slices : list (list Row)) :
  (forall s, length (f s) = length s) ->
  length (concat (map f slices)) = length (concat slices).
Proof.
  intros Hf. induction slices as [| s rest IH]; [reflexivity |].
  cbn [map concat]. rewrite !length_app, IH, Hf. reflexivity.
Qed.

(** C5 (as the code has it): with a positive [batch_size], a non-empty
    frame and at least one categorical feature, the scorer cuts the frame
    into [ceil(len(df) / batch_size)] consecutive slices of at most
    [batch_size] rows that together are the frame, sends each slice
    through [prepare_df], [build_input_tensor] and the model with no swap
    in between, and returns the three loss tensors, each with one row per
    input row. *)
Theorem scoring_batches_by_batch_size (self : AutoEncoder) (df : list Row) :
  (0 < batch_size self)%Z ->
  df <> [] ->
  categorical_fts self <> [] ->
  (forall s, length (mse_rows (out self s) (tg self s)) = length s) ->
  (forall s, length (bce_rows (out self s) (tg self s)) = length s) ->
  (forall i s, length (cce_column i (out self s) (tg self s)) = length s) ->
  let slices := score_slices self df in
  Z.of_nat (length slices) = ceil_div (Z.of_nat (length df)) (batch_size self) /\
  concat slices = df /\
  Forall (fun s => (0 < Z.of_nat (length s) <= batch_size self)%Z) slices /\
  exists mse bce cce,
    _get_anomaly_score_losses prepare_df compute_targets build_input_tensor model
                              mse_rows bce_rows cce_column self df
    = Ok (mse, bce, cce) /\
    mse = concat (map (fun s => mse_rows (out self s) (tg self s)) slices) /\
    bce = concat (map (fun s => bce_rows (out self s) (tg self s)) slices) /\
    length mse = length df /\ length bce = length df /\ length cce = length df.
Proof.
  intros Hs Hdf Hcat Hm Hb Hc slices.
  destruct (score_slices_cover self df Hs) as (Hn & Hcover & Hall).
  fold slices in Hn, Hcover, Hall.
  split; [exact Hn |]. split; [exact Hcover |]. split; [exact Hall |].
  assert (Hne : slices <> []).
  { intros E. rewrite E in Hcover. simpl in Hcover. congruence. }
  assert (Hcce : forall s, length (cce_of self s) = length s).
  { intros s. apply cat_columns_length.
    - destruct (categorical_fts self); [congruence | discriminate].
    - apply List.Forall_forall. intros c Hin.
      apply in_map_iff in Hin as (i & <- & _). apply Hc. }
  unfold _get_anomaly_score_losses.
  destruct (Z.eqb_spec (batch_size self) 0) as [E | _]; [lia |].
  fold slices. rewrite (score_all_ok self slices Hcat). cbn [bind fst snd].
  rewrite !torch_cat0_ok by (intros E; apply Hne; eapply map_eq_nil; exact E).
  cbn [bind]. eexists _, _, _. split; [reflexivity |].
  rewrite !concat_map_length by assumption.
  rewrite Hcover. repeat split; reflexivity.
Qed.
End Scoring.

(** The slices are cut by [batch_size], not by [eval_batch_size]: the
    default object scores 1024 rows in four slices, where batches of the
    evaluation size would make one. *)
Lemma scoring_does_not_batch_by_eval_batch_size :
  Z.of_nat (length (score_slices default_autoencoder (repeat tt 1024)))
  <> ceil_div (Z.of_nat (length (repeat tt 1024))) (eval_batch_size default_autoencoder).
Proof. vm_compute. discriminate. Qed.

Example scoring_default_slices :
  Z.of_nat (length (score_slices default_autoencoder (repeat tt 1024))) = 4%Z /\
  ceil_div 1024 (batch_size default_autoencoder) = 4%Z /\
  ceil_div 1024 (eval_batch_size default_autoencoder) = 1%Z.
Proof. vm_compute. repeat split; reflexivity. Qed.

Lemma scoring_batches_by_batch_size_witness :
  let slices := score_slices small_batch_autoencoder [1; 2; 3; 4; 5]%nat in
  slices = [[1; 2]; [3; 4]; [5]]%nat /\
  Z.of_nat (length slices) = ceil_div 5 (batch_size small_batch_autoencoder) /\
  exists mse bce cce,
    _get_anomaly_score_losses
      (fun _ (rows : list nat) => rows) (fun _ rows => rows) (fun _ rows => rows)
      (fun rows => rows)
      (fun out _ => map (fun _ => [Some (Q2Qc 0)]) out)
      (fun out _ => map (fun _ => [Some (Q2Qc 0)]) out)
      (fun _ out _ => map (fun _ => Some (Q2Qc 0)) out)
      small_batch_autoencoder [1; 2; 3; 4; 5]%nat
    = Ok (mse, bce, cce) /\
    length mse = 5%nat /\ length bce = 5%nat /\ length cce = 5%nat.
Proof.
  cbv zeta. split; [reflexivity |].
  destruct (scoring_batches_by_batch_size
              (fun _ (rows : list nat) => rows) (fun _ rows => rows) (fun _ rows => rows)
              (fun rows => rows)
              (fun out _ => map (fun _ => [Some (Q2Qc 0)]) out)
              (fun out _ => map (fun _ => [Some (Q2Qc 0)]) out)
              (fun _ out _ => map (fun _ => Some (Q2Qc 0)) out)
              small_batch_autoencoder [1; 2; 3; 4; 5]%nat)
    as (Hn & _ & _ & mse & bce & cce & E & _ & _ & Hm & Hb & Hc).
  - reflexivity.
  - discriminate.
  - discriminate.
  - intros s. apply length_map.
  - intros s. apply length_map.
  - intros i s. apply length_map.
  - split; [exact Hn |]. exists mse, bce, cce. repeat split; assumption.
Defined.

(** ** Early stopping *)



Lemma counter_after_eq (validate : nat -> vloss) (epoch : nat) :
  counter_after validate epoch
  = (if rose validate epoch then counter_before validate epoch + 1 else 0)%Z.
Proof. destruct epoch; reflexivity. Qed.

Lemma counter_before_nonneg (validate : nat -> vloss) (epoch : nat) :
  (0 <= counter_before validate epoch)%Z.
Proof.
  induction epoch as [| k IH]; cbn [counter_before]; [lia |].
  rewrite counter_after_eq. destruct (rose validate k); lia.
Qed.


Section EarlyStopping.
Variable validate : nat -> vloss.
Variable all_gather0 : nat -> bool -> bool.




End EarlyStopping.


(** A strictly rising validation loss with the default patience of 5, on a
    built object: the first epoch only sets the reference, the next five
    increment the counter, and the run stops after the sixth of ten
    epochs. *)
Example rising_losses_stop_after_patience_plus_one :
  fst (_fit_data rising_losses (fun _ b => b) TrainDataset 0 1 10 (Some ValDataset)
                 true false (fresh small_batch_autoencoder))
  = Ok ({| count_es := 5;
           last_val_loss := rising_losses 5;
           should_early_stop := true |}, 6%nat).
Proof. vm_compute. reflexivity. Qed.

(** A constant validation loss never stops the run: a tie resets the
    counter. *)
Example constant_losses_never_stop :
  fst (_fit_data (fun _ => rising_losses 0) (fun _ b => b) TrainDataset 0 1 10
                 (Some ValDataset) true false (fresh small_batch_autoencoder))
  = Ok ({| count_es := 0;
           last_val_loss := rising_losses 0;
           should_early_stop := false |}, 10%nat).
Proof. vm_compute. reflexivity. Qed.

(** On an object that was constructed but not built the logger is still the
    name ['basic']: the first epoch ends in [AttributeError]. *)
Example unbuilt_logger_ends_the_first_epoch :
  fst (_fit_data rising_losses (fun _ b => b) TrainDataset 0 1 10 (Some ValDataset)
                 true false (fresh default_autoencoder))
  = Raise AttributeError.
Proof. vm_compute. reflexivity. Qed.

(** ** Loss composition *)

Lemma fadd_comm (a b : fl) : fadd a b = fadd b a.
Proof. destruct a, b; cbn; try reflexivity. f_equal. apply Qcplus_comm. Qed.

Lemma fadd_assoc (a b c : fl) : fadd a (fadd b c) = fadd (fadd a b) c.
Proof. destruct a, b, c; cbn; try reflexivity. f_equal. apply Qcplus_assoc. Qed.

Lemma fadd_zero_l (a : fl) : fadd (Some 0%Qc) a = a.
Proof. destruct a; cbn; [| reflexivity]. f_equal. apply Qcplus_0_l. Qed.

Lemma fadd_zero_r (a : fl) : fadd a (Some 0%Qc) = a.
Proof. rewrite fadd_comm. apply fadd_zero_l. Qed.

Lemma fsum_app (l1 l2 : list fl) : fsum (l1 ++ l2) = fadd (fsum l1) (fsum l2).
Proof.
  induction l1 as [| x l1 IH]; cbn [app fsum fold_right].
  - symmetry. apply fadd_zero_l.
  - fold (fsum (l1 ++ l2)). fold (fsum l1). rewrite IH. apply fadd_assoc.
Qed.

Lemma fold_left_fadd (l : list fl) (a : fl) :
  fold_left (fun acc x => fadd acc x) l a = fadd a (fsum l).
Proof.
  revert a. induction l as [| x l IH]; intros a; cbn [fold_left fsum fold_right].
  - symmetry. apply fadd_zero_r.
  - fold (fsum l). rewrite IH. symmetry. apply fadd_assoc.
Qed.

Lemma fsum_map_add {A} (f g : A -> fl) (l : list A) :
  fsum (map (fun x => fadd (f x) (g x)) l) = fadd (fsum (map f l)) (fsum (map g l)).
Proof.
  induction l as [| x l IH]; cbn [map fsum fold_right].
  - symmetry. apply fadd_zero_l.
  - fold (fsum (map (fun x => fadd (f x) (g x)) l)).
    fold (fsum (map f l)). fold (fsum (map g l)). rewrite IH.
    rewrite <- !fadd_assoc. f_equal.
    rewrite !fadd_assoc. f_equal. apply fadd_comm.
Qed.

Lemma fsum_zeros {A} (l : list A) : fsum (map (fun _ => Some 0%Qc) l) = Some 0%Qc.
Proof.
  induction l as [| x l IH]; [reflexivity |].
  cbn [map fsum fold_right]. fold (fsum (map (fun _ : A => Some 0%Qc) l)).
  rewrite IH. apply fadd_zero_l.
Qed.

Lemma fdivn_fadd (a b : fl) (n : nat) : fadd (fdivn a n) (fdivn b n) = fdivn (fadd a b) n.
Proof.
  destruct a, b; cbn; try reflexivity. f_equal. unfold Qcdiv. ring.
Qed.

Lemma fsum_map_fdivn {A} (f : A -> fl) (n : nat) (l : list A) :
  fsum (map (fun x => fdivn (f x) n) l) = fdivn (fsum (map f l)) n.
Proof.
  induction l as [| x l IH]; cbn [map fsum fold_right].
  - cbn. f_equal. unfold Qcdiv. ring.
  - fold (fsum (map (fun x => fdivn (f x) n) l)). fold (fsum (map f l)).
    rewrite IH. apply fdivn_fadd.
Qed.

Lemma Q2Qc_nat_mul (n c : nat) :
  Q2Qc (inject_Z (Z.of_nat (n * c)))
  = (Q2Qc (inject_Z (Z.of_nat n)) * Q2Qc (inject_Z (Z.of_nat c)))%Qc.
Proof.
  apply Qc_is_canon. unfold Qcmult, Q2Qc. cbn [this].
  rewrite !Qred_correct. rewrite Nat2Z.inj_mul, inject_Z_mult. reflexivity.
Qed.

Lemma fdivn_fdivn (x : fl) (n c : nat) : fdivn (fdivn x n) c = fdivn x (n * c).
Proof.
  destruct x as [q |]; cbn; [| reflexivity]. f_equal.
  rewrite Q2Qc_nat_mul. unfold Qcdiv. rewrite Qcinv_mult_distr. ring.
Qed.

Lemma map_nth_seq {A} (d : A) (r : list A) :
  map (fun j => nth j r d) (seq 0 (length r)) = r.
Proof.
  induction r as [| x r IH]; [reflexivity |].
  cbn [length seq map nth]. f_equal.
  rewrite <- seq_shift, map_map. exact IH.
Qed.

Lemma column_sums (c : nat) (rows : list (list fl)) :
  Forall (fun r => length r = c) rows ->
  fsum (map (fun j => fsum (map (fun r => nth j r NaN) rows)) (seq 0 c))
  = fsum (concat rows).
Proof.
  induction rows as [| r rows IH]; intros Hall.
  - cbn [map concat]. apply fsum_zeros.
  - inversion Hall as [| ? ? Hr Hrest]; subst.
    cbn [map concat fsum fold_right].
    rewrite (fsum_map_add (fun j => nth j r NaN)
                          (fun j => fsum (map (fun r0 => nth j r0 NaN) rows))).
    rewrite IH by exact Hrest. rewrite map_nth_seq. symmetry. apply fsum_app.
Qed.

Lemma concat_length_rect {A} (c : nat) (rows : list (list A)) :
  Forall (fun r => length r = c) rows ->
  length (concat rows) = (length rows * c)%nat.
Proof.
  induction rows as [| r rows IH]; intros Hall; [reflexivity |].
  inversion Hall; subst. cbn [concat length]. rewrite length_app, IH by assumption.
  simpl. lia.
Qed.

Lemma mean1_nonempty (l : list fl) :
  l <> [] -> mean1 l = fdivn (fsum l) (length l).
Proof. destruct l; [congruence | reflexivity]. Qed.

Lemma mean1_leading_NaN (l : list fl) : mean1 (NaN :: l) = NaN.
Proof. reflexivity. Qed.

(** The mean of all cells of a rectangular tensor is the mean of its column
    means. *)
Lemma mean_all_is_mean_of_column_means (t : tensor2) :
  well_shaped t -> mean_all t = mean1 (mean_dim0 t).
Proof.
  unfold well_shaped, mean_all, mean_dim0, column_of.
  destruct t as [c rows]. cbn [ncols LossComposition.rows]. intros Hall.
  pose proof (concat_length_rect c rows Hall) as Hlen.
  destruct c as [| c'].
  - cbn [seq map]. destruct (concat rows); [reflexivity | simpl in Hlen; lia].
  - destruct rows as [| r rows'].
    + reflexivity.
    + set (rows := r :: rows') in *. set (c := S c') in *.
      assert (Hn : length rows = S (length rows')) by reflexivity.
      rewrite (map_ext (fun j => mean1 (map (fun r0 => nth j r0 NaN) rows))
                       (fun j => fdivn (fsum (map (fun r0 => nth j r0 NaN) rows))
                                       (length rows))).
      2:{ intros j. rewrite mean1_nonempty by (subst rows; discriminate).
          rewrite length_map. reflexivity. }
      rewrite !mean1_nonempty.
      * rewrite length_map, length_seq.
        rewrite (fsum_map_fdivn (fun j => fsum (map (fun r0 => nth j r0 NaN) rows))).
        rewrite (column_sums c rows Hall), fdivn_fdivn, Hlen. reflexivity.
      * subst c. discriminate.
      * intros E. rewrite E in Hlen. simpl in Hlen. lia.
Qed.

Lemma skipn_cons_nth {A} (l : list A) (k : nat) :
  (k < length l)%nat ->
  exists x, nth_error l k = Some x /\ skipn k l = x :: skipn (S k) l.
Proof.
  revert k. induction l as [| y l IH]; intros k Hk; [simpl in Hk; lia |].
  destruct k as [| k].
  - exists y. split; reflexivity.
  - destruct (IH k ltac:(simpl in Hk; lia)) as (x & Hx & Hs).
    exists x. split; [exact Hx | exact Hs].
Qed.

Section HeadsFacts.
Context {CatOut CatTarget : Type}.
Variable mse bce : tensor2 -> tensor2 -> tensor2.
Variable cce : CatOut -> CatTarget -> list fl.

Lemma cce_loop_spec (n : nat) :
  forall k (cat : list CatOut) (cat_target : list CatTarget) cce_loss net_loss,
    length cat = (k + n)%nat ->
    length cat_target = (k + n)%nat ->
    let means := map (fun p => mean1 (cce (fst p) (snd p)))
                     (combine (skipn k cat) (skipn k cat_target)) in
    cce_loop cce (seq k n) cat cat_target cce_loss net_loss
    = Ok (cce_loss ++ means, net_loss ++ means).
Proof.
  induction n as [| n IH]; intros k cat tgt cl nl Hc Ht; cbv zeta.
  - rewrite !skipn_all2 by lia. cbn. rewrite !app_nil_r. reflexivity.
  - cbn [seq cce_loop].
    destruct (skipn_cons_nth cat k ltac:(lia)) as (o & Ho & Hso).
    destruct (skipn_cons_nth tgt k ltac:(lia)) as (t & Hto & Hst).
    unfold list_item. rewrite Ho, Hto. cbn [bind].
    rewrite (IH (S k)) by lia. rewrite Hso, Hst. cbn [combine map fst snd].
    rewrite <- !app_assoc. reflexivity.
Qed.

(** C1: for a batch whose categorical outputs and targets match the
    registry and whose per-cell numeric and binary losses are rectangular,
    [_compute_loss_from_targets] returns the mean numeric loss, the mean
    binary loss and the list of per-column mean cross-entropies; the scalar
    [_do_backward] differentiates is their sum (the two means plus the sum
    of the list); the net loss it reports is the plain mean of the flat
    list of per-unit losses (one per numeric column, one per binary column,
    one per categorical column), which is also the list handed to the
    logger when there is one to log to; and each type-level mean is the mean
    of that type's per-unit losses.  This is for a call that does not log, or
    an object whose logger is [None] or was built; when the call is to log
    and the logger is still the name given to [__init__], the losses are
    computed and the call then raises [AttributeError] at the logger. *)
Theorem optimized_sum_and_reported_mean
  (self : AutoEncoder) (training : bool)
  (num bin : tensor2) (cat : list CatOut)
  (num_target bin_target : tensor2) (cat_target : list CatTarget)
  (should_log _id : bool) :
  length cat = length (categorical_fts self) ->
  length cat_target = length (categorical_fts self) ->
  well_shaped (mse num num_target) ->
  well_shaped (bce bin bin_target) ->
  let unit_num := mean_dim0 (mse num num_target) in
  let unit_bin := mean_dim0 (bce bin bin_target) in
  let unit_cat := map (fun p => mean1 (cce (fst p) (snd p))) (combine cat cat_target) in
  ((should_log = true -> forall name, logger self <> LoggerName name) ->
   exists mse_loss bce_loss cce_loss net_loss logged,
    _compute_loss_from_targets mse bce cce self training num bin cat
                               num_target bin_target cat_target should_log _id
    = Ok (mse_loss, bce_loss, cce_loss, net_loss, logged) /\
    mse_loss = mean_all (mse num num_target) /\
    bce_loss = mean_all (bce bin bin_target) /\
    cce_loss = unit_cat /\
    mse_loss = mean1 unit_num /\
    bce_loss = mean1 unit_bin /\
    _do_backward mse_loss bce_loss cce_loss
    = fadd (fadd mse_loss bce_loss) (fsum unit_cat) /\
    net_loss = mean1 (unit_num ++ unit_bin ++ unit_cat) /\
    (forall losses,
       logged = Some (TrainingStep losses) \/ logged = Some (IdValStep losses) \/
       logged = Some (ValStep losses) ->
       losses = unit_num ++ unit_bin ++ unit_cat) /\
    logged
    = (if should_log && negb (match logger self with NoLogger => true | _ => false end)
       then Some ((if training then TrainingStep
                   else if _id then IdValStep else ValStep)
                    (unit_num ++ unit_bin ++ unit_cat))
       else None)) /\
  (should_log = true -> (exists name, logger self = LoggerName name) ->
   _compute_loss_from_targets mse bce cce self training num bin cat
                              num_target bin_target cat_target should_log _id
   = Raise AttributeError).
Proof.
  intros Hc Ht Hm Hb unit_num unit_bin unit_cat.
  unfold _compute_loss_from_targets.
  rewrite (cce_loop_spec (length (categorical_fts self)) 0 cat cat_target)
    by (simpl; assumption).
  cbn [skipn bind fst snd app]. fold unit_num unit_bin unit_cat.
  split.
  - intros Hlog.
    pose proof (mean_all_is_mean_of_column_means _ Hm) as Km.
    pose proof (mean_all_is_mean_of_column_means _ Hb) as Kb.
    assert (Kd : _do_backward (mean_all (mse num num_target)) (mean_all (bce bin bin_target))
                              unit_cat
                 = fadd (fadd (mean_all (mse num num_target))
                              (mean_all (bce bin bin_target)))
                        (fsum unit_cat))
      by (unfold _do_backward; apply fold_left_fadd).
    destruct should_log;
      [specialize (Hlog eq_refl);
       destruct (logger self) as [| name | fts | fts | fts];
       [| exfalso; exact (Hlog name eq_refl) | | |] |];
      destruct training; destruct _id; cbn [logger_step bind andb negb];
      (eexists _, _, _, _, _; split; [reflexivity |]);
      rewrite <- app_assoc;
      (split; [reflexivity |]); (split; [reflexivity |]); (split; [reflexivity |]);
      (split; [exact Km |]); (split; [exact Kb |]); (split; [exact Kd |]);
      (split; [reflexivity |]);
      (split; [| reflexivity]);
      intros losses [H | [H | H]]; inversion H; reflexivity.
  - intros -> [name ->]. destruct training; [| destruct _id]; reflexivity.
Qed.
End HeadsFacts.

Lemma fl_is (a : fl) (q : Qc) :
  match a with Some x => Qeq_bool x q | None => false end = true -> a = Some q.
Proof.
  destruct a as [x |]; [| discriminate]. intros H. f_equal.
  apply Qc_is_canon. apply Qeq_bool_iff. exact H.
Qed.

Lemma optimized_sum_and_reported_mean_witness :
  exists mse_loss bce_loss cce_loss net_loss logged,
    _compute_loss_from_targets scenario_mse scenario_bce scenario_cce
      small_batch_autoencoder true empty_tensor empty_tensor [tt]
      empty_tensor empty_tensor [tt] true false
    = Ok (mse_loss, bce_loss, cce_loss, net_loss, logged) /\
    net_loss = Some (Q2Qc (25 # 100)) /\
    mse_loss = Some (Q2Qc (2 # 10)) /\
    bce_loss = Some (Q2Qc (2 # 10)) /\
    cce_loss = [Some (Q2Qc (4 # 10))] /\
    _do_backward mse_loss bce_loss cce_loss = Some (Q2Qc (8 # 10)).
Proof.
  destruct (optimized_sum_and_reported_mean scenario_mse scenario_bce scenario_cce
              small_batch_autoencoder true empty_tensor empty_tensor [tt]
              empty_tensor empty_tensor [tt] true false)
    as [Hok _].
  - reflexivity.
  - reflexivity.
  - repeat constructor.
  - repeat constructor.
  - destruct (Hok (fun _ name => ltac:(discriminate)))
      as (m & b & c & n & lg & E & _ & _ & Hc & Hm & Hb & Hd & Hn & _).
    exists m, b, c, n, lg. split; [exact E |].
    rewrite Hd. subst m b c n.
    split; [apply fl_is; vm_compute; reflexivity |].
    split; [apply fl_is; vm_compute; reflexivity |].
    split; [apply fl_is; vm_compute; reflexivity |].
    split; [| apply fl_is; vm_compute; reflexivity].
    refine (f_equal (fun x => [x])
              (_ : mean1 (scenario_cce tt tt) = Some (Q2Qc (4 # 10)))).
    apply fl_is. vm_compute. reflexivity.
Defined.


(** * Further properties *)

(** ** One-hot encoding *)

Import Baseline.

(** The one-hot row of width [dim] with its 1 at column [k]. *)
Lemma insert_repeat_zero (dim k : nat) :
  (k < dim)%nat ->
  <[k := Q2Qc 1]> (repeat (Q2Qc 0) dim)
  = repeat (Q2Qc 0) k ++ Q2Qc 1 :: repeat (Q2Qc 0) (dim - k - 1).
Proof.
  revert k. induction dim as [| dim IH]; intros k Hk; [lia |].
  destruct k as [| k]; simpl.
  - rewrite ?Nat.sub_0_r. reflexivity.
  - f_equal. apply IH. lia.
Qed.

Lemma scatter_zero_rows (dim : nat) (input_vector : list Z) :
  Forall (fun y => (0 <= y < Z.of_nat dim)%Z) input_vector ->
  forall n, (length input_vector <= n)%nat ->
    scatter_ (repeat (repeat (Q2Qc 0) dim) n) input_vector
    = Ok (map (fun y => repeat (Q2Qc 0) (Z.to_nat y)
                        ++ Q2Qc 1 :: repeat (Q2Qc 0) (dim - Z.to_nat y - 1))
              input_vector
          ++ repeat (repeat (Q2Qc 0) dim) (n - length input_vector)).
Proof.
  induction 1 as [| y ys Hy Hys IH]; intros n Hn.
  - cbn. rewrite Nat.sub_0_r. destruct n; reflexivity.
  - destruct n as [| n]; [simpl in Hn; lia |].
    cbn [repeat scatter_ length map app]. unfold scatter_one.
    rewrite repeat_length.
    destruct (Z.leb_spec 0 y); [| lia]. destruct (Z.ltb_spec y (Z.of_nat dim)); [| lia].
    cbn [andb bind]. rewrite IH by (simpl in Hn; lia). cbn [bind].
    rewrite insert_repeat_zero by lia. reflexivity.
Qed.

Lemma scatter_out_of_range (input_vector : list Z) :
  forall rows,
    Forall (fun row => length row = length (hd [] rows)) rows ->
    Exists (fun y => (y < 0 \/ Z.of_nat (length (hd [] rows)) <= y)%Z) input_vector ->
    scatter_ rows input_vector = Raise RuntimeError.
Proof.
  induction input_vector as [| y ys IH]; intros rows Hrows Hex.
  - inversion Hex.
  - destruct rows as [| row rest]; [reflexivity |].
    cbn [scatter_]. unfold scatter_one. cbn [hd] in *.
    inversion Hrows as [| ? ? _ Hrest]; subst.
    destruct (Z.leb_spec 0 y); [| reflexivity].
    destruct (Z.ltb_spec y (Z.of_nat (length row))); [| reflexivity].
    cbn [andb bind]. inversion Hex as [? ? Hy | ? ? Hys]; subst; [lia |].
    destruct rest as [| row' rest'].
    + destruct ys; [inversion Hys | reflexivity].
    + rewrite IH; [reflexivity | |].
      * inversion Hrest as [| ? ? Hr' Hrest']; subst. cbn [hd].
        constructor; [reflexivity |].
        eapply List.Forall_impl; [| exact Hrest']. intros r Hr. cbn in Hr. congruence.
      * inversion Hrest; subst. cbn [hd].
        eapply List.Exists_impl; [| exact Hys]. intros z Hz. cbn in Hz. lia.
Qed.

(** X1: [_ohe] returns, for codes that all lie in [0 .. dim-1], one row per
    code, each of width [dim] with a single 1 at the code's column and zeros
    elsewhere; a code outside that range (negative codes included) makes
    [scatter_] raise [RuntimeError]. *)
Theorem ohe_rows_are_one_hot (input_vector : list Z) (dim : nat) :
  (Forall (fun y => (0 <= y < Z.of_nat dim)%Z) input_vector ->
   _ohe input_vector dim
   = Ok (map (fun y => repeat (Q2Qc 0) (Z.to_nat y)
                       ++ Q2Qc 1 :: repeat (Q2Qc 0) (dim - Z.to_nat y - 1))
             input_vector)) /\
  (Exists (fun y => (y < 0 \/ Z.of_nat dim <= y)%Z) input_vector ->
   _ohe input_vector dim = Raise RuntimeError).
Proof.
  unfold _ohe. split.
  - intros Hall. rewrite (scatter_zero_rows dim input_vector Hall _ (le_n _)).
    rewrite Nat.sub_diag. cbn [repeat]. rewrite app_nil_r. reflexivity.
  - intros Hex. apply scatter_out_of_range.
    + apply List.Forall_forall. intros row Hin. apply repeat_spec in Hin. subst row.
      destruct input_vector; [inversion Hex |]. cbn. reflexivity.
    + destruct input_vector as [| y ys]; [inversion Hex |].
      cbn [length repeat hd]. rewrite repeat_length. exact Hex.
Qed.

Lemma ohe_rows_are_one_hot_witness :
  _ohe [2; 0]%Z 3
  = Ok [[Q2Qc 0; Q2Qc 0; Q2Qc 1]; [Q2Qc 1; Q2Qc 0; Q2Qc 0]] /\
  _ohe [1; 3]%Z 3 = Raise RuntimeError.
Proof.
  split.
  - apply (proj1 (ohe_rows_are_one_hot [2; 0]%Z 3)).
    repeat constructor; lia.
  - apply (proj2 (ohe_rows_are_one_hot [1; 3]%Z 3)).
    right. left. right. simpl. lia.
Defined.

(** ** Categorical codes through identity-like logits *)

Lemma argmax_from_cold (m : nat) (best_i i : nat) (best : Qc) :
  Qle_bool cold best = true ->
  argmax_from best_i best i (repeat cold m) = best_i.
Proof.
  intros Hb. revert i. induction m as [| m IH]; intros i; cbn [repeat argmax_from].
  - reflexivity.
  - rewrite Hb. apply IH.
Qed.

Lemma argmax_from_one_hot (j m : nat) :
  forall best_i i,
    argmax_from best_i cold i (repeat cold j ++ hot :: repeat cold m) = (i + j)%nat.
Proof.
  induction j as [| j IH]; intros best_i i; cbn [repeat app argmax_from].
  - change (Qle_bool hot cold) with false. cbn iota.
    rewrite argmax_from_cold by reflexivity. lia.
  - change (Qle_bool cold cold) with true. cbn iota. rewrite IH. lia.
Qed.

Lemma argmax_one_hot (k m : nat) :
  argmax (repeat cold k ++ hot :: repeat cold m) = Ok k.
Proof.
  destruct k as [| k]; cbn [repeat app argmax].
  - rewrite argmax_from_cold by reflexivity. reflexivity.
  - rewrite argmax_from_one_hot. reflexivity.
Qed.

Lemma argmax_all_cold (n : nat) : argmax (repeat cold (S n)) = Ok 0%nat.
Proof. cbn [repeat argmax]. rewrite argmax_from_cold by reflexivity. reflexivity. Qed.

Lemma removelast_repeat {A} (x : A) (m : nat) : removelast (repeat x (S m)) = repeat x m.
Proof.
  induction m as [| m IH]; [reflexivity |].
  change (repeat x (S (S m))) with (x :: repeat x (S m)).
  change (removelast (x :: repeat x (S m))) with (x :: removelast (repeat x (S m))).
  rewrite IH. reflexivity.
Qed.

Lemma scale_one_hot (k m : nat) :
  map (fun x => (x * Q2Qc 5)%Qc) (repeat (Q2Qc 0) k ++ Q2Qc 1 :: repeat (Q2Qc 0) m)
  = repeat cold k ++ hot :: repeat cold m.
Proof.
  rewrite map_app. cbn [map]. rewrite !map_repeat. reflexivity.
Qed.

(** Decoding the identity-like logits of one code. *)
Lemma decode_one_hot (feature : categorical_feature) (k : nat) :
  (k <= length (cats feature))%nat ->
  decode_categorical_row feature
    (repeat cold k ++ hot :: repeat cold (length (cats feature) + 1 - k - 1))
  = Ok (if Nat.ltb k (length (cats feature))
        then nth k (cats feature) other
        else hd other (cats feature)).
Proof.
  intros Hk. unfold decode_categorical_row, decode_categorical_code.
  remember (length (cats feature)) as n eqn:En.
  destruct n as [| n].
  - assert (k = 0%nat) as -> by lia. cbn.
    destruct (cats feature) as [| c cs] eqn:Ec; [reflexivity | discriminate En].
  - change (Nat.ltb 0 (S n)) with true. cbn iota.
    destruct (Nat.ltb_spec k (S n)) as [Hlt | Hge].
    + replace (S n + 1 - k - 1)%nat with (S (n - k)) by lia.
      rewrite removelast_app by discriminate.
      change (removelast (hot :: repeat cold (S (n - k))))
        with (hot :: removelast (repeat cold (S (n - k)))).
      rewrite removelast_repeat, argmax_one_hot. cbn [bind]. unfold list_item.
      rewrite nth_error_app1 by lia.
      rewrite (nth_error_nth' _ other) by lia. reflexivity.
    + assert (k = S n) as -> by lia.
      replace (S n + 1 - S n - 1)%nat with 0%nat by lia.
      change (repeat cold 0) with (@nil Qc).
      rewrite removelast_last, argmax_all_cold. cbn [bind]. unfold list_item.
      destruct (cats feature) as [| c cs]; [discriminate En | reflexivity].
Qed.

Lemma ohe_in_range (input_vector : list Z) (dim : nat) :
  Forall (fun y => (0 <= y < Z.of_nat dim)%Z) input_vector ->
  _ohe input_vector dim
  = Ok (map (fun y => repeat (Q2Qc 0) (Z.to_nat y)
                      ++ Q2Qc 1 :: repeat (Q2Qc 0) (dim - Z.to_nat y - 1))
            input_vector).
Proof.
  intros Hall. unfold _ohe.
  rewrite (scatter_zero_rows dim input_vector Hall _ (le_n _)).
  rewrite Nat.sub_diag. cbn [repeat]. rewrite app_nil_r. reflexivity.
Qed.

(** The position [prepare_df] codes a cell with. *)
Lemma cell_position (feature : categorical_feature) (cell : option string) :
  exists k,
    (k <= length (cats feature))%nat /\
    match cell with
    | Some v =>
        match index_of v (cats feature) with
        | Some i => Z.of_nat i
        | None => Z.of_nat (length (cats feature))
        end
    | None => Z.of_nat (length (cats feature))
    end = Z.of_nat k /\
    (if Nat.ltb k (length (cats feature))
     then nth k (cats feature) other
     else hd other (cats feature)) = decoded_cell feature cell.
Proof.
  unfold decoded_cell. destruct cell as [v |].
  - destruct (index_of v (cats feature)) as [i |] eqn:Ei.
    + apply index_of_Some in Ei as [Hn Hl]. exists i.
      split; [lia |]. split; [reflexivity |].
      destruct (Nat.ltb_spec i (length (cats feature))); [| lia].
      apply nth_error_nth. exact Hn.
    + exists (length (cats feature)). split; [lia |]. split; [reflexivity |].
      rewrite Nat.ltb_irrefl. reflexivity.
  - exists (length (cats feature)). split; [lia |]. split; [reflexivity |].
    rewrite Nat.ltb_irrefl. reflexivity.
Qed.

(** X2: the codes [prepare_df] gives a categorical column are always valid
    indices for [_ohe] with [len(cats) + 1] classes, so building the
    baseline logits never raises; and decoding those identity-like logits
    with [_decode_outputs_to_df] returns every kept category as itself, while
    every other cell (a rare or unseen value, a missing cell) comes back as
    the first category, or as [_other] only when the feature has no category
    at all. *)
Theorem categorical_codes_round_trip
  (ft : string) (feature : categorical_feature) (values : list (option string)) :
  List.NoDup (cats feature) ->
  ~ In other (cats feature) ->
  exists c logits,
    prepare_categorical_column feature values = Ok c /\
    Forall (fun k => (0 <= k <= Z.of_nat (length (cats feature)))%Z) (codes c) /\
    baseline_logits [codes c] [(ft, feature)] = Ok [logits] /\
    decode_categorical_column feature logits = Ok (map (decoded_cell feature) values).
Proof.
  intros Hnd Hno.
  destruct (prepare_categorical_column_codes feature values Hnd Hno)
    as (c & Hc & _ & Hcodes).
  assert (Hrange : Forall (fun k => (0 <= k <= Z.of_nat (length (cats feature)))%Z)
                          (codes c)).
  { rewrite Hcodes. apply List.Forall_forall. intros k Hin.
    apply in_map_iff in Hin as (x & <- & _).
    destruct (cell_position feature x) as (j & Hj & -> & _). lia. }
  exists c. eexists. split; [exact Hc |]. split; [exact Hrange |].
  cbn [baseline_logits].
  rewrite ohe_in_range.
  2:{ eapply List.Forall_impl; [| exact Hrange]. intros k Hk. cbn in Hk |- *. lia. }
  cbn [bind]. split; [reflexivity |].
  rewrite Hcodes. rewrite !map_map.
  clear Hc Hcodes Hrange c.
  induction values as [| x values IH]; [reflexivity |].
  cbn [map decode_categorical_column].
  destruct (cell_position feature x) as (j & Hj & -> & Hlabel).
  rewrite Nat2Z.id, scale_one_hot.
  rewrite (decode_one_hot feature j Hj), IH. cbn [bind]. rewrite Hlabel. reflexivity.
Qed.

Lemma categorical_codes_round_trip_witness :
  exists c logits,
    prepare_categorical_column {| cats := ["a"; "b"] |} [Some "b"; Some "zzz"; None] = Ok c /\
    baseline_logits [codes c] [("kind", {| cats := ["a"; "b"] |})] = Ok [logits] /\
    decode_categorical_column {| cats := ["a"; "b"] |} logits = Ok ["b"; "a"; "a"].
Proof.
  destruct (categorical_codes_round_trip "kind" {| cats := ["a"; "b"] |}
              [Some "b"; Some "zzz"; None])
    as (c & logits & Hc & _ & Hl & Hd).
  - repeat constructor; simpl; intuition discriminate.
  - simpl. intuition discriminate.
  - exists c, logits. split; [exact Hc |]. split; [exact Hl | exact Hd].
Defined.

(** ** Baseline performance *)

Lemma cell_is_eq (a q : Qc) : cell_is (Some a) q = true <-> a = q.
Proof.
  unfold cell_is. rewrite Qeq_bool_iff. split.
  - apply Qc_is_canon.
  - intros ->. reflexivity.
Qed.

Lemma cell_is_false (a q : Qc) : a <> q -> cell_is (Some a) q = false.
Proof.
  intros Hne. destruct (cell_is (Some a) q) eqn:E; [| reflexivity].
  apply cell_is_eq in E. contradiction.
Qed.

Lemma smooth_cell_never_binary (x : fl) :
  cell_is (smooth_cell x) (Q2Qc 0) = false /\ cell_is (smooth_cell x) (Q2Qc 1) = false.
Proof.
  destruct x as [q |]; [| split; reflexivity].
  unfold smooth_cell.
  destruct (cell_is (Some q) (Q2Qc 0)) eqn:E0.
  - apply cell_is_eq in E0. subst q. split; vm_compute; reflexivity.
  - cbn [fadd]. rewrite Qcplus_0_r.
    destruct (cell_is (Some q) (Q2Qc 1)) eqn:E1.
    + apply cell_is_eq in E1. subst q. split; vm_compute; reflexivity.
    + cbn [fadd]. rewrite Qcplus_0_r. split; assumption.
Qed.

Lemma smooth_cell_spec (x : fl) :
  smooth_cell x
  = if cell_is x (Q2Qc 0) then Some (Q2Qc (5 # 100))
    else if cell_is x (Q2Qc 1) then Some (Q2Qc (95 # 100))
    else x.
Proof.
  destruct x as [q |]; [| reflexivity].
  destruct (cell_is (Some q) (Q2Qc 0)) eqn:E0.
  - apply cell_is_eq in E0. subst q. apply fl_is. vm_compute. reflexivity.
  - destruct (cell_is (Some q) (Q2Qc 1)) eqn:E1.
    + apply cell_is_eq in E1. subst q. apply fl_is. vm_compute. reflexivity.
    + unfold smooth_cell. rewrite E0. cbn [fadd]. rewrite Qcplus_0_r.
      rewrite E1. cbn [fadd]. rewrite Qcplus_0_r. reflexivity.
Qed.

Lemma smooth_cell_idempotent (x : fl) : smooth_cell (smooth_cell x) = smooth_cell x.
Proof.
  destruct (smooth_cell_never_binary x) as [H0 H1].
  unfold smooth_cell at 1. rewrite H0. rewrite fadd_zero_r. rewrite H1.
  apply fadd_zero_r.
Qed.

Lemma smooth_binary_idempotent (t : tensor2) :
  smooth_binary (smooth_binary t) = smooth_binary t.
Proof.
  unfold smooth_binary. cbn [ncols rows]. f_equal.
  rewrite map_map. apply map_ext. intros r.
  rewrite map_map. apply map_ext. intros x. apply smooth_cell_idempotent.
Qed.

Section BaselineFacts.
Variable mse bce : tensor2 -> tensor2 -> tensor2.
Variable cce : list (list Qc) -> list Z -> list fl.

(** X3: [_compute_batch_baseline_performance] overwrites [bin_swapped] in
    place, moving every 0 to 0.05 and every 1 to 0.95 and leaving every
    other cell as it is.  What it leaves holds no 0 and no 1, and evaluating
    the same batch again, with the tensor as the first call left it, gives
    the same net loss and leaves the tensor unchanged. *)
Theorem baseline_can_be_recomputed (self : AutoEncoder) (b : val_batch)
  (loss : fl) (bin' : tensor2) :
  _compute_batch_baseline_performance mse bce cce self b = Ok (loss, bin') ->
  ncols bin' = ncols (bin_swapped b) /\
  rows bin'
  = map (map (fun x : fl =>
                if cell_is x (Q2Qc 0) then Some (Q2Qc (5 # 100))
                else if cell_is x (Q2Qc 1) then Some (Q2Qc (95 # 100))
                else x))
        (rows (bin_swapped b)) /\
  Forall (Forall (fun x => cell_is x (Q2Qc 0) = false /\ cell_is x (Q2Qc 1) = false))
         (rows bin') /\
  _compute_batch_baseline_performance mse bce cce self
    {| size := size b;
       num_swapped := num_swapped b;
       bin_swapped := bin';
       cat_swapped := cat_swapped b;
       num_target := num_target b;
       bin_target := bin_target b;
       cat_target := cat_target b |}
  = Ok (loss, bin').
Proof.
  unfold _compute_batch_baseline_performance. cbn [bin_swapped num_swapped
    cat_swapped num_target bin_target cat_target].
  destruct (baseline_logits (cat_swapped b) (categorical_fts self)) as [lg | e];
    [| discriminate].
  cbn [bind].
  destruct (_compute_loss_from_targets mse bce cce self false (num_swapped b)
              (smooth_binary (bin_swapped b)) lg (num_target b) (bin_target b)
              (cat_target b) false false) as [r | e] eqn:E; [| discriminate].
  cbn [bind]. intros H. inversion H; subst loss bin'. clear H.
  split; [reflexivity |]. split.
  { cbn [smooth_binary rows]. apply map_ext. intros r0. apply map_ext.
    intros x. apply smooth_cell_spec. }
  split.
  - cbn [smooth_binary rows]. apply List.Forall_forall. intros r0 Hr.
    apply in_map_iff in Hr as (r1 & <- & _).
    apply List.Forall_forall. intros x Hx.
    apply in_map_iff in Hx as (x1 & <- & _). apply smooth_cell_never_binary.
  - rewrite smooth_binary_idempotent, E. reflexivity.
Qed.

Lemma baseline_loop_sum (self : AutoEncoder) (dataset : list val_batch) (losses : list fl) :
  Forall2 (fun b l => exists t,
             _compute_batch_baseline_performance mse bce cce self b = Ok (l, t))
          dataset losses ->
  forall loss_sum sample_count,
    baseline_loop mse bce cce self dataset loss_sum sample_count
    = Ok (fadd loss_sum (fsum losses),
          (sample_count + fold_right Z.add 0 (map size dataset))%Z).
Proof.
  induction 1 as [| b l bs ls [t Hb] _ IH]; intros loss_sum sample_count.
  - cbn. rewrite fadd_zero_r, Z.add_0_r. reflexivity.
  - cbn [baseline_loop map fold_right fsum]. rewrite Hb. cbn [bind fst].
    rewrite IH. fold (fsum ls). rewrite fadd_assoc, Z.add_assoc. reflexivity.
Qed.

(** X4: [_compute_baseline_performance_from_dataset] raises
    [ZeroDivisionError] on a dataset without batches; otherwise it returns
    the sum of the batches' net losses divided by the total number of rows
    (not by the number of batches), with numpy's infinities and NaN when that
    number is zero. *)
Theorem baseline_is_the_loss_sum_over_the_row_count
  (self : AutoEncoder) (dataset : list val_batch) (losses : list fl) :
  _compute_baseline_performance_from_dataset mse bce cce self [] = Raise ZeroDivisionError /\
  (dataset <> [] ->
   Forall2 (fun b l => exists t,
              _compute_batch_baseline_performance mse bce cce self b = Ok (l, t))
           dataset losses ->
   _compute_baseline_performance_from_dataset mse bce cce self dataset
   = Ok (np_div (fsum losses) (fold_right Z.add 0 (map size dataset)))).
Proof.
  split; [reflexivity |].
  intros Hne Hall. unfold _compute_baseline_performance_from_dataset.
  rewrite (baseline_loop_sum self dataset losses Hall). cbn [bind fst snd].
  rewrite fadd_zero_l. destruct dataset; [congruence | reflexivity].
Qed.
End BaselineFacts.

Lemma baseline_can_be_recomputed_witness :
  exists loss bin',
    _compute_batch_baseline_performance scenario_mse scenario_bce scenario_cce_codes
      small_batch_autoencoder sample_val_batch = Ok (loss, bin') /\
    rows bin' = [[Some (Q2Qc (5 # 100))]; [Some (Q2Qc (95 # 100))]] /\
    _compute_batch_baseline_performance scenario_mse scenario_bce scenario_cce_codes
      small_batch_autoencoder
      {| size := 2; num_swapped := empty_tensor; bin_swapped := bin';
         cat_swapped := [[0; 1]%Z]; num_target := empty_tensor;
         bin_target := bin_target sample_val_batch; cat_target := [[0; 1]%Z] |}
    = Ok (loss, bin').
Proof.
  eexists. eexists.
  match goal with
  | |- ?E /\ _ => assert (HE : E) by (vm_compute; reflexivity)
  end.
  split; [exact HE |].
  destruct (baseline_can_be_recomputed scenario_mse scenario_bce scenario_cce_codes
              small_batch_autoencoder sample_val_batch _ _ HE)
    as (_ & Hrows & _ & Hagain).
  split; [| exact Hagain].
  etransitivity; [exact Hrows |]. reflexivity.
Defined.

Lemma baseline_is_the_loss_sum_over_the_row_count_witness :
  exists l,
    _compute_baseline_performance_from_dataset scenario_mse scenario_bce scenario_cce_codes
      small_batch_autoencoder [sample_val_batch; sample_val_batch]
    = Ok (np_div (fsum [l; l]) 4).
Proof.
  assert (HE : exists l t,
             _compute_batch_baseline_performance scenario_mse scenario_bce
               scenario_cce_codes small_batch_autoencoder sample_val_batch = Ok (l, t)).
  { eexists. eexists. vm_compute. reflexivity. }
  destruct HE as (l & t & HE). exists l.
  apply (proj2 (baseline_is_the_loss_sum_over_the_row_count
                  scenario_mse scenario_bce scenario_cce_codes small_batch_autoencoder
                  [sample_val_batch; sample_val_batch] [l; l])).
  - discriminate.
  - repeat constructor; exists t; exact HE.
Defined.

(** ** More on early stopping *)




Section MoreEarlyStopping.
Variable validate : nat -> vloss.
Variable all_gather0 : nat -> bool -> bool.




End MoreEarlyStopping.



Section Followers.
Variable validate : nat -> vloss.
Variable all_gather0 : nat -> bool -> bool.



End Followers.


(** ** The numeric registry *)

(** X8: the [scaler] name is not checked by [__init__]; an unknown name
    makes [_init_numeric] raise [KeyError] at the first numeric column of the
    training frame, and goes unnoticed (the registry is left as it was) when
    the frame has no numeric column. *)
Theorem unknown_scaler_name_surfaces_at_the_first_numeric_column
  (name : string) (d : DataFrame) (w : world) (a : init_args) :
  ~ In (Some name) known_scaler_names ->
  scaler_arg (obj w) = ScalerStr name ->
  preset_numerical_scaler_params (obj w) = None ->
  (In (a_loss_scaler a) known_scaler_names -> a_scaler a = ScalerStr name ->
   exists self, __init__ a = Ok self /\ scaler_arg self = ScalerStr name) /\
  (select_dtypes is_num d <> [] ->
   _init_numeric (Some d) w = (Raise KeyError, w)) /\
  (select_dtypes is_num d = [] ->
   exists w', _init_numeric (Some d) w = (Ok tt, w') /\
              numeric_fts (obj w') = numeric_fts (obj w) /\ num_names (obj w') = OD.keys (numeric_fts (obj w))).
Proof.
  intros Hname Hs Hp. split; [| split].
  - intros Hl Ha. destruct (get_scaler_known _ Hl) as (c & Hc).
    unfold __init__. rewrite Hc. cbn [bind]. eexists. split; [reflexivity |].
    cbn. exact Ha.
  - intros Hnum. unfold _init_numeric. unfold bindM at 1. unfold get_self.
    rewrite Hp. unfold bindM at 1.
    destruct (select_dtypes is_num d) as [| ft rest]; [congruence |].
    cbn [for_each]. unfold bindM at 1. unfold bindM at 1. unfold get_self.
    rewrite Hs. cbn [local_scalers]. unfold bindM at 1.
    rewrite (get_scaler_unknown _ Hname). reflexivity.
  - intros Hnum. unfold _init_numeric. unfold bindM at 1. unfold get_self.
    rewrite Hp. unfold bindM at 1. rewrite Hnum. cbn [for_each ret modify].
    eexists. split; [reflexivity |]. split; reflexivity.
Qed.

Lemma unknown_scaler_name_surfaces_at_the_first_numeric_column_witness :
  _init_numeric (Some sample_df) (fresh (odd_autoencoder "robust" "adam"))
  = (Raise KeyError, fresh (odd_autoencoder "robust" "adam")) /\
  exists w',
    _init_numeric (Some [("kind", ObjCol [Some "a"])])
                  (fresh (odd_autoencoder "robust" "adam")) = (Ok tt, w').
Proof.
  destruct (unknown_scaler_name_surfaces_at_the_first_numeric_column
              "robust" sample_df (fresh (odd_autoencoder "robust" "adam")) default_args)
    as (_ & Hraise & _); [simpl; intuition discriminate | reflexivity | reflexivity |].
  destruct (unknown_scaler_name_surfaces_at_the_first_numeric_column
              "robust" [("kind", ObjCol [Some "a"])]
              (fresh (odd_autoencoder "robust" "adam")) default_args)
    as (_ & _ & Hok); [simpl; intuition discriminate | reflexivity | reflexivity |].
  split.
  - apply Hraise. discriminate.
  - destruct (Hok eq_refl) as (w' & E & _). exists w'. exact E.
Defined.

(** X9: without a dataframe, an empty [preset_numerical_scaler_params]
    passes the guard of [_init_features] (it is not [None]) but is falsy in
    [_init_numeric], which then turns to the missing dataframe:
    [_init_features] raises [AttributeError], after the categorical presets
    were already assigned. *)
Theorem empty_numeric_preset_raises_AttributeError (w : world) pc bn :
  preset_cats (obj w) = Some pc ->
  bin_names (obj w) = Some bn ->
  preset_numerical_scaler_params (obj w) = Some [] ->
  _init_features None w
  = (Raise AttributeError,
     {| obj := set_categorical_fts pc (obj w); trace := trace w |}).
Proof.
  intros H1 H2 H3.
  rewrite (init_features_guard_passes w pc bn [] H1 H2 H3).
  unfold bindM at 1. cbn [modify]. unfold bindM at 1.
  unfold _init_numeric. unfold bindM at 1. unfold get_self. cbn [obj].
  change (preset_numerical_scaler_params (set_categorical_fts pc (obj w)))
    with (preset_numerical_scaler_params (obj w)).
  rewrite H3. reflexivity.
Qed.

Lemma empty_numeric_preset_raises_AttributeError_witness :
  fst (_init_features None (fresh empty_numeric_preset_autoencoder)) = Raise AttributeError.
Proof.
  rewrite (empty_numeric_preset_raises_AttributeError
             (fresh empty_numeric_preset_autoencoder)
             [("kind", {| cats := ["a"; "b"] |})] [] eq_refl eq_refl eq_refl).
  reflexivity.
Defined.

(** ** Which attributes the initialisers touch *)

Lemma preserves_ret {A B} (f : AutoEncoder -> B) (a : A) : preserves f (ret a).
Proof. intros w. reflexivity. Qed.

Lemma preserves_raise {A B} (f : AutoEncoder -> B) e : preserves f (@raise A e).
Proof. intros w. reflexivity. Qed.

Lemma preserves_emit {B} (f : AutoEncoder -> B) ev : preserves f (emit ev).
Proof. intros w. reflexivity. Qed.

Lemma preserves_lift {A B} (f : AutoEncoder -> B) (r : result A) : preserves f (lift r).
Proof. intros w. destruct r; reflexivity. Qed.

Lemma preserves_modify {B} (f : AutoEncoder -> B) (g : AutoEncoder -> AutoEncoder) :
  (forall s, f (g s) = f s) -> preserves f (modify g).
Proof. intros H w. cbn. apply H. Qed.

Lemma preserves_bind {A C B} (f : AutoEncoder -> B) (m : M A) (k : A -> M C) :
  preserves f m -> (forall a, preserves f (k a)) -> preserves f (bindM m k).
Proof.
  intros Hm Hk w. unfold bindM. specialize (Hm w).
  destruct (m w) as [[a | e] w1]; cbn [snd] in *.
  - rewrite (Hk a w1). exact Hm.
  - exact Hm.
Qed.

Lemma preserves_get_self {C B} (f : AutoEncoder -> B) (k : AutoEncoder -> M C) :
  (forall s, preserves f (k s)) -> preserves f (bindM get_self k).
Proof. intros Hk w. exact (Hk (obj w) w). Qed.

Lemma preserves_for_each {A B} (f : AutoEncoder -> B) (l : list A) (body : A -> M unit) :
  (forall x, preserves f (body x)) -> preserves f (for_each l body).
Proof.
  intros Hb. induction l as [| x l IH]; cbn [for_each].
  - apply preserves_ret.
  - apply preserves_bind; [apply Hb | intros _; exact IH].
Qed.

Ltac pres_tac :=
  repeat first
    [ apply preserves_get_self; intros ?
    | apply preserves_bind; [| intros ?]
    | apply preserves_for_each; intros ?
    | apply preserves_ret | apply preserves_raise | apply preserves_emit
    | apply preserves_lift
    | apply preserves_modify; intros ?; solve [auto]
    | match goal with
      | |- preserves _ (if ?c then _ else _) => destruct c
      | |- preserves _ (match ?c with _ => _ end) => destruct c
      end ].

Lemma init_numeric_preserves {B} (f : AutoEncoder -> B) df :
  (forall v s, f (set_numeric_fts v s) = f s) ->
  (forall v s, f (set_num_names v s) = f s) ->
  preserves f (_init_numeric df).
Proof. intros H1 H2. unfold _init_numeric. pres_tac. Qed.

Lemma init_binary_preserves {B} (f : AutoEncoder -> B) df :
  (forall v s, f (set_binary_fts v s) = f s) ->
  (forall v s, f (set_bin_names v s) = f s) ->
  preserves f (_init_binary df).
Proof. intros H1 H2. unfold _init_binary. pres_tac. Qed.

Lemma init_cats_preserves {B} (f : AutoEncoder -> B) df :
  (forall v s, f (set_categorical_fts v s) = f s) ->
  preserves f (_init_cats df).
Proof. intros H1. unfold _init_cats. pres_tac. Qed.

Lemma init_features_preserves {B} (f : AutoEncoder -> B) df :
  (forall v s, f (set_numeric_fts v s) = f s) ->
  (forall v s, f (set_num_names v s) = f s) ->
  (forall v s, f (set_binary_fts v s) = f s) ->
  (forall v s, f (set_bin_names v s) = f s) ->
  (forall v s, f (set_categorical_fts v s) = f s) ->
  preserves f (_init_features df).
Proof.
  intros H1 H2 H3 H4 H5. unfold _init_features.
  apply preserves_get_self; intros self.
  apply preserves_bind; [pres_tac | intros _].
  apply preserves_bind.
  - destruct (preset_cats self); [pres_tac | apply init_cats_preserves; exact H5].
  - intros _. apply preserves_bind; [apply init_numeric_preserves; assumption |].
    intros _. apply init_binary_preserves; assumption.
Qed.

(** ** Building the registry from presets *)

Lemma OD_keys_set_new {V} (d : list (string * V)) k v :
  ~ In k (OD.keys d) -> OD.keys (OD.set d k v) = OD.keys d ++ [k].
Proof.
  induction d as [| [k' v'] d IH]; simpl; intros Hn.
  - reflexivity.
  - destruct (String.eqb_spec k' k) as [-> | Hk].
    + exfalso. apply Hn. left. reflexivity.
    + simpl. f_equal. apply IH. intros H. apply Hn. right. exact H.
Qed.

Lemma init_numeric_presets_loop (ps : list (string * scaler_params)) :
  Forall (fun item =>
            In (scaler_type_or_default (scaler_type (snd item))) known_scaler_names) ps ->
  forall w, exists w',
    for_each ps (fun item =>
      let ft := fst item in
      let scaler_params := snd item in
      run! cls := lift (_get_scaler (scaler_type_or_default (scaler_type scaler_params))) in
      let scaler :=
        fold_left (fun s kv => scaler_setattr s (fst kv) (snd kv))
                  (scaler_attr_dict scaler_params) (new_scaler cls) in
      let feature := {| mean := sp_mean scaler_params;
                        std := StdGiven (sp_std scaler_params);
                        scaler := scaler |} in
      modify (fun self => set_numeric_fts (OD.set (numeric_fts self) ft feature) self)) w
    = (Ok tt, w') /\
    trace w' = trace w /\
    (forall ft, ~ In ft (map fst ps) ->
       OD.get (numeric_fts (obj w')) ft = OD.get (numeric_fts (obj w)) ft) /\
    (List.NoDup (map fst ps) ->
     forall ft sp, In (ft, sp) ps ->
       exists cls,
         _get_scaler (scaler_type_or_default (scaler_type sp)) = Ok cls /\
         OD.get (numeric_fts (obj w')) ft =
         Some {| mean := sp_mean sp;
                 std := StdGiven (sp_std sp);
                 scaler := fold_left (fun s kv => scaler_setattr s (fst kv) (snd kv))
                                     (scaler_attr_dict sp) (new_scaler cls) |}) /\
    (List.NoDup (OD.keys (numeric_fts (obj w)) ++ map fst ps) ->
     OD.keys (numeric_fts (obj w')) = OD.keys (numeric_fts (obj w)) ++ map fst ps).
Proof.
  induction 1 as [| [ft0 sp0] ps Hk Hks IH]; intros w; cbn [for_each].
  - exists w. split; [reflexivity |]. split; [reflexivity |].
    split; [reflexivity |]. split.
    + intros _ ft sp [].
    + intros _. simpl. rewrite app_nil_r. reflexivity.
  - cbn [fst snd] in *.
    destruct (get_scaler_known _ Hk) as (cls0 & Ecls).
    unfold bindM at 1. unfold bindM at 1. rewrite Ecls. cbn [lift ret modify].
    match goal with
    | |- context [for_each ps ?body ?w1] =>
        destruct (IH w1) as (w' & E & Htr & Hother & Hget & Hkeys)
    end.
    exists w'. split; [exact E |].
    cbn [obj trace numeric_fts set_numeric_fts] in *.
    split; [exact Htr |]. split; [| split].
    + intros ft Hn. rewrite (Hother ft).
      * apply OD_get_set_other. intros ->. apply Hn. left. reflexivity.
      * intros H. apply Hn. right. exact H.
    + intros Hnd ft sp Hin. cbn [map fst] in Hnd.
      apply List.NoDup_cons_iff in Hnd. destruct Hnd as [Hfresh Hnd].
      destruct Hin as [Heq | Hin].
      * inversion Heq; subst ft sp. exists cls0. split; [exact Ecls |].
        rewrite (Hother ft0 Hfresh). apply OD_get_set_same.
      * apply (Hget Hnd ft sp Hin).
    + intros Hnd. cbn [map fst] in Hnd.
      assert (Hfresh : ~ In ft0 (OD.keys (numeric_fts (obj w)))).
      { intros H. apply List.NoDup_remove_2 in Hnd. apply Hnd.
        apply in_or_app. left. exact H. }
      rewrite Hkeys.
      * rewrite (OD_keys_set_new _ _ _ Hfresh). rewrite <- app_assoc. reflexivity.
      * rewrite (OD_keys_set_new _ _ _ Hfresh). rewrite <- app_assoc. exact Hnd.
Qed.

Lemma bind_get_self {A} (k : AutoEncoder -> M A) (w : world) :
  bindM get_self k w = k (obj w) w.
Proof. reflexivity. Qed.

Lemma init_numeric_ignores_the_frame (w : world) p ps :
  preset_numerical_scaler_params (obj w) = Some (p :: ps) ->
  forall df, _init_numeric df w = _init_numeric None w.
Proof.
  intros H df. unfold _init_numeric. rewrite !bind_get_self.
  rewrite H. destruct df; reflexivity.
Qed.

Lemma init_binary_ignores_the_frame (w : world) bn :
  bin_names (obj w) = Some bn ->
  forall df, _init_binary df w = _init_binary None w.
Proof.
  intros H df. unfold _init_binary. rewrite !bind_get_self.
  rewrite H. destruct df; reflexivity.
Qed.

Lemma init_features_ignores_the_frame (w : world) pc bn p ps :
  preset_cats (obj w) = Some pc ->
  bin_names (obj w) = Some bn ->
  preset_numerical_scaler_params (obj w) = Some (p :: ps) ->
  forall df, _init_features df w = _init_features None w.
Proof.
  intros Hpc Hbn Hps df. unfold _init_features. rewrite !bind_get_self.
  rewrite Hpc, Hbn, Hps.
  replace (match df with Some _ => ret tt | None => ret tt end) with (@ret unit tt)
    by (destruct df; reflexivity).
  unfold bindM at 1. cbn [ret]. unfold bindM at 3. cbn [ret].
  unfold bindM at 1. cbn [modify]. unfold bindM at 2. cbn [modify].
  set (w1 := {| obj := set_categorical_fts pc (obj w); trace := trace w |}).
  assert (Hps1 : preset_numerical_scaler_params (obj w1) = Some (p :: ps)) by exact Hps.
  unfold bindM. rewrite (init_numeric_ignores_the_frame w1 p ps Hps1 df).
  pose proof (init_numeric_preserves bin_names None
                (fun _ _ => eq_refl) (fun _ _ => eq_refl) w1) as Hkeep.
  destruct (_init_numeric None w1) as [[u | e] w2]; [| reflexivity].
  cbn [snd] in Hkeep.
  apply (init_binary_ignores_the_frame w2 bn). rewrite Hkeep. exact Hbn.
Qed.

Lemma bind_run {A B} (m : M A) (k : A -> M B) w a w1 :
  m w = (Ok a, w1) -> bindM m k w = k a w1.
Proof. intros E. unfold bindM. rewrite E. reflexivity. Qed.

Lemma init_numeric_from_presets (w : world) p ps :
  preset_numerical_scaler_params (obj w) = Some (p :: ps) ->
  Forall (fun item =>
            In (scaler_type_or_default (scaler_type (snd item))) known_scaler_names)
         (p :: ps) ->
  List.NoDup (map fst (p :: ps)) ->
  numeric_fts (obj w) = [] ->
  exists w',
    _init_numeric None w = (Ok tt, w') /\
    trace w' = trace w /\
    num_names (obj w') = map fst (p :: ps) /\
    forall ft sp, In (ft, sp) (p :: ps) ->
      exists cls,
        _get_scaler (scaler_type_or_default (scaler_type sp)) = Ok cls /\
        OD.get (numeric_fts (obj w')) ft =
        Some {| mean := sp_mean sp;
                std := StdGiven (sp_std sp);
                scaler := fold_left (fun s kv => scaler_setattr s (fst kv) (snd kv))
                                    (scaler_attr_dict sp) (new_scaler cls) |}.
Proof.
  intros Hps Hk Hnd Hnum. unfold _init_numeric. rewrite bind_get_self. rewrite Hps.
  destruct (init_numeric_presets_loop (p :: ps) Hk w)
    as (w1 & E & Htr & _ & Hget & Hkeys).
  erewrite bind_run; [| exact E]. cbn [modify].
  eexists. split; [reflexivity |]. cbn [obj trace num_names set_num_names numeric_fts].
  split; [exact Htr |]. split.
  - rewrite Hkeys; rewrite Hnum; [reflexivity | exact Hnd].
  - intros ft sp Hin. exact (Hget Hnd ft sp Hin).
Qed.

Lemma init_binary_from_names (w : world) bn :
  bin_names (obj w) = Some bn ->
  binary_fts (obj w) = [] ->
  exists w',
    _init_binary None w = (Ok tt, w') /\
    trace w' = trace w /\
    bin_names (obj w') = Some bn /\
    forall ft, In ft bn -> OD.get (binary_fts (obj w')) ft = Some new_binary_feature.
Proof.
  intros Hbn Hbin. unfold _init_binary. rewrite bind_get_self. rewrite Hbn, Hbin.
  unfold bindM at 1. cbn [ret]. cbn [OD.keys map for_each].
  unfold bindM at 1. cbn [ret].
  destruct (register_binaries bn w) as (w' & E & Htr & Hnames & Hget).
  exists w'. split; [exact E |]. split; [exact Htr |]. split; [| exact Hget].
  rewrite Hnames. exact Hbn.
Qed.

(** X10: an object constructed with all three presets (a non-empty numeric
    one with distinct column names and known scaler types) and no feature
    registered yet builds its whole registry from them: [_init_features]
    succeeds, whatever frame it is given or none, logs nothing, takes the
    preset categories as they are, gives every preset column its mean, its
    standard deviation and a scaler of the named class with the preset
    attributes, names the numeric columns in preset order, and registers
    every listed binary column. *)
Theorem complete_presets_build_the_registry_whatever_the_frame
  (w : world) (pc : list (string * categorical_feature)) (bn : list string)
  (ps : list (string * scaler_params)) :
  preset_cats (obj w) = Some pc ->
  bin_names (obj w) = Some bn ->
  preset_numerical_scaler_params (obj w) = Some ps ->
  ps <> [] ->
  List.NoDup (map fst ps) ->
  Forall (fun item =>
            In (scaler_type_or_default (scaler_type (snd item))) known_scaler_names) ps ->
  numeric_fts (obj w) = [] ->
  binary_fts (obj w) = [] ->
  exists w',
    (forall df, _init_features df w = (Ok tt, w')) /\
    trace w' = trace w /\
    categorical_fts (obj w') = pc /\
    num_names (obj w') = map fst ps /\
    (forall ft sp, In (ft, sp) ps ->
       exists cls,
         _get_scaler (scaler_type_or_default (scaler_type sp)) = Ok cls /\
         OD.get (numeric_fts (obj w')) ft =
         Some {| mean := sp_mean sp;
                 std := StdGiven (sp_std sp);
                 scaler := fold_left (fun s kv => scaler_setattr s (fst kv) (snd kv))
                                     (scaler_attr_dict sp) (new_scaler cls) |}) /\
    bin_names (obj w') = Some bn /\
    (forall ft, In ft bn -> OD.get (binary_fts (obj w')) ft = Some new_binary_feature).
Proof.
  intros Hpc Hbn Hps Hne Hnd Hk Hnum Hbin.
  destruct ps as [| p ps]; [contradiction |].
  set (w1 := {| obj := set_categorical_fts pc (obj w); trace := trace w |}).
  destruct (init_numeric_from_presets w1 p ps Hps Hk Hnd Hnum)
    as (w2 & E2 & Htr2 & Hnames2 & Hget2).
  pose proof (init_numeric_preserves bin_names None
                (fun _ _ => eq_refl) (fun _ _ => eq_refl) w1) as Kbn.
  pose proof (init_numeric_preserves binary_fts None
                (fun _ _ => eq_refl) (fun _ _ => eq_refl) w1) as Kbin.
  pose proof (init_numeric_preserves categorical_fts None
                (fun _ _ => eq_refl) (fun _ _ => eq_refl) w1) as Kcat.
  rewrite E2 in Kbn, Kbin, Kcat. cbn [snd] in Kbn, Kbin, Kcat.
  assert (Hbn2 : bin_names (obj w2) = Some bn) by (rewrite Kbn; exact Hbn).
  assert (Hbin2 : binary_fts (obj w2) = []) by (rewrite Kbin; exact Hbin).
  destruct (init_binary_from_names w2 bn Hbn2 Hbin2)
    as (w3 & E3 & Htr3 & Hnames3 & Hget3).
  pose proof (init_binary_preserves numeric_fts None
                (fun _ _ => eq_refl) (fun _ _ => eq_refl) w2) as Knum.
  pose proof (init_binary_preserves num_names None
                (fun _ _ => eq_refl) (fun _ _ => eq_refl) w2) as Knames.
  pose proof (init_binary_preserves categorical_fts None
                (fun _ _ => eq_refl) (fun _ _ => eq_refl) w2) as Kcat3.
  rewrite E3 in Knum, Knames, Kcat3. cbn [snd] in Knum, Knames, Kcat3.
  exists w3. split; [| split; [| split; [| split; [| split; [| split]]]]].
  - intros df. rewrite (init_features_ignores_the_frame w pc bn p ps Hpc Hbn Hps df).
    rewrite (init_features_guard_passes w pc bn (p :: ps) Hpc Hbn Hps).
    unfold bindM at 1. cbn [modify]. fold w1.
    erewrite bind_run; [| exact E2]. exact E3.
  - rewrite Htr3, Htr2. reflexivity.
  - rewrite Kcat3, Kcat. reflexivity.
  - rewrite Knames. exact Hnames2.
  - intros ft sp Hin. destruct (Hget2 ft sp Hin) as (cls & Ec & Eg).
    exists cls. split; [exact Ec |]. rewrite Knum. exact Eg.
  - exact Hnames3.
  - exact Hget3.
Qed.

Lemma complete_presets_build_the_registry_whatever_the_frame_witness :
  exists w',
    _init_features (Some sample_df) (fresh preset_autoencoder) = (Ok tt, w') /\
    _init_features None (fresh preset_autoencoder) = (Ok tt, w') /\
    OD.keys (categorical_fts (obj w')) = ["kind"] /\
    num_names (obj w') = ["x"] /\
    OD.get (binary_fts (obj w')) "flag" = Some new_binary_feature.
Proof.
  destruct (complete_presets_build_the_registry_whatever_the_frame
              (fresh preset_autoencoder)
              [("kind", {| cats := ["a"; "b"] |})] ["flag"] [("x", preset_params)])
    as (w' & Hall & _ & Hcat & Hnames & _ & _ & Hbin).
  - reflexivity.
  - reflexivity.
  - reflexivity.
  - discriminate.
  - apply List.NoDup_cons; [intros [] | apply List.NoDup_nil].
  - constructor; [vm_compute; tauto | constructor].
  - reflexivity.
  - reflexivity.
  - exists w'. split; [apply Hall |]. split; [apply Hall |].
    split; [rewrite Hcat; reflexivity |]. split; [exact Hnames |].
    apply Hbin. left. reflexivity.
Defined.

(** ** An unsupported optimizer *)

Lemma silent_ret {A} (a : A) : silent (ret a).
Proof. intros w. reflexivity. Qed.

Lemma silent_raise {A} e : silent (@raise A e).
Proof. intros w. reflexivity. Qed.

Lemma silent_lift {A} (r : result A) : silent (lift r).
Proof. intros w. destruct r; reflexivity. Qed.

Lemma silent_modify (g : AutoEncoder -> AutoEncoder) : silent (modify g).
Proof. intros w. reflexivity. Qed.

Lemma silent_bind {A C} (m : M A) (k : A -> M C) :
  silent m -> (forall a, silent (k a)) -> silent (bindM m k).
Proof.
  intros Hm Hk w. unfold bindM. specialize (Hm w).
  destruct (m w) as [[a | e] w1]; cbn [snd] in *.
  - rewrite (Hk a w1). exact Hm.
  - exact Hm.
Qed.

Lemma silent_get_self {C} (k : AutoEncoder -> M C) :
  (forall s, silent (k s)) -> silent (bindM get_self k).
Proof. intros Hk w. exact (Hk (obj w) w). Qed.

Lemma silent_for_each {A} (l : list A) (body : A -> M unit) :
  (forall x, silent (body x)) -> silent (for_each l body).
Proof.
  intros Hb. induction l as [| x l IH]; cbn [for_each].
  - apply silent_ret.
  - apply silent_bind; [apply Hb | intros _; exact IH].
Qed.

Ltac silent_tac :=
  repeat first
    [ apply silent_get_self; intros ?
    | apply silent_bind; [| intros ?]
    | apply silent_for_each; intros ?
    | apply silent_ret | apply silent_raise | apply silent_lift
    | apply silent_modify
    | match goal with
      | |- silent (if ?c then _ else _) => destruct c
      | |- silent (match ?c with _ => _ end) => destruct c
      end ].

Lemma init_features_silent df : silent (_init_features df).
Proof.
  unfold _init_features, _init_cats, _init_numeric, _init_binary. silent_tac.
Qed.

Lemma bind_raise {A B} (m : M A) (k : A -> M B) w e w1 :
  m w = (Raise e, w1) -> bindM m k w = (Raise e, w1).
Proof. intros E. unfold bindM. rewrite E. reflexivity. Qed.

Lemma build_optimizer_unsupported (w : world) :
  optimizer (obj w) <> "adam" -> optimizer (obj w) <> "sgd" ->
  _build_optimizer w = (Raise ValueError, w).
Proof.
  intros Ha Hs. unfold _build_optimizer. rewrite bind_get_self.
  destruct (String.eqb_spec (optimizer (obj w)) "adam"); [contradiction |].
  destruct (String.eqb_spec (optimizer (obj w)) "sgd"); [contradiction |].
  reflexivity.
Qed.

Lemma build_model_unsupported df rank (w : world) :
  optimizer (obj w) <> "adam" -> optimizer (obj w) <> "sgd" ->
  exists e w',
    _build_model df rank w = (Raise e, w') /\
    optim (obj w') = optim (obj w) /\
    optimizer (obj w') = optimizer (obj w) /\
    (trace w' = trace w \/ trace w' = trace w ++ [EvModelBuild]).
Proof.
  intros Ha Hs. unfold _build_model.
  pose proof (init_features_preserves optim df
                (fun _ _ => eq_refl) (fun _ _ => eq_refl) (fun _ _ => eq_refl)
                (fun _ _ => eq_refl) (fun _ _ => eq_refl) w) as Ko.
  pose proof (init_features_preserves optimizer df
                (fun _ _ => eq_refl) (fun _ _ => eq_refl) (fun _ _ => eq_refl)
                (fun _ _ => eq_refl) (fun _ _ => eq_refl) w) as Kz.
  pose proof (init_features_silent df w) as Kt.
  destruct (_init_features df w) as [[[] | e] w1] eqn:E1; cbn [snd] in Ko, Kz, Kt.
  - erewrite bind_run; [| exact E1].
    unfold bindM at 1. cbn [emit]. rewrite bind_get_self. cbn [obj].
    set (w2 := {| obj := obj w1; trace := trace w1 ++ [EvModelBuild] |}).
    assert (Hraise : _build_optimizer w2 = (Raise ValueError, w2)).
    { apply build_optimizer_unsupported; cbn [w2 obj]; rewrite Kz; assumption. }
    destruct (distributed_training (obj w1)); [destruct rank as [r |] |].
    + unfold bindM at 1. cbn [ret]. exists ValueError, w2.
      split; [apply bind_raise; exact Hraise |].
      cbn [w2 obj trace]. rewrite Kt. auto.
    + exists ValueError, w2. split; [reflexivity |].
      cbn [w2 obj trace]. rewrite Kt. auto.
    + unfold bindM at 1. cbn [ret]. exists ValueError, w2.
      split; [apply bind_raise; exact Hraise |].
      cbn [w2 obj trace]. rewrite Kt. auto.
  - exists e, w1. split; [apply bind_raise; exact E1 |]. auto.
Qed.

(** X11: an object whose [optimizer] is neither ['adam'] nor ['sgd'] and
    that has no optimizer yet never trains: every call of [fit] raises,
    whatever its arguments, without running an epoch, a validation or a
    baseline; at most the network was built on the way.  The object is still
    without an optimizer afterwards, so the next call fails the same way.
    (The dataset wrappers [fit] puts around a dataframe are taken to
    return.) *)
Theorem unsupported_optimizer_never_trains
  (validate : nat -> vloss) (all_gather0 : nat -> bool -> bool)
  (a : fit_args) (w : world) :
  optimizer (obj w) <> "adam" ->
  optimizer (obj w) <> "sgd" ->
  optim (obj w) = None ->
  exists e w',
    fit validate all_gather0 a w = (Raise e, w') /\
    optim (obj w') = None /\
    optimizer (obj w') = optimizer (obj w) /\
    (trace w' = trace w \/ trace w' = trace w ++ [EvModelBuild]).
Proof.
  intros Ha Hs Ho. unfold fit.
  assert (Hstay : forall e, exists e' w',
            (Raise e, w) = (@Raise (es_state * nat) e', w') /\
            optim (obj w') = None /\
            optimizer (obj w') = optimizer (obj w) /\
            (trace w' = trace w \/ trace w' = trace w ++ [EvModelBuild])).
  { intros e. exists e, w. auto. }
  unfold bindM at 1.
  destruct (train_data a) eqn:Etd; cbn [raise ret]; try apply Hstay;
    rewrite bind_get_self;
    (unfold bindM at 1;
     destruct (distributed_training (obj w) && (is_none (rank a) || is_none (world_size a)));
     cbn [raise ret]; [apply Hstay |]);
    (unfold bindM at 1;
     destruct (negb (distributed_training (obj w))
               && (negb (is_none (rank a)) || negb (is_none (world_size a))));
     cbn [raise ret]; [apply Hstay |]);
    (unfold bindM at 1;
     destruct (run_validation a && is_none (val_data a));
     cbn [raise ret]; [apply Hstay |]);
    (unfold bindM at 1;
     destruct (use_val_for_loss_stats a && is_none (val_data a));
     cbn [raise ret]; [apply Hstay |]);
    rewrite Ho;
    match goal with
    | |- context [_build_model ?df ?r] =>
        destruct (build_model_unsupported df r w Ha Hs) as (e & w' & E & Eo & Ez & Et)
    end;
    exists e, w'; (split; [apply bind_raise; exact E |]);
    (split; [rewrite Eo; exact Ho |]); (split; [exact Ez | exact Et]).
Qed.

Lemma unsupported_optimizer_never_trains_witness :
  exists e w',
    fit (fun _ => Inf) (fun _ b => b) (sample_fit sample_df)
        (fresh (odd_autoencoder "standard" "rmsprop"))
    = (Raise e, w') /\
    optim (obj w') = None /\
    optimizer (obj w') = "rmsprop" /\
    (trace w' = [] \/ trace w' = [EvModelBuild]).
Proof.
  apply (unsupported_optimizer_never_trains (fun _ => Inf) (fun _ b => b)
           (sample_fit sample_df) (fresh (odd_autoencoder "standard" "rmsprop"))).
  - discriminate.
  - discriminate.
  - reflexivity.
Defined.

(** ** The anomaly score *)

Import Results.

Lemma cat_dim1_ok (a b : list (list fl)) :
  length a = length b ->
  cat_dim1 a b = Ok (map (fun p => fst p ++ snd p) (combine a b)).
Proof.
  revert b. induction a as [| r a IH]; intros [| s b] Hl; try discriminate Hl.
  - reflexivity.
  - cbn [cat_dim1 combine map fst snd]. rewrite IH by (simpl in Hl; lia). reflexivity.
Qed.

Lemma cat_dim1_mismatch (a b : list (list fl)) :
  length a <> length b -> cat_dim1 a b = Raise RuntimeError.
Proof.
  revert b. induction a as [| r a IH]; intros [| s b] Hl; try reflexivity.
  - contradiction.
  - cbn [cat_dim1]. rewrite IH; [reflexivity |]. simpl in Hl. lia.
Qed.

Lemma nth_error_cat_rows (a b : list (list fl)) (i : nat) (x y : list fl) :
  nth_error a i = Some x -> nth_error b i = Some y ->
  nth_error (map (fun p => fst p ++ snd p) (combine a b)) i = Some (x ++ y).
Proof.
  revert b i. induction a as [| r a IH]; intros [| s b] [| i] Ha Hb;
    simpl in *; try discriminate.
  - congruence.
  - apply IH; assumption.
Qed.

Section Scores.
Context {Row Prepared Targets Input Output : Type}.
Variable prepare_df : AutoEncoder -> list Row -> Prepared.
Variable compute_targets : AutoEncoder -> Prepared -> Targets.
Variable build_input_tensor : AutoEncoder -> Prepared -> Input.
Variable model : Input -> Output.
Variable mse_rows bce_rows : Output -> Targets -> list (list fl).
Variable cce_column : nat -> Output -> Targets -> list fl.

Lemma anomaly_score_losses_ok (self : AutoEncoder) (df : list Row) :
  (0 < batch_size self)%Z ->
  df <> [] ->
  categorical_fts self <> [] ->
  (forall s, length (mse_rows (slice_output prepare_df build_input_tensor model self s)
                              (slice_targets prepare_df compute_targets self s))
             = length s) ->
  (forall s, length (bce_rows (slice_output prepare_df build_input_tensor model self s)
                              (slice_targets prepare_df compute_targets self s))
             = length s) ->
  (forall i s, length (cce_column i (slice_output prepare_df build_input_tensor model self s)
                                  (slice_targets prepare_df compute_targets self s))
               = length s) ->
  exists mse bce cce,
    _get_anomaly_score_losses prepare_df compute_targets build_input_tensor model
                              mse_rows bce_rows cce_column self df
    = Ok (mse, bce, cce) /\
    length mse = length df /\ length bce = length df /\ length cce = length df.
Proof.
  intros Hs Hdf Hcat Hm Hb Hc.
  destruct (score_slices_cover self df Hs) as (Hn & Hcover & Hall).
  set (slices := score_slices self df) in *.
  assert (Hne : slices <> []).
  { intros E. rewrite E in Hcover. simpl in Hcover. congruence. }
  unfold _get_anomaly_score_losses.
  destruct (Z.eqb_spec (batch_size self) 0) as [E | _]; [lia |].
  fold slices.
  rewrite (score_all_ok prepare_df compute_targets build_input_tensor model
                        mse_rows bce_rows cce_column self slices Hcat).
  cbn [bind fst snd].
  rewrite !torch_cat0_ok by (intros E; apply Hne; eapply map_eq_nil; exact E).
  cbn [bind]. eexists _, _, _. split; [reflexivity |].
  rewrite !concat_map_length.
  - rewrite Hcover. repeat split; reflexivity.
  - intros s. apply cat_columns_length.
    + destruct (categorical_fts self); [congruence | discriminate].
    + apply List.Forall_forall. intros c Hin.
      apply in_map_iff in Hin as (i & <- & _). apply Hc.
  - exact Hb.
  - exact Hm.
Qed.
(** X12: with a positive [batch_size], a non-empty frame, at least one
    categorical feature and losses that have one row per input row,
    [get_anomaly_score] returns one score per row of the frame, and the
    score of a row is the mean over all its cells of the three loss tensors:
    the numeric ones, then the binary ones, then the categorical ones. *)
Theorem anomaly_score_is_the_row_mean_of_all_losses (self : AutoEncoder) (df : list Row) :
  (0 < batch_size self)%Z ->
  df <> [] ->
  categorical_fts self <> [] ->
  (forall s, length (mse_rows (slice_output prepare_df build_input_tensor model self s)
                              (slice_targets prepare_df compute_targets self s))
             = length s) ->
  (forall s, length (bce_rows (slice_output prepare_df build_input_tensor model self s)
                              (slice_targets prepare_df compute_targets self s))
             = length s) ->
  (forall i s, length (cce_column i (slice_output prepare_df build_input_tensor model self s)
                                  (slice_targets prepare_df compute_targets self s))
               = length s) ->
  exists mse bce cce scores,
    _get_anomaly_score_losses prepare_df compute_targets build_input_tensor model
                              mse_rows bce_rows cce_column self df
    = Ok (mse, bce, cce) /\
    get_anomaly_score prepare_df compute_targets build_input_tensor model
                      mse_rows bce_rows cce_column self df
    = Ok scores /\
    length scores = length df /\
    forall i m b c,
      nth_error mse i = Some m -> nth_error bce i = Some b -> nth_error cce i = Some c ->
      nth_error scores i = Some (mean1 (m ++ b ++ c)).
Proof.
  intros Hs Hdf Hcat Hm Hb Hc.
  destruct (anomaly_score_losses_ok self df Hs Hdf Hcat Hm Hb Hc)
    as (mse & bce & cce & E & Lm & Lb & Lc).
  exists mse, bce, cce. eexists. split; [exact E |].
  unfold get_anomaly_score. rewrite E. cbn [bind fst snd].
  rewrite (cat_dim1_ok mse bce) by congruence. cbn [bind].
  rewrite cat_dim1_ok
    by (rewrite length_map, length_combine, Lm, Lb, Lc; apply Nat.min_id).
  cbn [bind]. split; [reflexivity |]. split.
  - rewrite !length_map, !length_combine, !length_map, !length_combine, Lm, Lb, Lc.
    rewrite !Nat.min_id. reflexivity.
  - intros i m b c Im Ib Ic. rewrite nth_error_map.
    rewrite (nth_error_cat_rows _ _ i (m ++ b) c).
    + cbn [option_map]. rewrite <- app_assoc. reflexivity.
    + apply nth_error_cat_rows; assumption.
    + exact Ic.
Qed.

(** X13: [get_anomaly_score] never returns on a degenerate input: a
    [batch_size] of 0 raises [ZeroDivisionError]; otherwise an empty frame,
    a negative [batch_size] or a model without a categorical feature leaves
    [torch.cat] with an empty list of tensors, a [RuntimeError] (the stages a
    slice goes through before that are taken to return). *)
Theorem anomaly_score_refuses_degenerate_input (self : AutoEncoder) (df : list Row) :
  (batch_size self = 0%Z ->
   get_anomaly_score prepare_df compute_targets build_input_tensor model
                     mse_rows bce_rows cce_column self df
   = Raise ZeroDivisionError) /\
  (batch_size self <> 0%Z ->
   df = [] \/ (batch_size self < 0)%Z \/ categorical_fts self = [] ->
   get_anomaly_score prepare_df compute_targets build_input_tensor model
                     mse_rows bce_rows cce_column self df
   = Raise RuntimeError).
Proof.
  unfold get_anomaly_score, _get_anomaly_score_losses. split.
  - intros ->. reflexivity.
  - intros Hnz Hdeg.
    destruct (Z.eqb_spec (batch_size self) 0) as [E | _]; [contradiction |].
    assert (Hslices :
      score_slices self df = [] \/
      (score_slices self df <> [] /\ categorical_fts self = [])).
    { destruct (score_slices self df) as [| s rest] eqn:Es; [left; reflexivity |].
      right. split; [discriminate |].
      destruct Hdeg as [-> | [Hneg | Hcat]]; [| | exact Hcat]; exfalso.
      - unfold score_slices in Es. cbn [length] in Es.
        unfold n_batches in Es. rewrite Z.div_0_l, Z.mod_0_l in Es by exact Hnz.
        discriminate Es.
      - unfold score_slices in Es.
        assert (Hn : (n_batches (Z.of_nat (length df)) (batch_size self) <= 0)%Z).
        { unfold n_batches.
          pose proof (Z.mod_neg_bound (Z.of_nat (length df)) (batch_size self) Hneg).
          destruct (Z.ltb_spec 0 (Z.of_nat (length df) mod batch_size self)); [lia |].
          pose proof (Z.div_mod (Z.of_nat (length df)) (batch_size self) Hnz).
          nia. }
        replace (Z.to_nat (n_batches (Z.of_nat (length df)) (batch_size self)))
          with 0%nat in Es by lia.
        discriminate Es. }
    destruct Hslices as [-> | [Hne Hcat]]; [reflexivity |].
    destruct (score_slices self df) as [| s rest]; [congruence |].
    cbn [score_all]. unfold score_slice. rewrite Hcat. reflexivity.
Qed.
End Scores.

Lemma anomaly_score_is_the_row_mean_of_all_losses_witness :
  get_anomaly_score
    (fun _ (rows : list nat) => rows) (fun _ rows => rows) (fun _ rows => rows)
    (fun rows => rows)
    (fun out _ => map (fun _ => [Some (Q2Qc 1)]) out)
    (fun out _ => map (fun _ => [Some (Q2Qc 2)]) out)
    (fun _ out _ => map (fun _ => Some (Q2Qc 3)) out)
    small_batch_autoencoder [1; 2; 3]%nat
  = Ok (repeat (mean1 [Some (Q2Qc 1); Some (Q2Qc 2); Some (Q2Qc 3)]) 3).
Proof.
  destruct (anomaly_score_is_the_row_mean_of_all_losses
              (fun _ (rows : list nat) => rows) (fun _ rows => rows) (fun _ rows => rows)
              (fun rows => rows)
              (fun out _ => map (fun _ => [Some (Q2Qc 1)]) out)
              (fun out _ => map (fun _ => [Some (Q2Qc 2)]) out)
              (fun _ out _ => map (fun _ => Some (Q2Qc 3)) out)
              small_batch_autoencoder [1; 2; 3]%nat)
    as (mse & bce & cce & scores & _ & E & _ & _).
  - reflexivity.
  - discriminate.
  - discriminate.
  - intros s. apply length_map.
  - intros s. apply length_map.
  - intros i s. apply length_map.
  - vm_compute. reflexivity.
Defined.

Lemma anomaly_score_refuses_degenerate_input_witness :
  get_anomaly_score
    (fun _ (rows : list nat) => rows) (fun _ rows => rows) (fun _ rows => rows)
    (fun rows => rows)
    (fun out _ => map (fun _ => [Some (Q2Qc 1)]) out)
    (fun out _ => map (fun _ => [Some (Q2Qc 2)]) out)
    (fun _ out _ => map (fun _ => Some (Q2Qc 3)) out)
    small_batch_autoencoder []
  = Raise RuntimeError.
Proof.
  apply (anomaly_score_refuses_degenerate_input
           (fun _ (rows : list nat) => rows) (fun _ rows => rows) (fun _ rows => rows)
           (fun rows => rows)
           (fun out _ => map (fun _ => [Some (Q2Qc 1)]) out)
           (fun out _ => map (fun _ => [Some (Q2Qc 2)]) out)
           (fun _ out _ => map (fun _ => Some (Q2Qc 3)) out)
           small_batch_autoencoder []).
  - discriminate.
  - left. reflexivity.
Defined.

(** ** The scaler tag of the result frames *)

Lemma output_scaled_loss_str_spec (name : option string) :
  output_scaled_loss_str name =
  match name with
  | Some s =>
      if String.eqb s "standard" then "z"
      else if String.eqb s "modified" then "modz"
      else (s ++ "_scaled")%string
  | None => "None_scaled"
  end.
Proof.
  destruct name as [s |]; [| reflexivity]. unfold output_scaled_loss_str, str_of_name.
  repeat (destruct s as [| [[|] [|] [|] [|] [|] [|] [|] [|]] s]; try reflexivity).
Qed.

Lemma string_length_append (s t : string) :
  String.length (s ++ t) = (String.length s + String.length t)%nat.
Proof. induction s as [| c s IH]; simpl; [reflexivity | rewrite IH; reflexivity]. Qed.

Lemma string_append_inj_l (s s' t : string) :
  (s ++ t)%string = (s' ++ t)%string -> s = s'.
Proof.
  revert s'. induction s as [| c s IH]; intros [| c' s'] H.
  - reflexivity.
  - apply (f_equal String.length) in H.
    rewrite !string_length_append in H. cbn [String.length] in H. lia.
  - apply (f_equal String.length) in H.
    rewrite !string_length_append in H. cbn [String.length] in H. lia.
  - change (String c (s ++ t) = String c' (s' ++ t)) in H.
    inversion H. f_equal. apply IH. assumption.
Qed.

Lemma scaled_suffix_is_long (s : string) (t : string) :
  (String.length t < 7)%nat -> (s ++ "_scaled")%string <> t.
Proof.
  intros Hl H. apply (f_equal String.length) in H.
  rewrite string_length_append in H. cbn [String.length] in H. lia.
Qed.

Lemma init_records_a_known_loss_scaler (a : init_args) (self : AutoEncoder) :
  __init__ a = Ok self ->
  loss_scaler_str self = a_loss_scaler a /\ In (a_loss_scaler a) known_scaler_names.
Proof.
  unfold __init__. intros H.
  assert (Hdec : forall x y : option string, {x = y} + {x <> y})
    by (intros x y; decide equality; apply String.string_dec).
  destruct (in_dec Hdec (a_loss_scaler a) known_scaler_names) as [Hin | Hnin].
  - split; [| exact Hin].
    destruct (_get_scaler (a_loss_scaler a)); [| discriminate H].
    cbn [bind] in H. inversion H. reflexivity.
  - rewrite (get_scaler_unknown _ Hnin) in H. discriminate H.
Qed.

(** X14: the value [get_results] and [get_results_from_dataset] put in the
    [z_loss_scaler_type] column tells loss scalers apart: two names get the
    same tag only when they print the same (a name [None] and the string
    ['None']), and two constructed objects with the same tag have the same
    [loss_scaler_str]. *)
Theorem scaler_tag_identifies_the_loss_scaler :
  (forall a b : option string,
     output_scaled_loss_str a = output_scaled_loss_str b ->
     str_of_name a = str_of_name b) /\
  (forall (a b : init_args) (s1 s2 : AutoEncoder),
     __init__ a = Ok s1 -> __init__ b = Ok s2 ->
     output_scaled_loss_str (loss_scaler_str s1)
     = output_scaled_loss_str (loss_scaler_str s2) ->
     loss_scaler_str s1 = loss_scaler_str s2).
Proof.
  assert (Htag : forall n,
            output_scaled_loss_str n =
            if String.eqb (str_of_name n) "standard" then "z"
            else if String.eqb (str_of_name n) "modified" then "modz"
            else (str_of_name n ++ "_scaled")%string).
  { intros [s |]; rewrite output_scaled_loss_str_spec; reflexivity. }
  assert (Hinj : forall a b : option string,
            output_scaled_loss_str a = output_scaled_loss_str b ->
            str_of_name a = str_of_name b).
  { intros a b. rewrite !Htag.
    destruct (String.eqb_spec (str_of_name a) "standard") as [Ea | Na];
      destruct (String.eqb_spec (str_of_name b) "standard") as [Eb | Nb];
      try (destruct (String.eqb_spec (str_of_name a) "modified") as [Ea' | Na']);
      try (destruct (String.eqb_spec (str_of_name b) "modified") as [Eb' | Nb']);
      intros H; try congruence; try discriminate H.
    - exfalso. symmetry in H. revert H. apply scaled_suffix_is_long. simpl. lia.
    - exfalso. revert H. apply scaled_suffix_is_long. simpl. lia.
    - exfalso. symmetry in H. revert H. apply scaled_suffix_is_long. simpl. lia.
    - exfalso. revert H. apply scaled_suffix_is_long. simpl. lia.
    - apply (string_append_inj_l _ _ _ H). }
  split; [exact Hinj |].
  intros a b s1 s2 H1 H2 H.
  destruct (init_records_a_known_loss_scaler a s1 H1) as [E1 K1].
  destruct (init_records_a_known_loss_scaler b s2 H2) as [E2 K2].
  apply Hinj in H. rewrite E1, E2 in *.
  generalize dependent (a_loss_scaler b). generalize dependent (a_loss_scaler a).
  intros x _ K1 y H _ K2. simpl in K1, K2.
  destruct K1 as [<- | [<- | [<- | [<- | [<- | []]]]]];
    destruct K2 as [<- | [<- | [<- | [<- | [<- | []]]]]];
    first [reflexivity | cbn in H; discriminate H].
Qed.

Lemma scaler_tag_identifies_the_loss_scaler_witness :
  str_of_name None = str_of_name (Some "None") /\
  loss_scaler_str default_autoencoder = loss_scaler_str default_autoencoder.
Proof.
  split.
  - apply (proj1 scaler_tag_identifies_the_loss_scaler None (Some "None")).
    reflexivity.
  - apply (proj2 scaler_tag_identifies_the_loss_scaler default_args default_args).
    + reflexivity.
    + reflexivity.
    + reflexivity.
Defined.

(** ** Per-feature losses *)

Lemma OD_keys_set_old {V} (d : list (string * V)) k v :
  In k (OD.keys d) -> OD.keys (OD.set d k v) = OD.keys d.
Proof.
  induction d as [| [k' v'] d IH]; simpl; intros Hin; [contradiction |].
  destruct (String.eqb_spec k' k) as [-> | Hk]; [reflexivity |].
  simpl. f_equal. apply IH. destruct Hin as [E | Hin]; [contradiction | exact Hin].
Qed.

Lemma assign_columns_ok (t : tensor2) (names : list string) :
  forall (d : list (string * list fl)) (i : nat),
    (i + length names <= ncols t)%nat ->
    List.NoDup names ->
    (forall ft, In ft names -> ~ In ft (OD.keys d)) ->
    exists d',
      assign_columns d names t i = Ok d' /\
      OD.keys d' = OD.keys d ++ names /\
      (forall ft, ~ In ft names -> OD.get d' ft = OD.get d ft) /\
      (forall j ft, nth_error names j = Some ft ->
                    OD.get d' ft = Some (column_of t (i + j))).
Proof.
  induction names as [| ft0 names IH]; intros d i Hlen Hnd Hfresh; cbn [assign_columns].
  - exists d. split; [reflexivity |]. split; [symmetry; apply app_nil_r |].
    split; [reflexivity |]. intros [| j] ft H; discriminate H.
  - cbn [length] in Hlen. unfold take_column.
    destruct (Nat.ltb_spec i (ncols t)) as [_ | Hge]; [| lia]. cbn [bind].
    apply List.NoDup_cons_iff in Hnd. destruct Hnd as [Hnew Hnd].
    assert (Hkeys : OD.keys (OD.set d ft0 (column_of t i)) = OD.keys d ++ [ft0]).
    { apply OD_keys_set_new. apply Hfresh. left. reflexivity. }
    destruct (IH (OD.set d ft0 (column_of t i)) (S i)) as (d' & E & Hk & Hother & Hget).
    + lia.
    + exact Hnd.
    + intros ft Hin. rewrite Hkeys. intros Hin'. apply in_app_or in Hin'.
      destruct Hin' as [Hin' | [<- | []]].
      * exact (Hfresh ft (or_intror Hin) Hin').
      * exact (Hnew Hin).
    + exists d'. split; [exact E |]. split; [| split].
      * rewrite Hk, Hkeys, <- app_assoc. reflexivity.
      * intros ft Hn. rewrite Hother by (intros H; apply Hn; right; exact H).
        apply OD_get_set_other. intros ->. apply Hn. left. reflexivity.
      * intros [| j] ft Hj; cbn [nth_error] in Hj.
        -- inversion Hj; subst ft. rewrite (Hother ft0 Hnew).
           rewrite Nat.add_0_r. apply OD_get_set_same.
        -- rewrite (Hget j ft Hj). f_equal. f_equal. lia.
Qed.

Lemma assign_columns_short (t : tensor2) (names : list string) :
  forall (d : list (string * list fl)) (i : nat),
    (i <= ncols t)%nat ->
    (ncols t < i + length names)%nat ->
    assign_columns d names t i = Raise IndexError.
Proof.
  induction names as [| ft0 names IH]; intros d i Hi Hlen;
    cbn [assign_columns length] in *.
  - lia.
  - unfold take_column. destruct (Nat.ltb_spec i (ncols t)) as [Hlt | Hge]; [| reflexivity].
    cbn [bind]. apply IH; lia.
Qed.

Section BatchLosses.
Context {Input CatOut CatTarget : Type}.
Variable model : Input -> tensor2 * tensor2 * list CatOut.
Variable mse bce : tensor2 -> tensor2 -> tensor2.
Variable cce : CatOut -> CatTarget -> list fl.

Lemma assign_cce_ok (cat : list CatOut) (cat_target : list CatTarget)
  (names : list string) :
  forall (d : list (string * list fl)) (i : nat),
    (i + length names <= length cat)%nat ->
    (i + length names <= length cat_target)%nat ->
    List.NoDup names ->
    (forall ft, In ft names -> ~ In ft (OD.keys d)) ->
    exists d',
      assign_cce cce d names cat cat_target i = Ok d' /\
      OD.keys d' = OD.keys d ++ names /\
      (forall ft, ~ In ft names -> OD.get d' ft = OD.get d ft) /\
      (forall j ft out tgt,
         nth_error names j = Some ft ->
         nth_error cat (i + j) = Some out ->
         nth_error cat_target (i + j) = Some tgt ->
         OD.get d' ft = Some (cce out tgt)).
Proof.
  induction names as [| ft0 names IH]; intros d i Hl1 Hl2 Hnd Hfresh; cbn [assign_cce].
  - exists d. split; [reflexivity |]. split; [symmetry; apply app_nil_r |].
    split; [reflexivity |]. intros [| j] ft out tgt H; discriminate H.
  - cbn [length] in Hl1, Hl2. unfold list_item.
    destruct (nth_error cat i) as [out0 |] eqn:Eo;
      [| apply nth_error_None in Eo; lia].
    destruct (nth_error cat_target i) as [tgt0 |] eqn:Et;
      [| apply nth_error_None in Et; lia].
    cbn [bind].
    apply List.NoDup_cons_iff in Hnd. destruct Hnd as [Hnew Hnd].
    assert (Hkeys : OD.keys (OD.set d ft0 (cce out0 tgt0)) = OD.keys d ++ [ft0]).
    { apply OD_keys_set_new. apply Hfresh. left. reflexivity. }
    destruct (IH (OD.set d ft0 (cce out0 tgt0)) (S i)) as (d' & E & Hk & Hother & Hget).
    + lia.
    + lia.
    + exact Hnd.
    + intros ft Hin. rewrite Hkeys. intros Hin'. apply in_app_or in Hin'.
      destruct Hin' as [Hin' | [<- | []]].
      * exact (Hfresh ft (or_intror Hin) Hin').
      * exact (Hnew Hin).
    + exists d'. split; [exact E |]. split; [| split].
      * rewrite Hk, Hkeys, <- app_assoc. reflexivity.
      * intros ft Hn. rewrite Hother by (intros H; apply Hn; right; exact H).
        apply OD_get_set_other. intros ->. apply Hn. left. reflexivity.
      * intros [| j] ft out tgt Hj Ho Ht; cbn [nth_error] in Hj.
        -- inversion Hj; subst ft. rewrite Nat.add_0_r in Ho, Ht.
           rewrite (Hother ft0 Hnew). rewrite OD_get_set_same. congruence.
        -- apply (Hget j ft out tgt Hj).
           ++ rewrite <- Ho. f_equal. lia.
           ++ rewrite <- Ht. f_equal. lia.
Qed.
(** X15: when no name is shared between the numeric, binary and categorical
    registries and the model returns at least one column or head per
    feature, [_get_batch_feature_losses] returns one entry per feature, in
    the order numeric, binary, categorical; a numeric or binary feature gets
    the column of the loss tensor at its position in its registry, a
    categorical feature the cross-entropy of the head at its position.  A
    numeric loss tensor with fewer columns than there are numeric features
    raises [IndexError]. *)
Theorem batch_feature_losses_follow_registry_order
  (self : AutoEncoder) (input_original : Input)
  (num_target bin_target : tensor2) (cat_target : list CatTarget) :
  let out := model input_original in
  let mse_loss := mse (fst (fst out)) num_target in
  let bce_loss := bce (snd (fst out)) bin_target in
  let nums := OD.keys (numeric_fts self) in
  let bins := OD.keys (binary_fts self) in
  let cats := OD.keys (categorical_fts self) in
  (List.NoDup (nums ++ bins ++ cats) ->
   (length nums <= ncols mse_loss)%nat ->
   (length bins <= ncols bce_loss)%nat ->
   (length cats <= length (snd out))%nat ->
   (length cats <= length cat_target)%nat ->
   exists d,
     _get_batch_feature_losses model mse bce cce self input_original
                               num_target bin_target cat_target = Ok d /\
     OD.keys d = nums ++ bins ++ cats /\
     (forall i ft, nth_error nums i = Some ft ->
                   OD.get d ft = Some (column_of mse_loss i)) /\
     (forall i ft, nth_error bins i = Some ft ->
                   OD.get d ft = Some (column_of bce_loss i)) /\
     (forall i ft o tg,
        nth_error cats i = Some ft ->
        nth_error (snd out) i = Some o ->
        nth_error cat_target i = Some tg ->
        OD.get d ft = Some (cce o tg))) /\
  ((ncols mse_loss < length nums)%nat ->
   _get_batch_feature_losses model mse bce cce self input_original
                             num_target bin_target cat_target = Raise IndexError).
Proof.
  intros out mse_loss bce_loss nums bins cats. split.
  - intros Hnd Hn Hb Hc1 Hc2.
    assert (Hnd1 : List.NoDup nums) by (apply List.NoDup_app_remove_r in Hnd; exact Hnd).
    assert (Hnd23 : List.NoDup (bins ++ cats)) by (apply List.NoDup_app_remove_l in Hnd; exact Hnd).
    assert (Hnd2 : List.NoDup bins) by (apply List.NoDup_app_remove_r in Hnd23; exact Hnd23).
    assert (Hnd3 : List.NoDup cats) by (apply List.NoDup_app_remove_l in Hnd23; exact Hnd23).
    assert (Hsep1 : forall ft, In ft nums -> ~ In ft (bins ++ cats)).
    { intros ft H1 H2. revert ft H1 H2. clear -Hnd.
      induction nums as [| x l IH]; intros ft H1 H2; [contradiction |].
      cbn [app] in Hnd. apply List.NoDup_cons_iff in Hnd. destruct Hnd as [Hx Hnd].
      destruct H1 as [-> | H1].
      - apply Hx. apply in_or_app. right. exact H2.
      - exact (IH Hnd ft H1 H2). }
    assert (Hsep2 : forall ft, In ft bins -> ~ In ft cats).
    { intros ft H1 H2. revert ft H1 H2. clear -Hnd23.
      induction bins as [| x l IH]; intros ft H1 H2; [contradiction |].
      cbn [app] in Hnd23. apply List.NoDup_cons_iff in Hnd23. destruct Hnd23 as [Hx Hnd].
      destruct H1 as [-> | H1].
      - apply Hx. apply in_or_app. right. exact H2.
      - exact (IH Hnd ft H1 H2). }
    unfold _get_batch_feature_losses. fold out. fold mse_loss. fold bce_loss.
    fold nums. fold bins. fold cats.
    destruct (assign_columns_ok mse_loss nums [] 0 Hn Hnd1 (fun _ _ H => H))
      as (d1 & E1 & K1 & O1 & G1).
    rewrite E1. cbn [bind]. cbn [OD.keys map app] in K1.
    destruct (assign_columns_ok bce_loss bins d1 0 Hb Hnd2) as (d2 & E2 & K2 & O2 & G2).
    { intros ft Hin. rewrite K1. intros Hin'.
      apply (Hsep1 ft Hin'). apply in_or_app. left. exact Hin. }
    rewrite E2. cbn [bind].
    destruct (assign_cce_ok (snd out) cat_target cats d2 0 Hc1 Hc2 Hnd3)
      as (d3 & E3 & K3 & O3 & G3).
    { intros ft Hin. rewrite K2, K1. intros Hin'. apply in_app_or in Hin'.
      destruct Hin' as [Hin' | Hin'].
      - apply (Hsep1 ft Hin'). apply in_or_app. right. exact Hin.
      - exact (Hsep2 ft Hin' Hin). }
    exists d3. split; [exact E3 |]. split; [| split; [| split]].
    + rewrite K3, K2, K1. rewrite app_assoc. reflexivity.
    + intros i ft Hi. pose proof (nth_error_In _ _ Hi) as Hin.
      rewrite O3, O2.
      * exact (G1 i ft Hi).
      * intros H. apply (Hsep1 ft Hin). apply in_or_app. left. exact H.
      * intros H. apply (Hsep1 ft Hin). apply in_or_app. right. exact H.
    + intros i ft Hi. pose proof (nth_error_In _ _ Hi) as Hin.
      rewrite O3.
      * exact (G2 i ft Hi).
      * exact (Hsep2 ft Hin).
    + intros i ft o tg Hi Ho Ht. exact (G3 i ft o tg Hi Ho Ht).
  - intros Hshort. unfold _get_batch_feature_losses.
    fold out. fold mse_loss. fold nums.
    rewrite (assign_columns_short mse_loss nums [] 0); [reflexivity | lia | exact Hshort].
Qed.
End BatchLosses.

Lemma batch_feature_losses_follow_registry_order_witness :
  exists d,
    _get_batch_feature_losses
      (fun _ : unit => (empty_tensor, empty_tensor, [tt]))
      scenario_mse scenario_bce scenario_cce
      sample_registry tt empty_tensor empty_tensor [tt] = Ok d /\
    OD.keys d = ["x"; "flag"; "kind"] /\
    OD.get d "x" = Some [Some (Q2Qc (1 # 10))] /\
    OD.get d "flag" = Some [Some (Q2Qc (2 # 10))] /\
    OD.get d "kind" = Some [Some (Q2Qc (4 # 10))].
Proof.
  destruct (proj1 (batch_feature_losses_follow_registry_order
                     (fun _ : unit => (empty_tensor, empty_tensor, [tt]))
                     scenario_mse scenario_bce scenario_cce
                     sample_registry tt empty_tensor empty_tensor [tt]))
    as (d & E & K & G1 & G2 & G3).
  - vm_compute. repeat (constructor; [simpl; intuition discriminate |]). constructor.
  - vm_compute. lia.
  - vm_compute. lia.
  - vm_compute. lia.
  - vm_compute. lia.
  - exists d. split; [exact E |]. split; [exact K |].
    split; [exact (G1 0%nat "x" eq_refl) |].
    split; [exact (G2 0%nat "flag" eq_refl) |].
    exact (G3 0%nat "kind" tt tt eq_refl eq_refl eq_refl).
Defined.

Lemma OD_get_None {V} (d : list (string * V)) k :
  ~ In k (OD.keys d) -> OD.get d k = None.
Proof.
  induction d as [| [k' v'] d IH]; simpl; intros Hn; [reflexivity |].
  destruct (String.eqb_spec k' k) as [-> | Hk].
  - exfalso. apply Hn. left. reflexivity.
  - apply IH. intros H. apply Hn. right. exact H.
Qed.

Lemma OD_get_In {V} (d : list (string * V)) k :
  In k (OD.keys d) -> exists v, OD.get d k = Some v.
Proof.
  induction d as [| [k' v'] d IH]; simpl; intros Hin; [contradiction |].
  destruct (String.eqb_spec k' k) as [-> | Hk]; [eexists; reflexivity |].
  apply IH. destruct Hin as [E | Hin]; [contradiction | exact Hin].
Qed.

Lemma OD_get_Some_In {V} (d : list (string * V)) k v :
  OD.get d k = Some v -> In k (OD.keys d).
Proof.
  induction d as [| [k' v'] d IH]; simpl; intros H; [discriminate |].
  destruct (String.eqb_spec k' k) as [-> | Hk]; [left; reflexivity |].
  right. apply IH. exact H.
Qed.

Lemma append_loss_get_same (acc : list (string * list (list fl))) k v :
  OD.get (append_loss acc (k, v)) k
  = Some (match OD.get acc k with Some l => l | None => [] end ++ [v]).
Proof.
  unfold append_loss. cbn [fst snd].
  destruct (OD.get acc k); apply OD_get_set_same.
Qed.

Lemma append_loss_get_other (acc : list (string * list (list fl))) k v k' :
  k <> k' -> OD.get (append_loss acc (k, v)) k' = OD.get acc k'.
Proof.
  intros Hne. unfold append_loss. cbn [fst snd].
  destruct (OD.get acc k); apply OD_get_set_other; exact Hne.
Qed.

Lemma append_loss_keys (acc : list (string * list (list fl))) k v :
  OD.keys (append_loss acc (k, v))
  = match OD.get acc k with Some _ => OD.keys acc | None => OD.keys acc ++ [k] end.
Proof.
  unfold append_loss. cbn [fst snd].
  destruct (OD.get acc k) as [l |] eqn:E.
  - apply OD_keys_set_old. exact (OD_get_Some_In _ _ _ E).
  - apply OD_keys_set_new. intros Hin. destruct (OD_get_In _ _ Hin) as (v' & E').
    congruence.
Qed.

Lemma fold_append_get (d : list (string * list fl)) :
  List.NoDup (OD.keys d) ->
  forall (acc : list (string * list (list fl))) k,
    match OD.get (fold_left append_loss d acc) k with Some l => l | None => [] end
    = match OD.get acc k with Some l => l | None => [] end
      ++ match OD.get d k with Some v => [v] | None => [] end.
Proof.
  induction d as [| [k0 v0] d IH]; intros Hnd acc k; cbn [fold_left].
  - cbn [OD.get]. rewrite app_nil_r. reflexivity.
  - cbn [OD.keys map fst] in Hnd. apply List.NoDup_cons_iff in Hnd.
    destruct Hnd as [Hnew Hnd]. rewrite (IH Hnd). cbn [OD.get].
    destruct (String.eqb_spec k0 k) as [-> | Hne].
    + rewrite append_loss_get_same. rewrite (OD_get_None d k Hnew).
      rewrite app_nil_r. reflexivity.
    + rewrite (append_loss_get_other acc k0 v0 k Hne). reflexivity.
Qed.

Lemma fold_append_keys_new (d : list (string * list fl)) :
  List.NoDup (OD.keys d) ->
  forall acc : list (string * list (list fl)),
    (forall k, In k (OD.keys d) -> ~ In k (OD.keys acc)) ->
    OD.keys (fold_left append_loss d acc) = OD.keys acc ++ OD.keys d.
Proof.
  induction d as [| [k0 v0] d IH]; intros Hnd acc Hfresh; cbn [fold_left].
  - cbn [OD.keys map]. rewrite app_nil_r. reflexivity.
  - cbn [OD.keys map fst] in Hnd, Hfresh |- *. apply List.NoDup_cons_iff in Hnd.
    destruct Hnd as [Hnew Hnd].
    assert (Hk : OD.keys (append_loss acc (k0, v0)) = OD.keys acc ++ [k0]).
    { rewrite append_loss_keys. rewrite OD_get_None; [reflexivity |].
      apply Hfresh. left. reflexivity. }
    rewrite (IH Hnd).
    + rewrite Hk, <- app_assoc. reflexivity.
    + intros k Hin. rewrite Hk. intros Hin'. apply in_app_or in Hin'.
      destruct Hin' as [Hin' | [<- | []]].
      * exact (Hfresh k (or_intror Hin) Hin').
      * exact (Hnew Hin).
Qed.

Lemma fold_append_keys_old (d : list (string * list fl)) :
  forall acc : list (string * list (list fl)),
    (forall k, In k (OD.keys d) -> In k (OD.keys acc)) ->
    OD.keys (fold_left append_loss d acc) = OD.keys acc.
Proof.
  induction d as [| [k0 v0] d IH]; intros acc Hold; cbn [fold_left]; [reflexivity |].
  cbn [OD.keys map fst] in Hold.
  assert (Hk : OD.keys (append_loss acc (k0, v0)) = OD.keys acc).
  { rewrite append_loss_keys.
    destruct (OD_get_In acc k0 (Hold k0 (or_introl eq_refl))) as (l & ->). reflexivity. }
  rewrite IH; [exact Hk |].
  intros k Hin. rewrite Hk. apply Hold. right. exact Hin.
Qed.

Lemma cat_all_ok (feature_losses : list (string * list (list fl))) :
  Forall (fun item => snd item <> []) feature_losses ->
  cat_all feature_losses
  = Ok (map (fun item => (fst item, concat (snd item))) feature_losses).
Proof.
  induction 1 as [| [ft l] rest Hne Hall IH]; [reflexivity |].
  cbn [cat_all]. rewrite (torch_cat0_ok l Hne). cbn [bind]. rewrite IH. reflexivity.
Qed.

Lemma OD_get_map {V W} (f : V -> W) (d : list (string * V)) k :
  OD.get (map (fun item => (fst item, f (snd item))) d) k = option_map f (OD.get d k).
Proof.
  induction d as [| [k' v'] d IH]; [reflexivity |]. cbn [map OD.get fst snd].
  destruct (String.eqb k' k); [reflexivity | exact IH].
Qed.

Lemma OD_get_of_In {V} (d : list (string * V)) k v :
  List.NoDup (OD.keys d) -> In (k, v) d -> OD.get d k = Some v.
Proof.
  induction d as [| [k' v'] d IH]; intros Hnd Hin; [contradiction |].
  cbn [OD.keys map fst] in Hnd. apply List.NoDup_cons_iff in Hnd.
  destruct Hnd as [Hnew Hnd]. cbn [OD.get].
  destruct Hin as [E | Hin].
  - inversion E; subst. rewrite String.eqb_refl. reflexivity.
  - destruct (String.eqb_spec k' k) as [-> | Hne].
    + exfalso. apply Hnew. apply in_map_iff. exists (k, v). split; [reflexivity | exact Hin].
    + apply IH; assumption.
Qed.

Lemma batches_get (ds : list (list (string * list fl))) :
  Forall (fun d => List.NoDup (OD.keys d)) ds ->
  forall (acc : list (string * list (list fl))) k,
    match OD.get (fold_left (fun acc d => fold_left append_loss d acc) ds acc) k with
    | Some l => l
    | None => []
    end
    = match OD.get acc k with Some l => l | None => [] end
      ++ omap (fun d => OD.get d k) ds.
Proof.
  induction 1 as [| d ds Hd Hds IH]; intros acc k; cbn [fold_left].
  - cbn [omap list_omap]. rewrite app_nil_r. reflexivity.
  - rewrite IH. rewrite (fold_append_get d Hd). rewrite <- app_assoc. f_equal.
    cbn [omap list_omap]. destruct (OD.get d k); reflexivity.
Qed.

Lemma batches_keys (names : list string) (ds : list (list (string * list fl))) :
  Forall (fun d => OD.keys d = names) ds ->
  forall acc : list (string * list (list fl)),
    OD.keys acc = names ->
    OD.keys (fold_left (fun acc d => fold_left append_loss d acc) ds acc) = names.
Proof.
  induction 1 as [| d ds Hd Hds IH]; intros acc Hacc; cbn [fold_left]; [exact Hacc |].
  apply IH. rewrite fold_append_keys_old; [exact Hacc |].
  intros k Hin. rewrite Hacc, <- Hd. exact Hin.
Qed.

Section DatasetLosses.
Context {Input CatOut CatTarget : Type}.
Variable model : Input -> tensor2 * tensor2 * list CatOut.
Variable mse bce : tensor2 -> tensor2 -> tensor2.
Variable cce : CatOut -> CatTarget -> list fl.

Lemma feature_losses_loop_run (self : AutoEncoder)
  (dataset : list (Input * tensor2 * tensor2 * list CatTarget))
  (ds : list (list (string * list fl))) :
  Forall2 (fun data d =>
             _get_batch_feature_losses model mse bce cce self
               (fst (fst (fst data))) (snd (fst (fst data))) (snd (fst data)) (snd data)
             = Ok d) dataset ds ->
  forall acc,
    feature_losses_loop model mse bce cce self dataset acc
    = Ok (fold_left (fun acc d => fold_left append_loss d acc) ds acc).
Proof.
  induction 1 as [| data d dataset ds E Hrest IH]; intros acc; [reflexivity |].
  cbn [feature_losses_loop fold_left]. rewrite E. cbn [bind]. apply IH.
Qed.

(** X16: when [_get_batch_feature_losses] returns for every batch of a
    dataset, with the same distinct feature names each time,
    [_get_feature_losses_from_dataset] returns one entry per feature, in
    that order, and the losses of a feature are its batch losses joined in
    dataset order.  Without a batch it returns the empty dict. *)
Theorem dataset_feature_losses_join_the_batches_in_order (self : AutoEncoder)
  (dataset : list (Input * tensor2 * tensor2 * list CatTarget))
  (ds : list (list (string * list fl))) (names : list string) :
  Forall2 (fun data d =>
             _get_batch_feature_losses model mse bce cce self
               (fst (fst (fst data))) (snd (fst (fst data))) (snd (fst data)) (snd data)
             = Ok d) dataset ds ->
  Forall (fun d => OD.keys d = names) ds ->
  List.NoDup names ->
  exists r,
    _get_feature_losses_from_dataset model mse bce cce self dataset = Ok r /\
    (dataset = [] -> r = []) /\
    (dataset <> [] ->
     OD.keys r = names /\
     forall ft, In ft names ->
       OD.get r ft = Some (concat (omap (fun d => OD.get d ft) ds))).
Proof.
  intros Hrun Hkeys Hnd. unfold _get_feature_losses_from_dataset.
  rewrite (feature_losses_loop_run self dataset ds Hrun []). cbn [bind].
  set (acc := fold_left (fun acc d => fold_left append_loss d acc) ds []).
  assert (Hnds : Forall (fun d => List.NoDup (OD.keys d)) ds).
  { eapply List.Forall_impl; [| exact Hkeys]. cbn. intros d ->. exact Hnd. }
  assert (Hget : forall k,
            match OD.get acc k with Some l => l | None => [] end
            = omap (fun d => OD.get d k) ds).
  { intros k. unfold acc. rewrite (batches_get ds Hnds [] k). reflexivity. }
  destruct Hrun as [| data d dataset ds E Hrest].
  - exists []. split; [reflexivity |]. split; [reflexivity |]. congruence.
  - inversion Hkeys as [| ? ? Hd Hds]; subst.
    inversion Hnds as [| ? ? Hnd0 _]; subst.
    assert (Hacc : OD.keys acc = OD.keys d).
    { unfold acc. cbn [fold_left]. apply (batches_keys (OD.keys d) ds Hds).
      rewrite (fold_append_keys_new d Hnd0 []); [reflexivity |]. intros k _ []. }
    assert (Hfull : Forall (fun item => snd item <> []) acc).
    { apply List.Forall_forall. intros [k l] Hin. cbn [snd].
      assert (Hk : In k (OD.keys d)).
      { rewrite <- Hacc. apply in_map_iff. exists (k, l). split; [reflexivity | exact Hin]. }
      pose proof (OD_get_of_In acc k l ltac:(rewrite Hacc; exact Hnd0) Hin) as Hl.
      specialize (Hget k). rewrite Hl in Hget. rewrite Hget.
      cbn [omap list_omap]. destruct (OD_get_In d k Hk) as (v & ->). discriminate. }
    rewrite (cat_all_ok acc Hfull). eexists. split; [reflexivity |].
    split; [discriminate |]. intros _. split.
    + unfold OD.keys. rewrite map_map. cbn [fst]. exact Hacc.
    + intros ft Hin. rewrite (OD_get_map (@concat fl) acc ft).
      destruct (OD_get_In acc ft ltac:(rewrite Hacc; exact Hin)) as (l & El).
      specialize (Hget ft). rewrite El in Hget. rewrite El. cbn [option_map].
      rewrite Hget. reflexivity.
Qed.
End DatasetLosses.

Lemma dataset_feature_losses_join_the_batches_in_order_witness :
  exists r,
    _get_feature_losses_from_dataset
      (fun _ : unit => (empty_tensor, empty_tensor, [tt]))
      scenario_mse scenario_bce scenario_cce sample_registry
      [(tt, empty_tensor, empty_tensor, [tt]); (tt, empty_tensor, empty_tensor, [tt])]
    = Ok r /\
    OD.keys r = ["x"; "flag"; "kind"] /\
    OD.get r "x" = Some [Some (Q2Qc (1 # 10)); Some (Q2Qc (1 # 10))].
Proof.
  pose (d := [("x", [Some (Q2Qc (1 # 10))]);
              ("flag", [Some (Q2Qc (2 # 10))]);
              ("kind", [Some (Q2Qc (4 # 10))])] : list (string * list fl)).
  destruct (dataset_feature_losses_join_the_batches_in_order
              (fun _ : unit => (empty_tensor, empty_tensor, [tt]))
              scenario_mse scenario_bce scenario_cce sample_registry
              [(tt, empty_tensor, empty_tensor, [tt]); (tt, empty_tensor, empty_tensor, [tt])]
              [d; d] ["x"; "flag"; "kind"])
    as (r & E & _ & Hr).
  - repeat constructor; vm_compute; reflexivity.
  - repeat constructor.
  - repeat (constructor; [simpl; intuition discriminate |]). constructor.
  - destruct (Hr ltac:(discriminate)) as [K G].
    exists r. split; [exact E |]. split; [exact K |].
    rewrite (G "x"); [reflexivity | left; reflexivity].
Defined.

(** ** The threshold of the binary decoder *)

Lemma round_half_even_zero (x : Qc) :
  round_half_even x = 0%Z <-> (- (1 # 2) <= x /\ x <= 1 # 2)%Q.
Proof.
  unfold round_half_even.
  pose proof (Qfloor_le x) as Hlo. pose proof (Qlt_floor x) as Hhi.
  set (f := Qfloor x) in *.
  assert (Hcases : (f <= -2 \/ f = -1 \/ f = 0 \/ 1 <= f)%Z) by lia.
  destruct Hcases as [H | [H | [H | H]]].
  - assert (Hb : (inject_Z (f + 1) <= inject_Z (-1))%Q) by (rewrite <- Zle_Qle; lia).
    change (inject_Z (-1)) with (-1 # 1)%Q in Hb.
    split.
    + destruct (this x - inject_Z f ?= 1 # 2)%Q; [destruct (Z.even f) | |]; lia.
    + intros [H1 H2]. exfalso. lra.
  - rewrite H in *. change (inject_Z (-1)) with (-1 # 1)%Q in *.
    change (inject_Z (-1 + 1)) with (0 # 1)%Q in *.
    destruct (Qcompare_spec (this x - (-1 # 1)) (1 # 2)) as [E | E | E]; cbn [Z.even].
    + split; [intros _; lra | reflexivity].
    + split; [discriminate | intros [H1 H2]; lra].
    + split; [intros _; lra | reflexivity].
  - rewrite H in *. change (inject_Z 0) with (0 # 1)%Q in *.
    change (inject_Z (0 + 1)) with (1 # 1)%Q in *.
    destruct (Qcompare_spec (this x - (0 # 1)) (1 # 2)) as [E | E | E]; cbn [Z.even].
    + split; [intros _; lra | reflexivity].
    + split; [intros _; lra | reflexivity].
    + split; [discriminate | intros [H1 H2]; lra].
  - assert (Hb : (inject_Z 1 <= inject_Z f)%Q) by (rewrite <- Zle_Qle; lia).
    change (inject_Z 1) with (1 # 1)%Q in Hb.
    split.
    + destruct (this x - inject_Z f ?= 1 # 2)%Q; [destruct (Z.even f) | |]; lia.
    + intros [H1 H2]. exfalso. lra.
Qed.

(** X17: the binary decoder gives the label at position 0 of ['cats'] to
    every output from -1/2 to 1/2, both ends included (a half rounds to the
    even 0), and the label at position 1 to every other output; a ['cats']
    list with fewer than two labels raises [IndexError]. *)
Theorem binary_decode_threshold_is_one_half (feature : pydict) (cs : list pyval)
  (outs : list Qc) :
  dict_item feature (VStr "cats") = Ok (OList cs) ->
  match cs with
  | c0 :: c1 :: _ =>
      decode_binary_column feature outs
      = Ok (map (fun x : Qc =>
                   if Qle_bool (- (1 # 2)) x && Qle_bool x (1 # 2) then c0 else c1)
                outs)
  | _ => decode_binary_column feature outs = Raise IndexError
  end.
Proof.
  intros Hcats. unfold decode_binary_column. rewrite Hcats. cbn [bind].
  destruct cs as [| c0 [| c1 rest]]; try reflexivity.
  cbn [list_item nth_error bind]. f_equal. apply map_ext. intros x.
  unfold astype_bool.
  destruct (Z.eqb_spec (round_half_even x) 0) as [E | E]; cbn [negb].
  - apply round_half_even_zero in E. destruct E as [E1 E2].
    apply Qle_bool_iff in E1, E2. rewrite E1, E2. reflexivity.
  - destruct (Qle_bool (- (1 # 2)) x) eqn:E1; [| reflexivity].
    destruct (Qle_bool x (1 # 2)) eqn:E2; [| reflexivity].
    exfalso. apply E. apply round_half_even_zero.
    split; apply Qle_bool_iff; assumption.
Qed.

Lemma binary_decode_threshold_is_one_half_witness :
  decode_binary_column new_binary_feature
    [Q2Qc (1 # 2); Q2Qc (3 # 4); Q2Qc (1 # 4); Q2Qc (- (3 # 4))]
  = Ok [VBool true; VBool false; VBool true; VBool false].
Proof.
  rewrite (binary_decode_threshold_is_one_half new_binary_feature
             [VBool true; VBool false]
             [Q2Qc (1 # 2); Q2Qc (3 # 4); Q2Qc (1 # 4); Q2Qc (- (3 # 4))] eq_refl).
  reflexivity.
Defined.

(** ** Building the registry from a frame *)

Lemma init_numeric_frame_loop (df : DataFrame) (name : string) (cls : scaler_class)
  (numeric : list string) (l : list string) :
  _get_scaler (Some name) = Ok cls ->
  (forall ft, In ft l -> exists col, getitem df ft = Ok (NumCol col)) ->
  forall w,
    scaler_arg (obj w) = ScalerStr name ->
    exists w',
      for_each l (fun ft =>
        run! self := get_self in
        match local_scalers (scaler_arg self) numeric with
        | None => raise UnboundLocalError
        | Some scalers =>
            run! cls := lift (_get_scaler (scalers ft)) in
            run! col := lift (numeric_column df ft) in
            let feature := {| mean := pd_mean col;
                              std := StdOfSample col;
                              scaler := scaler_fit (new_scaler cls) (dropna col) |} in
            modify (fun self => set_numeric_fts (OD.set (numeric_fts self) ft feature) self)
        end) w
      = (Ok tt, w') /\
      (List.NoDup (OD.keys (numeric_fts (obj w)) ++ l) ->
       OD.keys (numeric_fts (obj w')) = OD.keys (numeric_fts (obj w)) ++ l) /\
      (forall ft, ~ In ft l ->
         OD.get (numeric_fts (obj w')) ft = OD.get (numeric_fts (obj w)) ft) /\
      (List.NoDup l ->
       forall ft col, In ft l -> getitem df ft = Ok (NumCol col) ->
         OD.get (numeric_fts (obj w')) ft
         = Some {| mean := pd_mean col;
                   std := StdOfSample col;
                   scaler := scaler_fit (new_scaler cls) (dropna col) |}).
Proof.
  intros Hcls. induction l as [| ft0 l IH]; intros Hcols w Hsc; cbn [for_each].
  - exists w. split; [reflexivity |]. split; [intros _; symmetry; apply app_nil_r |].
    split; [reflexivity |]. intros _ ft col [].
  - destruct (Hcols ft0 (or_introl eq_refl)) as (col0 & Hg0).
    rewrite (bind_run _ _ w tt
               {| obj := set_numeric_fts
                           (OD.set (numeric_fts (obj w)) ft0
                              {| mean := pd_mean col0;
                                 std := StdOfSample col0;
                                 scaler := scaler_fit (new_scaler cls) (dropna col0) |})
                           (obj w);
                  trace := trace w |}).
    2:{ rewrite bind_get_self. rewrite Hsc. cbn [local_scalers].
        unfold bindM at 1. rewrite Hcls. cbn [lift ret].
        unfold bindM at 1. unfold numeric_column. rewrite Hg0. cbn [bind lift ret].
        reflexivity. }
    match goal with
    | |- context [for_each l ?body ?w1] =>
        destruct (IH (fun ft H => Hcols ft (or_intror H)) w1 Hsc)
          as (w' & E & Hkeys & Hother & Hget)
    end.
    exists w'. split; [exact E |]. cbn [obj numeric_fts set_numeric_fts] in *.
    split; [| split].
    + intros Hnd.
      assert (Hfresh : ~ In ft0 (OD.keys (numeric_fts (obj w)))).
      { intros H. apply List.NoDup_remove_2 in Hnd. apply Hnd.
        apply in_or_app. left. exact H. }
      rewrite Hkeys.
      * rewrite (OD_keys_set_new _ _ _ Hfresh). rewrite <- app_assoc. reflexivity.
      * rewrite (OD_keys_set_new _ _ _ Hfresh). rewrite <- app_assoc. exact Hnd.
    + intros ft Hn. rewrite (Hother ft).
      * apply OD_get_set_other. intros ->. apply Hn. left. reflexivity.
      * intros H. apply Hn. right. exact H.
    + intros Hnd ft col Hin Hg. apply List.NoDup_cons_iff in Hnd.
      destruct Hnd as [Hfresh Hnd]. destruct Hin as [<- | Hin].
      * rewrite (Hother ft0 Hfresh). rewrite OD_get_set_same.
        rewrite Hg0 in Hg. inversion Hg. reflexivity.
      * apply (Hget Hnd ft col Hin Hg).
Qed.

Lemma init_cats_loop_keys (df : DataFrame) (objs : list string) :
  forall w w',
    for_each objs (fun ft =>
      run! self := get_self in
      run! col := lift (object_column df ft) in
      let feature := {| cats := cats_of_column (min_cats self) col |} in
      modify (fun self => set_categorical_fts (OD.set (categorical_fts self) ft feature) self)) w
    = (Ok tt, w') ->
    List.NoDup (OD.keys (categorical_fts (obj w)) ++ objs) ->
    OD.keys (categorical_fts (obj w')) = OD.keys (categorical_fts (obj w)) ++ objs.
Proof.
  induction objs as [| ft0 objs IH]; intros w w' E Hnd; cbn [for_each] in E.
  - inversion E. symmetry. apply app_nil_r.
  - apply bind_ok in E. destruct E as ([] & w1 & E1 & E).
    rewrite bind_get_self in E1. apply bind_ok in E1.
    destruct E1 as (col & w0 & E0 & E1).
    assert (Hw0 : w0 = w).
    { destruct (object_column df ft0); cbn in E0; inversion E0; reflexivity. }
    subst w0. cbn [modify] in E1. inversion E1; subst w1. clear E1.
    assert (Hfresh : ~ In ft0 (OD.keys (categorical_fts (obj w)))).
    { intros H. apply List.NoDup_remove_2 in Hnd. apply Hnd.
      apply in_or_app. left. exact H. }
    rewrite (IH _ _ E); cbn [obj categorical_fts set_categorical_fts].
    + rewrite (OD_keys_set_new _ _ _ Hfresh). rewrite <- app_assoc. reflexivity.
    + rewrite (OD_keys_set_new _ _ _ Hfresh). rewrite <- app_assoc. exact Hnd.
Qed.

Lemma register_binaries_keys (binaries : list string) :
  forall w w',
    for_each binaries (fun ft =>
      modify (fun self => set_binary_fts (OD.set (binary_fts self) ft new_binary_feature) self)) w
    = (Ok tt, w') ->
    List.NoDup (OD.keys (binary_fts (obj w)) ++ binaries) ->
    OD.keys (binary_fts (obj w')) = OD.keys (binary_fts (obj w)) ++ binaries.
Proof.
  induction binaries as [| ft0 rest IH]; intros w w' E Hnd; cbn [for_each] in E.
  - inversion E. symmetry. apply app_nil_r.
  - unfold bindM at 1 in E. cbn [modify] in E.
    assert (Hfresh : ~ In ft0 (OD.keys (binary_fts (obj w)))).
    { intros H. apply List.NoDup_remove_2 in Hnd. apply Hnd.
      apply in_or_app. left. exact H. }
    rewrite (IH _ _ E); cbn [obj binary_fts set_binary_fts].
    + rewrite (OD_keys_set_new _ _ _ Hfresh). rewrite <- app_assoc. reflexivity.
    + rewrite (OD_keys_set_new _ _ _ Hfresh). rewrite <- app_assoc. exact Hnd.
Qed.

Lemma select_dtypes_NoDup (p : column -> bool) (df : DataFrame) :
  List.NoDup (map fst df) -> List.NoDup (select_dtypes p df).
Proof. intros H. unfold select_dtypes. apply NoDup_map_fst_filter. exact H. Qed.

Lemma init_numeric_from_frame (d : DataFrame) (w : world) (name : string)
  (cls : scaler_class) :
  List.NoDup (map fst d) ->
  preset_numerical_scaler_params (obj w) = None ->
  scaler_arg (obj w) = ScalerStr name ->
  _get_scaler (Some name) = Ok cls ->
  numeric_fts (obj w) = [] ->
  exists w',
    _init_numeric (Some d) w = (Ok tt, w') /\
    num_names (obj w') = select_dtypes is_num d /\
    OD.keys (numeric_fts (obj w')) = select_dtypes is_num d /\
    forall ft col, In (ft, NumCol col) d ->
      OD.get (numeric_fts (obj w')) ft
      = Some {| mean := pd_mean col;
                std := StdOfSample col;
                scaler := scaler_fit (new_scaler cls) (dropna col) |}.
Proof.
  intros Hnd Hpn Hsc Hcls Hnum. unfold _init_numeric. rewrite bind_get_self.
  rewrite Hpn. cbn iota.
  assert (Hcols : forall ft, In ft (select_dtypes is_num d) ->
                    exists col, getitem d ft = Ok (NumCol col)).
  { intros ft Hin. apply select_dtypes_In in Hin as (c & Hin & Hp).
    destruct c; try discriminate Hp. exists vals. apply getitem_In; assumption. }
  destruct (init_numeric_frame_loop d name cls (select_dtypes is_num d)
              (select_dtypes is_num d) Hcls Hcols w Hsc)
    as (w1 & E & Hkeys & _ & Hget).
  erewrite bind_run; [| exact E]. cbn [modify].
  eexists. split; [reflexivity |].
  cbn [obj num_names numeric_fts set_num_names].
  assert (Hk : OD.keys (numeric_fts (obj w1)) = select_dtypes is_num d).
  { rewrite Hkeys; rewrite Hnum; [reflexivity |].
    apply select_dtypes_NoDup. exact Hnd. }
  split; [exact Hk |]. split; [exact Hk |].
  intros ft col Hin. apply Hget.
  - apply select_dtypes_NoDup. exact Hnd.
  - apply select_dtypes_In. exists (NumCol col). split; [exact Hin | reflexivity].
  - apply getitem_In; assumption.
Qed.

Lemma init_binary_from_frame (d : DataFrame) (w : world) :
  List.NoDup (map fst d) ->
  bin_names (obj w) = None ->
  binary_fts (obj w) = [] ->
  exists w',
    _init_binary (Some d) w = (Ok tt, w') /\
    bin_names (obj w') = Some (select_dtypes is_bool d) /\
    OD.keys (binary_fts (obj w')) = select_dtypes is_bool d /\
    forall ft, In ft (select_dtypes is_bool d) ->
      OD.get (binary_fts (obj w')) ft = Some new_binary_feature.
Proof.
  intros Hnd Hbn Hbin. unfold _init_binary. rewrite bind_get_self.
  rewrite Hbn, Hbin. cbn iota.
  unfold bindM at 1. unfold bindM at 1. cbn [modify ret].
  cbn [OD.keys map for_each]. unfold bindM at 1. cbn [ret].
  match goal with
  | |- context [for_each _ _ ?w1] =>
      destruct (register_binaries (select_dtypes is_bool d) w1) as (w' & E & _ & Hnames & Hget);
      pose proof (register_binaries_keys (select_dtypes is_bool d) w1 w' E) as Hkeys
  end.
  exists w'. split; [exact E |]. cbn [obj bin_names binary_fts set_bin_names] in *.
  split; [exact Hnames |]. split; [| exact Hget].
  rewrite Hkeys; rewrite Hbin; [reflexivity |].
  apply select_dtypes_NoDup. exact Hnd.
Qed.

Lemma init_features_from_frame (d : DataFrame) (w : world)
  (name : string) :
  List.NoDup (map fst d) ->
  preset_cats (obj w) = None ->
  preset_numerical_scaler_params (obj w) = None ->
  bin_names (obj w) = None ->
  scaler_arg (obj w) = ScalerStr name ->
  In (Some name) known_scaler_names ->
  numeric_fts (obj w) = [] ->
  binary_fts (obj w) = [] ->
  categorical_fts (obj w) = [] ->
  exists w' cls,
    _init_features (Some d) w = (Ok tt, w') /\
    trace w' = trace w /\
    _get_scaler (Some name) = Ok cls /\
    num_names (obj w') = select_dtypes is_num d /\
    OD.keys (numeric_fts (obj w')) = select_dtypes is_num d /\
    bin_names (obj w') = Some (select_dtypes is_bool d) /\
    OD.keys (binary_fts (obj w')) = select_dtypes is_bool d /\
    OD.keys (categorical_fts (obj w')) = select_dtypes is_obj d /\
    (forall ft col, In (ft, NumCol col) d ->
       OD.get (numeric_fts (obj w')) ft
       = Some {| mean := pd_mean col;
                 std := StdOfSample col;
                 scaler := scaler_fit (new_scaler cls) (dropna col) |}) /\
    (forall ft col, In (ft, ObjCol col) d ->
       OD.get (categorical_fts (obj w')) ft
       = Some {| cats := cats_of_column (min_cats (obj w)) col |}) /\
    (forall ft, In ft (select_dtypes is_bool d) ->
       OD.get (binary_fts (obj w')) ft = Some new_binary_feature).
Proof.
  intros Hnd Hpc Hpn Hbn Hsc Hknown Hnum Hbin Hcat.
  destruct (get_scaler_known _ Hknown) as (cls & Hcls).
  destruct (init_cats_registers d w Hnd) as (w1 & E1 & Hcatget).
  pose proof (init_cats_preserves preset_numerical_scaler_params (Some d)
                (fun _ _ => eq_refl) w) as P1.
  pose proof (init_cats_preserves scaler_arg (Some d) (fun _ _ => eq_refl) w) as P2.
  pose proof (init_cats_preserves numeric_fts (Some d) (fun _ _ => eq_refl) w) as P3.
  pose proof (init_cats_preserves bin_names (Some d) (fun _ _ => eq_refl) w) as P4.
  pose proof (init_cats_preserves binary_fts (Some d) (fun _ _ => eq_refl) w) as P5.
  rewrite E1 in P1, P2, P3, P4, P5. cbn [snd] in P1, P2, P3, P4, P5.
  assert (Hk1 : OD.keys (categorical_fts (obj w1)) = select_dtypes is_obj d).
  { pose proof E1 as E. unfold _init_cats in E.
    rewrite (init_cats_loop_keys d _ w w1 E); rewrite Hcat; [reflexivity |].
    apply select_dtypes_NoDup. exact Hnd. }
  destruct (init_numeric_from_frame d w1 name cls Hnd)
    as (w2 & E2 & Hnames2 & Hk2 & Hget2); try congruence.
  pose proof (init_numeric_preserves bin_names (Some d)
                (fun _ _ => eq_refl) (fun _ _ => eq_refl) w1) as Q1.
  pose proof (init_numeric_preserves binary_fts (Some d)
                (fun _ _ => eq_refl) (fun _ _ => eq_refl) w1) as Q2.
  pose proof (init_numeric_preserves categorical_fts (Some d)
                (fun _ _ => eq_refl) (fun _ _ => eq_refl) w1) as Q3.
  rewrite E2 in Q1, Q2, Q3. cbn [snd] in Q1, Q2, Q3.
  destruct (init_binary_from_frame d w2 Hnd) as (w3 & E3 & Hnames3 & Hk3 & Hbinget);
    try congruence.
  pose proof (init_binary_preserves numeric_fts (Some d)
                (fun _ _ => eq_refl) (fun _ _ => eq_refl) w2) as R1.
  pose proof (init_binary_preserves num_names (Some d)
                (fun _ _ => eq_refl) (fun _ _ => eq_refl) w2) as R2.
  pose proof (init_binary_preserves categorical_fts (Some d)
                (fun _ _ => eq_refl) (fun _ _ => eq_refl) w2) as R3.
  rewrite E3 in R1, R2, R3. cbn [snd] in R1, R2, R3.
  assert (E : _init_features (Some d) w = (Ok tt, w3)).
  { unfold _init_features. rewrite bind_get_self. rewrite Hpc.
    unfold bindM at 1. cbn [ret].
    erewrite bind_run; [| exact E1]. erewrite bind_run; [| exact E2]. exact E3. }
  exists w3, cls. split; [exact E |]. split.
  { pose proof (init_features_silent (Some d) w) as S. rewrite E in S. exact S. }
  split; [exact Hcls |].
  split; [rewrite R2; exact Hnames2 |].
  split; [rewrite R1; exact Hk2 |].
  split; [exact Hnames3 |].
  split; [exact Hk3 |].
  split; [rewrite R3, Q3; exact Hk1 |].
  split; [intros ft col Hin; rewrite R1; exact (Hget2 ft col Hin) |].
  split; [intros ft col Hin; rewrite R3, Q3; exact (Hcatget ft col Hin) |].
  exact Hbinget.
Qed.

(** X18: on an object without presets and with a known scaler name, and a
    frame whose column names are distinct, [_init_features] registers every
    column under the kind of its dtype and nothing else: the numeric
    registry and [num_names] list the numeric columns, the binary registry
    and [bin_names] the boolean columns, the categorical registry the object
    columns, each in frame order; a numeric column gets its mean, its
    standard deviation and a scaler of the named class fitted on its
    non-missing values.  Nothing is logged. *)
Theorem frame_columns_are_registered_by_dtype (d : DataFrame) (w : world)
  (name : string) :
  List.NoDup (map fst d) ->
  preset_cats (obj w) = None ->
  preset_numerical_scaler_params (obj w) = None ->
  bin_names (obj w) = None ->
  scaler_arg (obj w) = ScalerStr name ->
  In (Some name) known_scaler_names ->
  numeric_fts (obj w) = [] ->
  binary_fts (obj w) = [] ->
  categorical_fts (obj w) = [] ->
  exists w' cls,
    _init_features (Some d) w = (Ok tt, w') /\
    trace w' = trace w /\
    _get_scaler (Some name) = Ok cls /\
    num_names (obj w') = select_dtypes is_num d /\
    OD.keys (numeric_fts (obj w')) = select_dtypes is_num d /\
    bin_names (obj w') = Some (select_dtypes is_bool d) /\
    OD.keys (binary_fts (obj w')) = select_dtypes is_bool d /\
    OD.keys (categorical_fts (obj w')) = select_dtypes is_obj d /\
    (forall ft col, In (ft, NumCol col) d ->
       OD.get (numeric_fts (obj w')) ft
       = Some {| mean := pd_mean col;
                 std := StdOfSample col;
                 scaler := scaler_fit (new_scaler cls) (dropna col) |}).
Proof.
  intros Hnd Hpc Hpn Hbn Hsc Hknown Hnum Hbin Hcat.
  destruct (init_features_from_frame d w name Hnd Hpc Hpn Hbn Hsc Hknown Hnum Hbin Hcat)
    as (w' & cls & E & H1 & H2 & H3 & H4 & H5 & H6 & H7 & H8 & _).
  exists w', cls. repeat (split; [assumption |]). exact H8.
Qed.

Lemma frame_columns_are_registered_by_dtype_witness :
  exists w',
    _init_features (Some sample_df) (fresh default_autoencoder) = (Ok tt, w') /\
    num_names (obj w') = ["x"] /\
    bin_names (obj w') = Some ["flag"] /\
    OD.keys (categorical_fts (obj w')) = ["kind"].
Proof.
  destruct (frame_columns_are_registered_by_dtype sample_df
              (fresh default_autoencoder) "standard")
    as (w' & cls & E & _ & _ & Hn & _ & Hb & _ & Hc & _).
  - repeat (constructor; [simpl; intuition discriminate |]). constructor.
  - reflexivity.
  - reflexivity.
  - reflexivity.
  - reflexivity.
  - left. reflexivity.
  - reflexivity.
  - reflexivity.
  - reflexivity.
  - exists w'. split; [exact E |]. split; [exact Hn |]. split; [exact Hb | exact Hc].
Defined.

(** ** The order of the categories *)

Lemma StronglySorted_nth {A} (R : A -> A -> Prop) (l : list A) :
  StronglySorted R l ->
  forall i j x y, (i < j)%nat ->
    nth_error l i = Some x -> nth_error l j = Some y -> R x y.
Proof.
  induction 1 as [| a l Hs IH Hall]; intros i j x y Hij Hi Hj.
  - destruct i; discriminate Hi.
  - destruct j as [| j]; [lia |]. cbn [nth_error] in Hj.
    destruct i as [| i]; cbn [nth_error] in Hi.
    + inversion Hi; subst. rewrite List.Forall_forall in Hall.
      apply Hall. eapply nth_error_In. exact Hj.
    + apply (IH i j x y); [lia | assumption | assumption].
Qed.

Lemma StronglySorted_filter {A} (R : A -> A -> Prop) (f : A -> bool) (l : list A) :
  StronglySorted R l -> StronglySorted R (List.filter f l).
Proof.
  induction 1 as [| a l Hs IH Hall]; cbn [List.filter]; [constructor |].
  destruct (f a); [| exact IH]. constructor; [exact IH |].
  rewrite List.Forall_forall in *. intros x Hin.
  apply filter_In in Hin as [Hin _]. apply Hall. exact Hin.
Qed.

Lemma value_counts_sorted (col : list (option string)) :
  StronglySorted count_ge (value_counts col).
Proof.
  assert (Htrans : Transitive count_ge).
  { intros a b c. unfold count_ge. lia. }
  assert (Htotal : Total count_ge).
  { intros a b. unfold count_ge. lia. }
  unfold value_counts. apply StronglySorted_merge_sort; assumption.
Qed.

(** X19: the categories [_init_cats] keeps for a column are listed by
    decreasing frequency: a category never has a larger count than one
    listed before it.  The position in this list is the code [prepare_df]
    gives the category. *)
Theorem categories_are_listed_by_decreasing_count (min_cats : Z)
  (col : list (option string)) (i j : nat) (a b : string) :
  (i < j)%nat ->
  nth_error (cats_of_column min_cats col) i = Some a ->
  nth_error (cats_of_column min_cats col) j = Some b ->
  (count_of b col <= count_of a col)%Z.
Proof.
  intros Hij Hi Hj. unfold cats_of_column, index_where_ge in Hi, Hj.
  rewrite nth_error_map in Hi, Hj.
  destruct (nth_error (List.filter (fun vc => Z.leb min_cats (snd vc)) (value_counts col)) i)
    as [[a' ca] |] eqn:Ei; [| discriminate Hi].
  destruct (nth_error (List.filter (fun vc => Z.leb min_cats (snd vc)) (value_counts col)) j)
    as [[b' cb] |] eqn:Ej; [| discriminate Hj].
  cbn in Hi, Hj. inversion Hi; inversion Hj; subst a' b'.
  pose proof (StronglySorted_nth count_ge _
                (StronglySorted_filter count_ge _ _ (value_counts_sorted col))
                i j _ _ Hij Ei Ej) as Hge.
  unfold count_ge in Hge. cbn [snd] in Hge.
  apply nth_error_In, filter_In in Ei as [Ei _].
  apply nth_error_In, filter_In in Ej as [Ej _].
  apply value_counts_In in Ei as [_ ->]. apply value_counts_In in Ej as [_ ->].
  exact Hge.
Qed.

Lemma categories_are_listed_by_decreasing_count_witness :
  cats_of_column 1 sample_kinds = ["a"; "b"] /\
  (count_of "b" sample_kinds <= count_of "a" sample_kinds)%Z.
Proof.
  split; [vm_compute; reflexivity |].
  apply (categories_are_listed_by_decreasing_count 1 sample_kinds 0 1 "a" "b").
  - lia.
  - vm_compute. reflexivity.
  - vm_compute. reflexivity.
Defined.

(** ** Training from a dataset *)

Lemma init_features_needs_presets (w : world) :
  preset_cats (obj w) = None \/
  bin_names (obj w) = None \/
  preset_numerical_scaler_params (obj w) = None ->
  _init_features None w = (Raise ValueError, w).
Proof.
  intros H. unfold _init_features. rewrite bind_get_self.
  destruct (preset_cats (obj w)) as [pc |];
    destruct (bin_names (obj w)) as [bn |];
    destruct (preset_numerical_scaler_params (obj w)) as [pn |];
    try reflexivity.
  destruct H as [H | [H | H]]; discriminate H.
Qed.

(** X20: an object that has not been built and lacks one of the three
    presets cannot be trained from a data loader or a dataset: with
    validation data that is absent or a dataset too, and whatever the other
    arguments, [fit] raises [ValueError] and leaves the object as it was,
    with no network built and no epoch run.  Only a dataframe lets such an
    object build its registry. *)
Theorem fit_on_a_dataset_needs_presets
  (validate : nat -> vloss) (all_gather0 : nat -> bool -> bool)
  (a : fit_args) (w : world) :
  optim (obj w) = None ->
  preset_cats (obj w) = None \/
  bin_names (obj w) = None \/
  preset_numerical_scaler_params (obj w) = None ->
  train_data a = TrainDataLoader \/ train_data a = TrainDataset ->
  val_data a = None \/ val_data a = Some ValDataset ->
  fit validate all_gather0 a w = (Raise ValueError, w).
Proof.
  intros Ho Hpre Htd _. unfold fit.
  assert (Hbuild : forall r, _build_model None r w = (Raise ValueError, w)).
  { intros r. unfold _build_model. apply bind_raise.
    apply init_features_needs_presets. exact Hpre. }
  unfold bindM at 1.
  destruct Htd as [-> | ->]; cbn [ret];
    rewrite bind_get_self;
    (unfold bindM at 1;
     destruct (distributed_training (obj w) && (is_none (rank a) || is_none (world_size a)));
     cbn [raise ret]; [reflexivity |]);
    (unfold bindM at 1;
     destruct (negb (distributed_training (obj w))
               && (negb (is_none (rank a)) || negb (is_none (world_size a))));
     cbn [raise ret]; [reflexivity |]);
    (unfold bindM at 1;
     destruct (run_validation a && is_none (val_data a));
     cbn [raise ret]; [reflexivity |]);
    (unfold bindM at 1;
     destruct (use_val_for_loss_stats a && is_none (val_data a));
     cbn [raise ret]; [reflexivity |]);
    rewrite Ho; apply bind_raise; apply Hbuild.
Qed.

Lemma fit_on_a_dataset_needs_presets_witness :
  fit (fun _ => Inf) (fun _ b => b)
      {| train_data := TrainDataset; epochs := 2; val_data := None;
         run_validation := false; use_val_for_loss_stats := false;
         rank := None; world_size := None |}
      (fresh default_autoencoder)
  = (Raise ValueError, fresh default_autoencoder).
Proof.
  apply fit_on_a_dataset_needs_presets.
  - reflexivity.
  - left. reflexivity.
  - right. reflexivity.
  - left. reflexivity.
Defined.

(** ** What the first completed [fit] builds, and when it is built again *)

Lemma build_optimizer_exact (w w' : world) :
  _build_optimizer w = (Ok tt, w') ->
  trace w' = trace w /\
  ((optimizer (obj w) = "adam" /\ obj w' = set_optim (Some Adam) (obj w)) \/
   (optimizer (obj w) = "sgd" /\ obj w' = set_optim (Some SGD) (obj w))).
Proof.
  unfold _build_optimizer. rewrite bind_get_self.
  destruct (String.eqb_spec (optimizer (obj w)) "adam") as [Ea | _].
  - intros H. inversion H. split; [reflexivity |]. left. split; [exact Ea | reflexivity].
  - destruct (String.eqb_spec (optimizer (obj w)) "sgd") as [Es | _]; [| discriminate].
    intros H. inversion H. split; [reflexivity |]. right. split; [exact Es | reflexivity].
Qed.

Lemma build_logger_preserves {B} (f : AutoEncoder -> B) :
  (forall v s, f (set_logger v s) = f s) -> preserves f _build_logger.
Proof.
  intros Hf. unfold _build_logger.
  apply preserves_get_self. intros self.
  destruct (bin_names self); [| apply preserves_raise].
  repeat match goal with
         | |- preserves _ (match ?x with _ => _ end) => destruct x
         | |- preserves _ (if ?x then _ else _) => destruct x
         end;
    first [apply preserves_ret | apply preserves_modify; intros ?; apply Hf].
Qed.

Lemma build_logger_silent : silent _build_logger.
Proof.
  unfold _build_logger.
  apply silent_get_self. intros self.
  destruct (bin_names self); [| apply silent_raise].
  repeat match goal with
         | |- silent (match ?x with _ => _ end) => destruct x
         | |- silent (if ?x then _ else _) => destruct x
         end;
    first [apply silent_ret | apply silent_modify].
Qed.

Lemma build_logger_exact (w w' : world) :
  _build_logger w = (Ok tt, w') ->
  exists bn,
    bin_names (obj w) = Some bn /\
    let fts := num_names (obj w) ++ bn ++ OD.keys (categorical_fts (obj w)) in
    (logger (obj w) = LoggerName "basic" -> logger (obj w') = BasicLogger fts) /\
    (logger (obj w) = LoggerName "ipynb" -> logger (obj w') = IpynbLogger fts) /\
    (logger (obj w) = LoggerName "tensorboard" ->
     logger (obj w') = TensorboardXLogger fts).
Proof.
  unfold _build_logger. rewrite bind_get_self.
  destruct (bin_names (obj w)) as [bn |]; [| discriminate].
  intros H. exists bn. split; [reflexivity |]. cbv zeta.
  split; [| split]; intros Hl; rewrite Hl in H; cbn in H; inversion H; reflexivity.
Qed.



Lemma build_model_exact (df : option DataFrame) (rank : option Z) (w wb : world) :
  _build_model df rank w = (Ok tt, wb) ->
  exists wf,
    _init_features df w = (Ok tt, wf) /\
    trace wb = trace w ++ [EvModelBuild] /\
    numeric_fts (obj wb) = numeric_fts (obj wf) /\
    binary_fts (obj wb) = binary_fts (obj wf) /\
    categorical_fts (obj wb) = categorical_fts (obj wf) /\
    num_names (obj wb) = num_names (obj wf) /\
    bin_names (obj wb) = bin_names (obj wf) /\
    ((optimizer (obj w) = "adam" /\ optim (obj wb) = Some Adam) \/
     (optimizer (obj w) = "sgd" /\ optim (obj wb) = Some SGD)) /\
    (forall gamma, lr_decay (obj w) = DecayRate gamma ->
                   lr_decay (obj wb) = DecayScheduler gamma) /\
    exists bn,
      bin_names (obj wf) = Some bn /\
      let fts := num_names (obj wf) ++ bn ++ OD.keys (categorical_fts (obj wf)) in
      (logger (obj w) = LoggerName "basic" -> logger (obj wb) = BasicLogger fts) /\
      (logger (obj w) = LoggerName "ipynb" -> logger (obj wb) = IpynbLogger fts) /\
      (logger (obj w) = LoggerName "tensorboard" ->
       logger (obj wb) = TensorboardXLogger fts).
Proof.
  unfold _build_model. intros H.
  apply bind_ok in H as ([] & wf & Ef & H).
  exists wf. split; [exact Ef |].
  pose proof (init_features_silent df w) as Sf. rewrite Ef in Sf. cbn [snd] in Sf.
  assert (Kf : forall {B} (f : AutoEncoder -> B),
            (forall v s, f (set_numeric_fts v s) = f s) ->
            (forall v s, f (set_num_names v s) = f s) ->
            (forall v s, f (set_binary_fts v s) = f s) ->
            (forall v s, f (set_bin_names v s) = f s) ->
            (forall v s, f (set_categorical_fts v s) = f s) ->
            f (obj wf) = f (obj w)).
  { intros B f H1 H2 H3 H4 H5.
    pose proof (init_features_preserves f df H1 H2 H3 H4 H5 w) as P.
    rewrite Ef in P. exact P. }
  apply bind_ok in H as ([] & w1 & E1 & H). cbn [emit] in E1. inversion E1; subst w1.
  clear E1. rewrite bind_get_self in H. cbn [obj] in H.
  apply bind_ok in H as ([] & w3 & E3 & H).
  assert (w3 = {| obj := obj wf; trace := trace wf ++ [EvModelBuild] |}).
  { destruct (distributed_training (obj wf)); [destruct rank |];
      inversion E3; reflexivity. }
  subst w3. clear E3.
  apply bind_ok in H as ([] & w4 & E4 & H).
  apply build_optimizer_exact in E4 as [T4 O4]. cbn [obj trace] in T4, O4.
  rewrite bind_get_self in H.
  apply bind_ok in H as ([] & w6 & E6 & H).
  assert (H6 : trace w6 = trace w4 /\
               (obj w6 = obj w4 \/ exists g, obj w6 = set_lr_decay (DecayScheduler g) (obj w4)) /\
               (forall gamma, lr_decay (obj w4) = DecayRate gamma ->
                              lr_decay (obj w6) = DecayScheduler gamma)).
  { destruct (lr_decay (obj w4)) as [| g | g] eqn:El; inversion E6; subst w6;
      cbn [obj trace].
    - split; [reflexivity |]. split; [left; reflexivity |]. intros gamma Hg.
      discriminate Hg.
    - split; [reflexivity |]. split; [right; exists g; reflexivity |].
      intros gamma Hg. inversion Hg. reflexivity.
    - split; [reflexivity |]. split; [right; exists g; reflexivity |].
      intros gamma Hg. discriminate Hg. }
  destruct H6 as (T6 & O6 & L6).
  pose proof (build_logger_silent w6) as S7. rewrite H in S7. cbn [snd] in S7.
  assert (K7 : forall {B} (f : AutoEncoder -> B),
            (forall v s, f (set_logger v s) = f s) ->
            (forall v s, f (set_lr_decay v s) = f s) ->
            (forall v s, f (set_optim v s) = f s) ->
            f (obj wb) = f (obj wf)).
  { intros B f H1 H2 H3.
    pose proof (build_logger_preserves f H1 w6) as P. rewrite H in P. cbn [snd] in P.
    rewrite P.
    destruct O6 as [-> | [g ->]]; rewrite ?H2;
      destruct O4 as [[_ ->] | [_ ->]]; apply H3. }
  split; [rewrite S7, T6, T4, Sf; reflexivity |].
  split; [apply K7; reflexivity |].
  split; [apply K7; reflexivity |].
  split; [apply K7; reflexivity |].
  split; [apply K7; reflexivity |].
  split; [apply K7; reflexivity |].
  assert (Hopt : optim (obj wb) = optim (obj w4)).
  { pose proof (build_logger_preserves optim (fun _ _ => eq_refl) w6) as P.
    rewrite H in P. cbn [snd] in P. rewrite P.
    destruct O6 as [-> | [g ->]]; reflexivity. }
  split.
  { rewrite Hopt. rewrite <- (Kf _ optimizer) by reflexivity.
    destruct O4 as [[Ho ->] | [Ho ->]]; [left | right]; split; try exact Ho; reflexivity. }
  split.
  { intros gamma Hg.
    pose proof (build_logger_preserves lr_decay (fun _ _ => eq_refl) w6) as P.
    rewrite H in P. cbn [snd] in P. rewrite P. apply L6.
    rewrite <- (Kf _ lr_decay) in Hg by reflexivity.
    destruct O4 as [[_ ->] | [_ ->]]; exact Hg. }
  apply build_logger_exact in H as (bn & Hbn & Hlog). cbv zeta in Hlog.
  assert (Q : forall {B} (f : AutoEncoder -> B),
            (forall v s, f (set_lr_decay v s) = f s) ->
            (forall v s, f (set_optim v s) = f s) ->
            f (obj w6) = f (obj wf)).
  { intros B f H2 H3.
    destruct O6 as [-> | [g ->]]; rewrite ?H2;
      destruct O4 as [[_ ->] | [_ ->]]; apply H3. }
  rewrite (Q _ bin_names) in Hbn by reflexivity.
  rewrite (Q _ num_names), (Q _ categorical_fts), (Q _ logger) in Hlog by reflexivity.
  rewrite (Kf _ logger) in Hlog by reflexivity.
  exists bn. split; [exact Hbn |]. exact Hlog.
Qed.

(** A completed build leaves a built logger when the name given to
    [__init__] is one [_build_logger] knows. *)
Lemma build_model_builds_the_logger (df : option DataFrame) (rank : option Z)
  (w wb : world) :
  _build_model df rank w = (Ok tt, wb) ->
  logger (obj w) = LoggerName "basic" \/ logger (obj w) = LoggerName "ipynb" \/
  logger (obj w) = LoggerName "tensorboard" ->
  logger_built (obj wb).
Proof.
  intros H Hname.
  destruct (build_model_exact df rank w wb H)
    as (wf & _ & _ & _ & _ & _ & _ & _ & _ & _ & bn & _ & H1 & H2 & H3).
  unfold logger_built.
  destruct Hname as [Hn | [Hn | Hn]];
    [rewrite (H1 Hn) | rewrite (H2 Hn) | rewrite (H3 Hn)]; exact I.
Qed.







